(** * Topic Monitor pipeline of mattermost-mcp: a shallow embedding

    The TypeScript sources embedded here are
    - [src/monitor/scheduler.ts]   ([MonitoringScheduler]),
    - [src/monitor/analyzer.ts]    ([MessageAnalyzer], batch classifier),
    - the keyword classifier of the earlier analyzer ([analyzeWithLLM]),
    - the state manager            ([StateManager], [MonitorState]),
    - the monitor                  ([TopicMonitor]),
    - [src/tools/monitoring.ts]    ([handleRunMonitoring]).

    JavaScript values are modelled as the TypeScript types declare them;
    the one unchecked cast of the state manager has a model of its own
    ([StateManager.Unchecked]).  Plain objects used as dictionaries are
    finite maps over their own properties; the members they inherit from
    [Object.prototype] are modelled for the state manager
    ([StateManager.AnyKey]), and statements about the other dictionaries
    are made for keys that name no such member ([own_keys]).  Strings are
    sequences of 8-bit characters; [toLowerCase] acts on the letters A-Z,
    which is what it does on ASCII text.  Exceptions are explicit: an effectful
    function runs in a state-and-exception monad over the [World] of the
    process, and a [try]/[catch]/[finally] is a combinator of that monad.
    Everything outside the process (the workspace API, the classification
    backend, the file system, the clock, the regular-expression engine for
    patterns built at run time) answers through an [Env] of oracles indexed
    by the number of external calls made so far, so that two calls of the
    same operation may answer differently. *)

From Stdlib Require Import ZArith Lia Ascii String DecimalString.
From stdpp Require Import base option list gmap strings.

Local Open Scope string_scope.
Local Open Scope list_scope.

(* ===================================================================== *)
(** ** JavaScript helpers *)
(* ===================================================================== *)

Module Js.

(** Outcome of evaluating a statement or call: a value, or a thrown error
    (carrying its message). *)
Inductive Completion (A : Type) : Type :=
| Normal (a : A)
| Throw (e : string).
Arguments Normal {A} a.
Arguments Throw {A} e.

Definition is_normal {A} (c : Completion A) : bool :=
  match c with Normal _ => true | Throw _ => false end.

(** The double-quote and line-feed characters of string literals. *)
Definition dquote : string := String (ascii_of_nat 34) EmptyString.
Definition newline : string := String (ascii_of_nat 10) EmptyString.

(** [String.prototype.toLowerCase], on the letters A-Z. *)
Definition lower_ascii (c : ascii) : ascii :=
  let n := nat_of_ascii c in
  if (65 <=? n)%nat && (n <=? 90)%nat then ascii_of_nat (n + 32) else c.

Fixpoint toLowerCase (s : string) : string :=
  match s with
  | EmptyString => EmptyString
  | String c s' => String (lower_ascii c) (toLowerCase s')
  end.

(** [String.prototype.includes]: [needle] occurs in [hay]. *)
Fixpoint includes (hay needle : string) : bool :=
  String.prefix needle hay
  || match hay with
     | EmptyString => false
     | String _ hay' => includes hay' needle
     end.

(** [Array.prototype.includes] on an array of strings. *)
Definition arr_includes (l : list string) (x : string) : bool :=
  bool_decide (x ∈ l).

(** [Array.prototype.join]. *)
Fixpoint join (sep : string) (l : list string) : string :=
  match l with
  | [] => EmptyString
  | [x] => x
  | x :: l' => x +:+ sep +:+ join sep l'
  end.

(** Template-literal rendering of a non-negative integer. *)
Definition show_nat (n : nat) : string :=
  NilEmpty.string_of_uint (Nat.to_uint n).

(** The values whose truthiness the monitor tests. A [Date] is an object. *)
Inductive Value : Type :=
| Undefined
| Null
| Boolean (b : bool)
| Number (z : Z)
| NaN
| Str (s : string)
| DateObject (time : option Z).   (* [None]: the time value is NaN, an Invalid Date *)

(** ECMAScript [ToBoolean]: every object is truthy, an Invalid Date included. *)
Definition ToBoolean (v : Value) : bool :=
  match v with
  | Undefined | Null | NaN => false
  | Boolean b => b
  | Number z => negb (z =? 0)%Z
  | Str s => negb (String.eqb s EmptyString)
  | DateObject _ => true
  end.

(** The names of the members that every plain object inherits from
    [Object.prototype].  Reading an object at one of them, when it has no
    property of its own under that name, answers the inherited member. *)
Definition inherited_names : list string :=
  [ "constructor"; "__defineGetter__"; "__defineSetter__"; "hasOwnProperty";
    "__lookupGetter__"; "__lookupSetter__"; "isPrototypeOf"; "propertyIsEnumerable";
    "toString"; "valueOf"; "__proto__"; "toLocaleString" ].

(** None of the keys is such a name. *)
Definition own_keys (keys : list string) : bool :=
  forallb (fun k => negb (arr_includes inherited_names k)) keys.

End Js.
Export Js.

(* ===================================================================== *)
(** ** Data of the workspace API and of the configuration *)
(* ===================================================================== *)

(** [user_info], attached to a post by [enrichPostsWithUserInfo]. *)
Record UserInfo := mkUserInfo {
  ui_username : string;
  ui_first_name : string;
  ui_last_name : string
}.

(** [Post] (types.ts), the fields the monitor reads.  The [relevantTopics]
    annotation that the classifier pushes on a post object is written and
    never read; it is left out. *)
Record Post := mkPost {
  post_id : string;
  post_user_id : string;
  post_message : string;
  post_create_at : Z;
  post_user_info : option UserInfo
}.

Record Channel := mkChannel {
  channel_id : string;
  channel_name : string;
  channel_type : string
}.

Record UserProfile := mkUserProfile {
  profile_id : string;
  profile_username : string;
  profile_first_name : string;
  profile_last_name : string
}.

(** [getChannels] answers with an array, or with an object whose [channels]
    property may be missing (or not an array: both are [None]). *)
Inductive ChannelsResponse :=
| ChannelsArray (cs : list Channel)
| ChannelsObject (channels : option (list Channel)).

(** [MonitoringConfig] (config.ts). *)
Record MonitoringConfig := mkMonitoringConfig {
  enabled : bool;
  schedule : string;
  channels : list string;
  topics : list string;
  messageLimit : Z;
  stateFilePath : string;
  processExistingOnFirstRun : bool;
  firstRunLimit : Z
}.

Record LlmConfig := mkLlmConfig {
  apiKey : string;
  model : string;
  maxTokens : Z
}.

(** [AnalysisResult] and [LlmAnalysisResult] (analyzer.ts). *)
Record AnalysisResult := mkAnalysisResult {
  channelId : string;
  channelName : string;
  posts : list Post;
  relevantTopics : list string
}.

Record LlmAnalysisResult := mkLlmAnalysisResult {
  relevantPosts : list Post;
  llm_relevantTopics : list string
}.

(* ===================================================================== *)
(** ** The process: its mutable objects and its environment *)
(* ===================================================================== *)

(** [Record<string, string[]>]: channel id to the array of processed ids. *)
Abbreviation PostsMap := (gmap string (list string)).

(** The object that [state.processedPosts] points to.  [loadState] answers
    [{ ...DEFAULT_STATE }], a shallow copy: its [processedPosts] is the one
    object created when the module was evaluated, not a fresh one. *)
Inductive PostsRef :=
| SharedDefault                (* the object of [DEFAULT_STATE.processedPosts] *)
| Own (m : PostsMap).          (* the object [JSON.parse] built *)

(** [MonitorState]. *)
Record MonitorState := mkMonitorState {
  lastRun : string;
  processedPosts : PostsRef
}.

(** The content of the state file. [JSON.parse] is cast to [MonitorState]
    unchecked; text that parses is taken to have that shape. *)
Inductive StateFile :=
| Absent
| Unreadable                              (* [readFileSync] throws *)
| Unparsable (data : string)              (* [JSON.parse] throws *)
| Serialized (lastRun : string) (processed : PostsMap).

(** Everything outside the process.  The first argument of an oracle is the
    number of external calls made before this one. *)
Record Env := mkEnv {
  clock_toISOString : nat -> string;              (* [new Date().toISOString()] *)
  date_parse : string -> option Z;                (* time value of [new Date(text)] *)
  toLocaleString : Z -> string;                   (* [new Date(t).toLocaleString()] *)
  api_getChannels : nat -> Completion ChannelsResponse;
  api_getPostsForChannel : nat -> string -> Z -> Completion (list Post);
                                                  (* [Object.values(response.posts)] *)
  api_getUserProfile : nat -> string -> Completion UserProfile;
  api_createPost : nat -> string -> string -> Completion unit;
  llm_messages_create : nat -> LlmConfig -> string -> list string -> list Post
                        -> Completion string;     (* text of the first content block *)
  regexp_topic_capture : string -> string -> Completion (option string);
      (* [content.match(new RegExp(`"${topic}"\\s*:\\s*\\[(.*?)\\]`, 'i'))]:
         capture group 1, [None] without a match; the constructor throws on
         a topic that is no valid pattern *)
  fs_dir_exists : nat -> bool;
  fs_mkdirSync : nat -> Completion unit;
  fs_writeFileSync : nat -> Completion unit;
  fs_interrupted : nat -> StateFile -> StateFile;
      (* what a [writeFileSync] that throws leaves of the file it found: the
         file as it was when the call fails before it writes, a truncated
         record when it fails later (the write is made in place) *)
  cron_validate : string -> bool;
  cron_schedule : nat -> Completion unit;
  cron_task_stop : nat -> Completion unit
}.

(** The mutable objects of the process. *)
Record World := mkWorld {
  w_calls : nat;                         (* external calls made so far *)
  w_console : list string;               (* lines written by [console.error] *)
  w_DEFAULT_lastRun : string;            (* [DEFAULT_STATE.lastRun] *)
  w_DEFAULT_posts : PostsMap;            (* the object [DEFAULT_STATE.processedPosts] *)
  w_state : MonitorState;                (* [StateManager.state] *)
  w_file : StateFile;                    (* the file at [stateFilePath] *)
  w_fetches : list (string * Z);         (* [getPostsForChannel] requests, latest first *)
  w_posted : list (string * string);     (* [createPost] requests, latest first *)
  w_task : bool;                         (* [MonitoringScheduler.task !== null] *)
  w_schedule : string;                   (* [MonitoringScheduler.schedule] *)
  w_isRunning : bool;                    (* [MonitoringScheduler.isRunning] *)
  w_callback_runs : nat                  (* ghost: times [this.callback()] was called *)
}.

Definition set_calls (n : nat) (w : World) : World :=
  mkWorld n (w_console w) (w_DEFAULT_lastRun w) (w_DEFAULT_posts w) (w_state w) (w_file w)
          (w_fetches w) (w_posted w) (w_task w) (w_schedule w) (w_isRunning w) (w_callback_runs w).
Definition set_console (c : list string) (w : World) : World :=
  mkWorld (w_calls w) c (w_DEFAULT_lastRun w) (w_DEFAULT_posts w) (w_state w) (w_file w)
          (w_fetches w) (w_posted w) (w_task w) (w_schedule w) (w_isRunning w) (w_callback_runs w).
Definition set_DEFAULT_posts (m : PostsMap) (w : World) : World :=
  mkWorld (w_calls w) (w_console w) (w_DEFAULT_lastRun w) m (w_state w) (w_file w)
          (w_fetches w) (w_posted w) (w_task w) (w_schedule w) (w_isRunning w) (w_callback_runs w).
Definition set_state (s : MonitorState) (w : World) : World :=
  mkWorld (w_calls w) (w_console w) (w_DEFAULT_lastRun w) (w_DEFAULT_posts w) s (w_file w)
          (w_fetches w) (w_posted w) (w_task w) (w_schedule w) (w_isRunning w) (w_callback_runs w).
Definition set_file (f : StateFile) (w : World) : World :=
  mkWorld (w_calls w) (w_console w) (w_DEFAULT_lastRun w) (w_DEFAULT_posts w) (w_state w) f
          (w_fetches w) (w_posted w) (w_task w) (w_schedule w) (w_isRunning w) (w_callback_runs w).
Definition set_fetches (l : list (string * Z)) (w : World) : World :=
  mkWorld (w_calls w) (w_console w) (w_DEFAULT_lastRun w) (w_DEFAULT_posts w) (w_state w) (w_file w)
          l (w_posted w) (w_task w) (w_schedule w) (w_isRunning w) (w_callback_runs w).
Definition set_posted (l : list (string * string)) (w : World) : World :=
  mkWorld (w_calls w) (w_console w) (w_DEFAULT_lastRun w) (w_DEFAULT_posts w) (w_state w) (w_file w)
          (w_fetches w) l (w_task w) (w_schedule w) (w_isRunning w) (w_callback_runs w).
Definition set_task (b : bool) (w : World) : World :=
  mkWorld (w_calls w) (w_console w) (w_DEFAULT_lastRun w) (w_DEFAULT_posts w) (w_state w) (w_file w)
          (w_fetches w) (w_posted w) b (w_schedule w) (w_isRunning w) (w_callback_runs w).
Definition set_schedule (s : string) (w : World) : World :=
  mkWorld (w_calls w) (w_console w) (w_DEFAULT_lastRun w) (w_DEFAULT_posts w) (w_state w) (w_file w)
          (w_fetches w) (w_posted w) (w_task w) s (w_isRunning w) (w_callback_runs w).
Definition set_isRunning (b : bool) (w : World) : World :=
  mkWorld (w_calls w) (w_console w) (w_DEFAULT_lastRun w) (w_DEFAULT_posts w) (w_state w) (w_file w)
          (w_fetches w) (w_posted w) (w_task w) (w_schedule w) b (w_callback_runs w).
Definition set_callback_runs (n : nat) (w : World) : World :=
  mkWorld (w_calls w) (w_console w) (w_DEFAULT_lastRun w) (w_DEFAULT_posts w) (w_state w) (w_file w)
          (w_fetches w) (w_posted w) (w_task w) (w_schedule w) (w_isRunning w) n.

(* ===================================================================== *)
(** ** State and exceptions *)
(* ===================================================================== *)

Module Eff.

(** A computation reads and writes the world and completes normally or
    abruptly; the world reached is kept in both cases. *)
Definition M (A : Type) : Type := World -> Completion A * World.

Definition ret {A} (a : A) : M A := fun w => (Normal a, w).

Definition throw {A} (e : string) : M A := fun w => (Throw e, w).

Definition bind {A B} (m : M A) (k : A -> M B) : M B :=
  fun w => match m w with
           | (Normal a, w') => k a w'
           | (Throw e, w') => (Throw e, w')
           end.

(** [try { body } catch (error) { handler }]. *)
Definition try_catch {A} (body : M A) (handler : string -> M A) : M A :=
  fun w => match body w with
           | (Normal a, w') => (Normal a, w')
           | (Throw e, w') => handler e w'
           end.

(** [try { body } finally { fin }], for a [fin] that completes normally. *)
Definition try_finally {A} (body : M A) (fin : World -> World) : M A :=
  fun w => let '(r, w') := body w in (r, fin w').

(** Lift the completion of a pure expression. *)
Definition lift {A} (c : Completion A) : M A := fun w => (c, w).

Definition get {A} (f : World -> A) : M A := fun w => (Normal (f w), w).

Definition modify (f : World -> World) : M unit := fun w => (Normal tt, f w).

(** [console.error(line)]. *)
Definition console_error (line : string) : M unit :=
  modify (fun w => set_console (w_console w ++ [line]) w).

(** An external call: ask the oracle at the current call number. *)
Definition external {A} (oracle : nat -> Completion A) : M A :=
  fun w => (oracle (w_calls w), set_calls (S (w_calls w)) w).

(** [for (const x of l) { body x }]. *)
Fixpoint for_of {A} (l : list A) (body : A -> M unit) : M unit :=
  match l with
  | [] => ret tt
  | x :: l' => bind (body x) (fun _ => for_of l' body)
  end.

End Eff.
Export Eff.

Notation "x <- c1 ;; c2" := (bind c1 (fun x => c2))
  (at level 100, c1 at next level, right associativity).
Notation "c1 ;;; c2" := (bind c1 (fun _ => c2))
  (at level 100, right associativity).

(* ===================================================================== *)
(** ** [StateManager]: the persisted ledger of processed posts *)
(* ===================================================================== *)

Module StateManager.

(** [const DEFAULT_STATE = { lastRun: new Date().toISOString(), processedPosts: {} }],
    evaluated once, when the module is loaded. *)
Definition module_init (env : Env) : M unit :=
  now <- external (fun n => Normal (clock_toISOString env n));;
  modify (fun w => mkWorld (w_calls w) (w_console w) now ∅ (w_state w) (w_file w)
                           (w_fetches w) (w_posted w) (w_task w) (w_schedule w)
                           (w_isRunning w) (w_callback_runs w)).

(** [{ ...DEFAULT_STATE }]: [lastRun] is copied, [processedPosts] is shared. *)
Definition DEFAULT_STATE_copy (w : World) : MonitorState :=
  mkMonitorState (w_DEFAULT_lastRun w) SharedDefault.

(** The dictionary [this.state.processedPosts] denotes, and writing to it. *)
Definition posts_of (w : World) : PostsMap :=
  match processedPosts (w_state w) with
  | SharedDefault => w_DEFAULT_posts w
  | Own m => m
  end.

Definition write_posts (m : PostsMap) (w : World) : World :=
  match processedPosts (w_state w) with
  | SharedDefault => set_DEFAULT_posts m w
  | Own _ => set_state (mkMonitorState (lastRun (w_state w)) (Own m)) w
  end.

Definition existsSync (f : StateFile) : bool :=
  match f with Absent => false | _ => true end.

Definition readFileSync (f : StateFile) : Completion StateFile :=
  match f with
  | Absent => Throw "ENOENT: no such file or directory"
  | Unreadable => Throw "EACCES: permission denied"
  | _ => Normal f
  end.

(** [JSON.parse(data) as MonitorState], of a text of the declared shape
    (see [Unchecked] below for the others). *)
Definition JSON_parse (data : StateFile) : Completion MonitorState :=
  match data with
  | Serialized lr m => Normal (mkMonitorState lr (Own m))
  | _ => Throw "SyntaxError: Unexpected token in JSON"
  end.

(** [loadState]. *)
Definition loadState (path : string) : M MonitorState :=
  loaded <- try_catch
              (f <- get w_file;;
               if existsSync f then
                 data <- lift (readFileSync f);;
                 st <- lift (JSON_parse data);;
                 ret (Some st)
               else ret None)
              (fun error =>
                 console_error ("Error loading state from " +:+ path +:+ ": " +:+ error);;;
                 ret None);;
  match loaded with
  | Some st => ret st
  | None => get DEFAULT_STATE_copy
  end.

(** [constructor(stateFilePath)]. *)
Definition new (path : string) : M unit :=
  st <- loadState path;;
  modify (set_state st).

(** [fs.writeFileSync(this.stateFilePath, ...)]: the write is made in
    place, so a call that throws leaves what the environment says of the
    file it found. *)
Definition writeFileSync (env : Env) : M unit :=
  fun w =>
    match fs_writeFileSync env (w_calls w) with
    | Normal done => (Normal done, set_calls (S (w_calls w)) w)
    | Throw error =>
        (Throw error,
         set_file (fs_interrupted env (w_calls w) (w_file w)) (set_calls (S (w_calls w)) w))
    end.

(** [saveState]. *)
Definition saveState (env : Env) (path : string) : M unit :=
  try_catch
    (dir_exists <- external (fun n => Normal (fs_dir_exists env n));;
     (if negb dir_exists then external (fs_mkdirSync env) else ret tt);;;
     now <- external (fun n => Normal (clock_toISOString env n));;
     modify (fun w => set_state (mkMonitorState now (processedPosts (w_state w))) w);;;
     writeFileSync env;;;
     modify (fun w => set_file (Serialized (lastRun (w_state w)) (posts_of w)) w))
    (fun error =>
       console_error ("Error saving state to " +:+ path +:+ ": " +:+ error)).

(** [getProcessedPostIds]: [this.state.processedPosts[channelId] || []]. *)
Definition getProcessedPostIds (channelId : string) (w : World) : list string :=
  default [] (posts_of w !! channelId).

(** [isPostProcessed], at a channel id that reads no inherited member
    (see [AnyKey] below for the others). *)
Definition isPostProcessed (channelId postId : string) (w : World) : bool :=
  let channelPosts := default [] (posts_of w !! channelId) in
  arr_includes channelPosts postId.

(** [this.state.processedPosts[channelId].push(postId)]: a [TypeError] when
    the channel has no array. *)
Definition push_processed (channelId postId : string) : M unit :=
  fun w => match posts_of w !! channelId with
           | Some l => (Normal tt, write_posts (<[channelId := l ++ [postId]]> (posts_of w)) w)
           | None => (Throw "TypeError: Cannot read properties of undefined (reading 'push')", w)
           end.

(** [markPostProcessed], at a channel id that reads no inherited member. *)
Definition markPostProcessed (channelId postId : string) : M unit :=
  known <- get (fun w => posts_of w !! channelId);;
  (if known is None
   then modify (fun w => write_posts (<[channelId := []]> (posts_of w)) w)
   else ret tt);;;
  processed <- get (isPostProcessed channelId postId);;
  if negb processed then push_processed channelId postId else ret tt.

(** [markPostsProcessed]. *)
Definition markPostsProcessed (channelId : string) (postIds : list string) : M unit :=
  for_of postIds (markPostProcessed channelId).

(** [getLastRun]: [new Date(this.state.lastRun)], a [Date] object. *)
Definition getLastRun (env : Env) (w : World) : Value :=
  DateObject (date_parse env (lastRun (w_state w))).

(** [getAllProcessedPosts]. *)
Definition getAllProcessedPosts (w : World) : PostsMap := posts_of w.

(** *** The two calls at any channel id

    [this.state.processedPosts] is an ordinary object.  A channel id that is
    no key of it but names a member of [Object.prototype] reads that member:
    a function or an object, which is neither falsy nor an array.
    [isPostProcessed] and [markPostProcessed] above are these calls at the
    channel ids that name no such member. *)
Module AnyKey.

Inductive Member :=
| Ids (channelPosts : list string)      (* an own key, with its array *)
| Inherited                             (* a member of [Object.prototype] *)
| Missing.

(** [this.state.processedPosts[channelId]]. *)
Definition member (channelId : string) (w : World) : Member :=
  match posts_of w !! channelId with
  | Some channelPosts => Ids channelPosts
  | None => if arr_includes inherited_names channelId then Inherited else Missing
  end.

(** [isPostProcessed]: [(processedPosts[channelId] || []).includes(postId)]. *)
Definition isPostProcessed (channelId postId : string) : M bool :=
  found <- get (member channelId);;
  match found with
  | Ids channelPosts => ret (arr_includes channelPosts postId)
  | Missing => ret (arr_includes [] postId)
  | Inherited => throw "TypeError: channelPosts.includes is not a function"
  end.

(** [this.state.processedPosts[channelId].push(postId)]. *)
Definition push_processed (channelId postId : string) : M unit :=
  found <- get (member channelId);;
  match found with
  | Ids channelPosts =>
      modify (fun w => write_posts (<[channelId := channelPosts ++ [postId]]> (posts_of w)) w)
  | Inherited => throw "TypeError: this.state.processedPosts[channelId].push is not a function"
  | Missing => throw "TypeError: Cannot read properties of undefined (reading 'push')"
  end.

(** [markPostProcessed]. *)
Definition markPostProcessed (channelId postId : string) : M unit :=
  found <- get (member channelId);;
  (if found is Missing
   then modify (fun w => write_posts (<[channelId := []]> (posts_of w)) w)
   else ret tt);;;
  processed <- isPostProcessed channelId postId;;
  if negb processed then push_processed channelId postId else ret tt.

(** [markPostsProcessed]. *)
Definition markPostsProcessed (channelId : string) (postIds : list string) : M unit :=
  for_of postIds (markPostProcessed channelId).

End AnyKey.

(** *** The constructor without the cast

    [JSON.parse(data) as MonitorState] checks nothing.  A record whose text
    is JSON of another shape becomes [this.state] as it is, and the calls
    then read [processedPosts] of that value. *)
Module Unchecked.

(** The JSON values without a dictionary [processedPosts]. *)
Inductive OtherValue :=
| NullValue                   (* the text [null] *)
| NoProcessedPosts.           (* a value without that member: [{}], [42], [[]] *)

(** A backing record: as [StateFile] has it, or one whose text parses to
    a value of another shape. *)
Inductive Record :=
| Declared (file : StateFile)
| OtherShape (value : OtherValue).

(** [this.state]: a [MonitorState], held by the world, or another value. *)
Inductive This :=
| Typed
| Untyped (value : OtherValue).

Definition existsSync (record : Record) : bool :=
  match record with
  | Declared file => StateManager.existsSync file
  | OtherShape _ => true
  end.

Definition readFileSync (record : Record) : Completion Record :=
  match record with
  | Declared file =>
      match StateManager.readFileSync file with
      | Normal data => Normal (Declared data)
      | Throw error => Throw error
      end
  | OtherShape value => Normal record
  end.

Definition JSON_parse (data : Record) : Completion (MonitorState + OtherValue) :=
  match data with
  | Declared file =>
      match StateManager.JSON_parse file with
      | Normal st => Normal (inl st)
      | Throw error => Throw error
      end
  | OtherShape value => Normal (inr value)
  end.

(** [loadState], of the record [record]. *)
Definition loadState (path : string) (record : Record) : M (MonitorState + OtherValue) :=
  loaded <- try_catch
              (if existsSync record then
                 data <- lift (readFileSync record);;
                 st <- lift (JSON_parse data);;
                 ret (Some st)
               else ret None)
              (fun error =>
                 console_error ("Error loading state from " +:+ path +:+ ": " +:+ error);;;
                 ret None);;
  match loaded with
  | Some st => ret st
  | None => st <- get DEFAULT_STATE_copy;; ret (inl st)
  end.

(** [constructor(stateFilePath)]. *)
Definition new (path : string) (record : Record) : M This :=
  st <- loadState path record;;
  match st with
  | inl st => modify (set_state st);;; ret Typed
  | inr value => ret (Untyped value)
  end.

(** [this.state.processedPosts[channelId]] where [this.state] is another
    value: reading a member of [null] or of [undefined]. *)
Definition read_member {A} (value : OtherValue) (channelId : string) : M A :=
  match value with
  | NullValue => throw "TypeError: Cannot read properties of null (reading 'processedPosts')"
  | NoProcessedPosts =>
      throw ("TypeError: Cannot read properties of undefined (reading '"
             +:+ channelId +:+ "')")
  end.

(** [isPostProcessed]. *)
Definition isPostProcessed (this : This) (channelId postId : string) : M bool :=
  match this with
  | Typed => AnyKey.isPostProcessed channelId postId
  | Untyped value => read_member value channelId
  end.

(** [markPostProcessed]. *)
Definition markPostProcessed (this : This) (channelId postId : string) : M unit :=
  match this with
  | Typed => AnyKey.markPostProcessed channelId postId
  | Untyped value => read_member value channelId
  end.

End Unchecked.

End StateManager.

(* ===================================================================== *)
(** ** [MonitoringScheduler] (scheduler.ts) *)
(* ===================================================================== *)

Module MonitoringScheduler.

(** [await this.callback()]; the ghost counter records the call. *)
Definition invoke (callback : M unit) : M unit :=
  modify (fun w => set_callback_runs (S (w_callback_runs w)) w);;;
  callback.

(** The function registered with [cron.schedule]: what one tick runs. *)
Definition scheduled_tick (env : Env) (callback : M unit) : M unit :=
  running <- get w_isRunning;;
  if running then
    console_error "Previous monitoring task is still running, skipping this run"
  else
    modify (set_isRunning true);;;
    now <- external (fun n => Normal (clock_toISOString env n));;
    console_error ("Running scheduled monitoring task at " +:+ now);;;
    try_finally
      (try_catch
         (invoke callback;;;
          console_error "Scheduled monitoring task completed successfully")
         (fun error => console_error ("Error in scheduled monitoring task: " +:+ error)))
      (set_isRunning false).

(** [start]. *)
Definition start (env : Env) : M bool :=
  task <- get w_task;;
  if task then
    console_error "Scheduler is already running";;;
    ret false
  else
    try_catch
      (sched <- get w_schedule;;
       if negb (cron_validate env sched) then
         console_error ("Invalid cron schedule: " +:+ sched);;;
         ret false
       else
         external (cron_schedule env);;;
         modify (set_task true);;;
         console_error ("Monitoring scheduler started with schedule: " +:+ sched);;;
         ret true)
      (fun error =>
         console_error ("Error starting scheduler: " +:+ error);;;
         ret false).

(** [stop]. *)
Definition stop (env : Env) : M bool :=
  task <- get w_task;;
  if negb task then
    console_error "Scheduler is not running";;;
    ret false
  else
    try_catch
      (external (cron_task_stop env);;;
       modify (set_task false);;;
       console_error "Monitoring scheduler stopped";;;
       ret true)
      (fun error =>
         console_error ("Error stopping scheduler: " +:+ error);;;
         ret false).

(** [isSchedulerRunning] and [isTaskRunning]. *)
Definition isSchedulerRunning (w : World) : bool := w_task w.
Definition isTaskRunning (w : World) : bool := w_isRunning w.

(** [runNow]. *)
Definition runNow (callback : M unit) : M unit :=
  running <- get w_isRunning;;
  if running then
    console_error "Previous monitoring task is still running, cannot run now"
  else
    modify (set_isRunning true);;;
    console_error "Running monitoring process immediately...";;;
    try_finally
      (try_catch
         (invoke callback;;;
          console_error "Immediate monitoring process completed.")
         (fun error => console_error ("Error in immediate monitoring process: " +:+ error)))
      (set_isRunning false).

(** [updateSchedule]. *)
Definition updateSchedule (env : Env) (sched : string) : M bool :=
  if negb (cron_validate env sched) then
    console_error ("Invalid cron schedule: " +:+ sched);;;
    ret false
  else
    modify (set_schedule sched);;;
    task <- get w_task;;
    if task then stop env;;; start env else ret true.

End MonitoringScheduler.

(* ===================================================================== *)
(** ** Plain objects and sets with insertion order *)
(* ===================================================================== *)

Module Obj.

(** A [Record<string, string[]>] built by assignments, kept as its own
    properties in insertion order (no key twice). *)
Definition t := list (string * list string).

Fixpoint lookup (o : t) (k : string) : option (list string) :=
  match o with
  | [] => None
  | (k', v) :: o' => if String.eqb k' k then Some v else lookup o' k
  end.

(** [o[k] = v]: an existing property keeps its place. *)
Fixpoint assign (o : t) (k : string) (v : list string) : t :=
  match o with
  | [] => [(k, v)]
  | (k', v') :: o' => if String.eqb k' k then (k', v) :: o' else (k', v') :: assign o' k v
  end.

(** [if (!o[k]) o[k] = []; o[k].push(x)], for a key that names no
    inherited member. *)
Definition push (o : t) (k : string) (x : string) : t :=
  match lookup o k with
  | None => assign o k [x]
  | Some l => assign o k (l ++ [x])
  end.

(** A canonical array index: decimal digits without a leading zero (or the
    single digit zero), below 2^32 - 1. *)
Definition is_digit (c : ascii) : bool :=
  let n := nat_of_ascii c in (48 <=? n)%nat && (n <=? 57)%nat.

Fixpoint digits_value (s : string) (acc : N) : option N :=
  match s with
  | EmptyString => Some acc
  | String c s' =>
      if is_digit c
      then digits_value s' (acc * 10 + N.of_nat (nat_of_ascii c - 48))%N
      else None
  end.

Definition array_index (k : string) : option N :=
  match k with
  | EmptyString => None
  | String c rest =>
      if (Ascii.eqb c "0"%char) && negb (String.eqb rest EmptyString) then None
      else match digits_value k 0%N with
           | Some n => if (n <? 4294967295)%N then Some n else None
           | None => None
           end
  end.

Fixpoint insert_index (e : N * (string * list string)) (l : list (N * (string * list string)))
  : list (N * (string * list string)) :=
  match l with
  | [] => [e]
  | e' :: l' => if (fst e <=? fst e')%N then e :: l else e' :: insert_index e l'
  end.

Definition index_entries (o : t) : list (N * (string * list string)) :=
  omap (fun kv => match array_index (fst kv) with
                  | Some n => Some (n, kv)
                  | None => None
                  end) o.

(** [Object.entries]: array-index keys first, ascending, then the other
    keys in insertion order. *)
Definition entries (o : t) : list (string * list string) :=
  map snd (foldr insert_index [] (index_entries o))
  ++ filter (fun kv => array_index (fst kv) = None) o.

(** [Object.keys(o).length === 0]. *)
Definition is_empty (o : t) : bool :=
  match o with [] => true | _ => false end.

(** [Set.prototype.add] on a set kept in insertion order. *)
Definition set_add (s : list string) (x : string) : list string :=
  if arr_includes s x then s else s ++ [x].

End Obj.

(* ===================================================================== *)
(** ** [MessageAnalyzer] (analyzer.ts) *)
(* ===================================================================== *)

Module MessageAnalyzer.

(** The fields of the class besides [client], which is the [Env], and
    [stateManager], which lives in the [World] and is named by its path. *)
Record t := mk {
  stateManager_path : string;
  an_topics : list string;
  an_messageLimit : Z;
  llmConfig : option LlmConfig
}.

(** *** The lexical pattern of a message id: [/"([a-z0-9]{26})"/g] *)

Definition is_id_char (c : ascii) : bool :=
  let n := nat_of_ascii c in
  ((97 <=? n)%nat && (n <=? 122)%nat) || ((48 <=? n)%nat && (n <=? 57)%nat).

Fixpoint all_id_chars (s : string) : bool :=
  match s with
  | EmptyString => true
  | String c s' => is_id_char c && all_id_chars s'
  end.

(** The pattern matches at the start of [s]: the captured id. *)
Definition match_id_at (s : string) : option string :=
  match s with
  | String q rest =>
      let body := String.substring 0 26 rest in
      if Ascii.eqb q (ascii_of_nat 34)
         && (String.length body =? 26)%nat
         && all_id_chars body
         && String.eqb (String.substring 26 1 rest) dquote
      then Some body else None
  | EmptyString => None
  end.

(** Scan left to right; after a match the search resumes behind it ([skip]
    counts the characters of the last match still to pass). *)
Fixpoint scan_ids (skip : nat) (s : string) : list string :=
  match s with
  | EmptyString => []
  | String _ s' =>
      match skip with
      | S k => scan_ids k s'
      | O => match match_id_at s with
             | Some i => i :: scan_ids 27 s'
             | None => scan_ids 0 s'
             end
      end
  end.

(** [Array.from(text.matchAll(/"([a-z0-9]{26})"/g)).map(m => m[1])]. *)
Definition matchAll_ids (text : string) : list string := scan_ids 0 text.

(** *** [fallbackAnalysis] *)

(** The inner loop: the first topic whose lower-cased label occurs in the
    lower-cased message. *)
Definition first_topic_in (message : string) (topics : list string) : option string :=
  List.find (fun topic => includes (toLowerCase message) (toLowerCase topic)) topics.

Definition fallback_step (topics : list string)
    (acc : list Post * list string) (post : Post) : list Post * list string :=
  match first_topic_in (post_message post) topics with
  | Some topic => (fst acc ++ [post], Obj.set_add (snd acc) topic)
  | None => acc
  end.

Definition fallbackAnalysis (posts : list Post) (topics : list string) : LlmAnalysisResult :=
  let '(relevant, found) := fold_left (fallback_step topics) posts ([], []) in
  mkLlmAnalysisResult relevant found.

Definition call_fallbackAnalysis (posts : list Post) (topics : list string)
  : M LlmAnalysisResult :=
  console_error "Using fallback analysis with simple keyword matching";;;
  ret (fallbackAnalysis posts topics).

(** *** Reading the reply of the classification backend *)

(** One round of the loop over the topics: the ids listed for [topic]. *)
Definition topic_step (env : Env) (content : string) (acc : Completion Obj.t)
    (topic : string) : Completion Obj.t :=
  match acc with
  | Throw e => Throw e
  | Normal result_topics =>
      match regexp_topic_capture env topic content with
      | Throw e => Throw e
      | Normal None => Normal result_topics
      | Normal (Some capture) =>
          if String.eqb capture EmptyString then Normal result_topics
          else
            let topicPostIds := matchAll_ids capture in
            if (0 <? length topicPostIds)%nat
            then Normal (Obj.assign result_topics topic topicPostIds)
            else Normal result_topics
      end
  end.

(** [result.topics] after the loop "Try to extract topic-specific post IDs". *)
Definition topic_pass (env : Env) (content : string) (topics : list string)
  : Completion Obj.t :=
  fold_left (topic_step env content) topics (Normal []).

(** The loop "if no topic-specific matches, use all post IDs for all topics". *)
Definition all_topics_step (allPostIds topics : list string) (acc : Obj.t) (post : Post)
  : Obj.t :=
  if arr_includes allPostIds (post_id post)
  then fold_left (fun o topic => Obj.push o topic (post_id post)) topics acc
  else acc.

Definition all_topics_pass (allPostIds : list string) (posts : list Post)
    (topics : list string) (result_topics : Obj.t) : Obj.t :=
  fold_left (all_topics_step allPostIds topics) posts result_topics.

(** "Extract relevant posts and topics": the two sets, from the entries with
    a non-empty array. *)
Definition collect_step (acc : list string * list string) (entry : string * list string)
  : list string * list string :=
  let '(topic, postIds) := entry in
  if (0 <? length postIds)%nat
  then (fold_left Obj.set_add postIds (fst acc), Obj.set_add (snd acc) topic)
  else acc.

Definition collect (result_topics : Obj.t) : list string * list string :=
  fold_left collect_step (Obj.entries result_topics) ([], []).

(** Lines 258-303: the tie-break, then the result, from the ids found in
    the reply and from [result.topics] as the loop over the topics left it. *)
Definition finish_reply (allPostIds : list string) (specific : Obj.t) (posts : list Post)
    (topics : list string) : LlmAnalysisResult :=
  let result_topics :=
    if Obj.is_empty specific && (0 <? length allPostIds)%nat
    then all_topics_pass allPostIds posts topics specific
    else specific in
  let '(relevantPostIds, relevantTopics) := collect result_topics in
  mkLlmAnalysisResult
    (filter (fun post => arr_includes relevantPostIds (post_id post) = true) posts)
    relevantTopics.

(** From the text of the reply to the result, lines 228-303. *)
Definition read_reply (env : Env) (content : string) (posts : list Post)
    (topics : list string) : Completion LlmAnalysisResult :=
  match topic_pass env content topics with
  | Throw e => Throw e
  | Normal specific => Normal (finish_reply (matchAll_ids content) specific posts topics)
  end.

(** [analyzePostsWithLLM].  Building the prompt, the request and reading
    the first content block are the oracle [llm_messages_create]; a failure
    before the request is a failure of the request.  A console line that
    prints an intermediate value keeps its fixed text. *)
Definition analyzePostsWithLLM (env : Env) (self : t) (posts : list Post)
    (topics : list string) (channelName : string) : M LlmAnalysisResult :=
  match llmConfig self with
  | None =>
      console_error "No LLM config provided or no posts to analyze, using fallback analysis";;;
      call_fallbackAnalysis posts topics
  | Some cfg =>
      if (length posts =? 0)%nat then
        console_error "No LLM config provided or no posts to analyze, using fallback analysis";;;
        call_fallbackAnalysis posts topics
      else
        try_catch
          (console_error "Sending request to Anthropic API...";;;
           content <- external (fun n => llm_messages_create env n cfg channelName topics posts);;
           console_error "Received response from Anthropic API";;;
           console_error "Extracted JSON:";;;
           console_error "Manually extracting information from response";;;
           let allPostIds := matchAll_ids content in
           console_error "Found post IDs in response:";;;
           specific <- lift (topic_pass env content topics);;
           let result := finish_reply allPostIds specific posts topics in
           console_error "Manually extracted result:";;;
           console_error ("Found " +:+ show_nat (length (relevantPosts result))
                          +:+ " relevant posts for topics: "
                          +:+ join ", " (llm_relevantTopics result));;;
           ret result)
          (fun error =>
             console_error ("Error calling Anthropic API: " +:+ error);;;
             console_error "Falling back to simple keyword matching";;;
             call_fallbackAnalysis posts topics)
  end.

(** *** [enrichPostsWithUserInfo] *)

Definition with_user_info (post : Post) (profile : UserProfile) : Post :=
  mkPost (post_id post) (post_user_id post) (post_message post) (post_create_at post)
         (Some (mkUserInfo (profile_username profile) (profile_first_name profile)
                           (profile_last_name profile))).

Fixpoint enrich_loop (env : Env) (userCache : gmap string UserProfile) (posts : list Post)
  : M (list Post) :=
  match posts with
  | [] => ret []
  | post :: rest =>
      fetched <- try_catch
                   (profile <- match userCache !! post_user_id post with
                               | Some profile => ret profile
                               | None => external (fun n => api_getUserProfile env n
                                                              (post_user_id post))
                               end;;
                    ret (Some profile))
                   (fun error =>
                      console_error ("Error fetching user info for user "
                                     +:+ post_user_id post +:+ ": " +:+ error);;;
                      ret None);;
      match fetched with
      | Some profile =>
          rest' <- enrich_loop env (<[post_user_id post := profile]> userCache) rest;;
          ret (with_user_info post profile :: rest')
      | None =>
          rest' <- enrich_loop env userCache rest;;
          ret (post :: rest')
      end
  end.

Definition enrichPostsWithUserInfo (env : Env) (posts : list Post) : M (list Post) :=
  enrich_loop env ∅ posts.

(** *** [analyzeChannel] *)

(** [Array.isArray(r) ? r : (r.channels || [])]. *)
Definition channels_of (r : ChannelsResponse) : list Channel :=
  match r with
  | ChannelsArray cs => cs
  | ChannelsObject (Some cs) => cs
  | ChannelsObject None => []
  end.

(** [firstRun && firstRunLimit ? firstRunLimit : this.messageLimit]. *)
Definition fetch_limit (self : t) (firstRun : bool) (firstRunLimit : option Z) : Z :=
  match firstRunLimit with
  | Some n => if ToBoolean (Boolean firstRun) && ToBoolean (Number n)
              then n else an_messageLimit self
  | None => an_messageLimit self
  end.

(** [this.client.getPostsForChannel(channel.id, limit)]; the request is recorded. *)
Definition getPostsForChannel (env : Env) (channel : string) (limit : Z) : M (list Post) :=
  modify (fun w => set_fetches ((channel, limit) :: w_fetches w) w);;;
  external (fun n => api_getPostsForChannel env n channel limit).

(** The posts of the reply that are not yet processed for the channel. *)
Definition unprocessed (processedPostIds : list string) (fetched : list Post) : list Post :=
  filter (fun post => negb (arr_includes processedPostIds (post_id post)) = true) fetched.

(** Lines 49-82 of [analyzeChannel]: resolve the channel, fetch, and drop
    the processed posts.  [None] is one of the early [return null]. *)
Definition select_candidates (env : Env) (self : t) (channelName : string)
    (firstRun : bool) (firstRunLimit : option Z) : M (option (Channel * list Post)) :=
  channelsResponse <- external (api_getChannels env);;
  let channels := channels_of channelsResponse in
  if (length channels =? 0)%nat then
    console_error "No channels found in response";;;
    ret None
  else
    match List.find (fun c => String.eqb (channel_name c) channelName) channels with
    | None =>
        console_error ("Channel not found: " +:+ channelName);;;
        ret None
    | Some channel =>
        let limit := fetch_limit self firstRun firstRunLimit in
        fetched <- getPostsForChannel env (channel_id channel) limit;;
        processedPostIds <- get (StateManager.getProcessedPostIds (channel_id channel));;
        let unprocessedPosts := unprocessed processedPostIds fetched in
        if (length unprocessedPosts =? 0)%nat then
          console_error ("No new posts to analyze in channel: " +:+ channelName);;;
          ret None
        else ret (Some (channel, unprocessedPosts))
    end.

(** Lines 84-112: classify the candidates, mark every one of them, save. *)
Definition process_candidates (env : Env) (self : t) (channelName : string)
    (channel : Channel) (unprocessedPosts : list Post) : M (option AnalysisResult) :=
  enrichedPosts <- enrichPostsWithUserInfo env unprocessedPosts;;
  analysisResult <- analyzePostsWithLLM env self enrichedPosts (an_topics self) channelName;;
  for_of unprocessedPosts
    (fun post => StateManager.markPostProcessed (channel_id channel) (post_id post));;;
  StateManager.saveState env (stateManager_path self);;;
  if (length (relevantPosts analysisResult) =? 0)%nat then
    console_error ("No relevant posts found in channel: " +:+ channelName);;;
    ret None
  else
    ret (Some (mkAnalysisResult (channel_id channel) (channel_name channel)
                 (relevantPosts analysisResult)
                 (llm_relevantTopics analysisResult))).

(** [analyzeChannel]. *)
Definition analyzeChannel (env : Env) (self : t) (channelName : string)
    (firstRun : bool) (firstRunLimit : option Z) : M (option AnalysisResult) :=
  try_catch
    (console_error ("Analyzing channel: " +:+ channelName);;;
     selected <- select_candidates env self channelName firstRun firstRunLimit;;
     match selected with
     | None => ret None
     | Some (channel, unprocessedPosts) =>
         process_candidates env self channelName channel unprocessedPosts
     end)
    (fun error =>
       console_error ("Error analyzing channel " +:+ channelName +:+ ": " +:+ error);;;
       ret None).

End MessageAnalyzer.

(* ===================================================================== *)
(** ** The keyword classifier of the earlier [MessageAnalyzer] *)
(* ===================================================================== *)

(** The earlier revision of the analyzer classifies post by post with
    [findRelevantTopics], which is [analyzeWithLLM]: containment of the
    label, a dictionary of related terms, and two co-occurrence checks for
    the built-in topic. *)
Module KeywordAnalyzer.

(** [topicDictionary], by its own properties. *)
Definition topicDictionary (key : string) : option (list string) :=
  if String.eqb key "table tennis" then
    Some [ "ping pong"; "paddle"; "racket"; "ball"; "net"; "table";
           "butterfly"; "stiga"; "donic"; "yasaka"; "tibhar"; "joola";
           "rubbers"; "blade"; "backhand"; "forehand"; "spin"; "serve";
           "timo boll"; "ma long"; "zhang jike"; "wang liqin"; "liu shiwen";
           "dignics"; "tenergy"; "tournament"; "championship"; "ittf" ]
  else None.

(** The body of the loop over the topics: what one topic pushes. *)
Definition topic_matches (lowerMessage topic : string) : list string :=
  if includes lowerMessage (toLowerCase topic) then [topic]   (* direct match, [continue] *)
  else
    let relatedTerms := default [] (topicDictionary (toLowerCase topic)) in
    let by_term :=
      if existsb (fun term => includes lowerMessage (toLowerCase term)) relatedTerms
      then [topic] else [] in
    let semantic :=
      if String.eqb (toLowerCase topic) "table tennis" then
        (if (includes lowerMessage "rubber" || includes lowerMessage "blade")
            && (includes lowerMessage "butterfly" || includes lowerMessage "stiga"
                || includes lowerMessage "donic" || includes lowerMessage "yasaka"
                || includes lowerMessage "tibhar" || includes lowerMessage "joola")
         then [topic] else [])
        ++
        (if includes lowerMessage "player" || includes lowerMessage "championship"
            || includes lowerMessage "tournament" || includes lowerMessage "match"
            || includes lowerMessage "game"
         then [topic] else [])
      else [] in
    by_term ++ semantic.

(** [[...new Set(matchedTopics)]]. *)
Definition unique (l : list string) : list string :=
  fold_left Obj.set_add l [].

(** [analyzeWithLLM]. *)
Definition analyzeWithLLM (message : string) (topics : list string) : list string :=
  let lowerMessage := toLowerCase message in
  unique (flat_map (topic_matches lowerMessage) topics).

(** [findRelevantTopics]. *)
Definition findRelevantTopics (topics : list string) (message : string) : list string :=
  analyzeWithLLM message topics.

End KeywordAnalyzer.

(* ===================================================================== *)
(** ** [TopicMonitor] *)
(* ===================================================================== *)

Module TopicMonitor.

(** The monitor after its constructor and [start()]: [sysadminUserId] and
    [dmChannelId] hold what the start-up resolution found ([None] is
    [null]).  The [scheduler] and the [stateManager] live in the [World]. *)
Record t := mk {
  config : MonitoringConfig;
  analyzer : MessageAnalyzer.t;
  sysadminUserId : option string;
  dmChannelId : option string
}.

(** [constructor(client, config)]: the analyzer gets four arguments, its
    [llmConfig] stays undefined. *)
Definition new (config : MonitoringConfig) : M t :=
  StateManager.new (stateFilePath config);;;
  modify (fun w => set_isRunning false (set_task false (set_schedule (schedule config) w)));;;
  ret (mk config
          (MessageAnalyzer.mk (stateFilePath config) (topics config) (messageLimit config) None)
          None None).

(** Truthiness of a [string | null] field. *)
Definition is_set (field : option string) : bool :=
  match field with
  | Some s => ToBoolean (Str s)
  | None => ToBoolean Null
  end.

(** [profile.username || fallback]. *)
Definition username_or (profile : UserProfile) (fallback : string) : string :=
  if ToBoolean (Str (profile_username profile)) then profile_username profile else fallback.

(** One round of the loop over [posts.slice(0, 5)]. *)
Definition render_post (env : Env) (message : string) (post : Post) : M string :=
  postAuthor <- try_catch
                  (authorProfile <- external (fun n => api_getUserProfile env n
                                                         (post_user_id post));;
                   ret (username_or authorProfile (post_user_id post)))
                  (fun _ => ret (post_user_id post));;
  let timestamp := toLocaleString env (post_create_at post) in
  ret (message +:+ "- " +:+ timestamp +:+ " (" +:+ postAuthor +:+ "): "
       +:+ dquote +:+ post_message post +:+ dquote +:+ newline).

Fixpoint render_posts (env : Env) (message : string) (shown : list Post) : M string :=
  match shown with
  | [] => ret message
  | post :: rest =>
      message' <- render_post env message post;;
      render_posts env message' rest
  end.

(** "Create a notification message": the text handed to [createPost]. *)
Definition compose (env : Env) (user : string) (result : AnalysisResult) : M string :=
  username <- try_catch
                (userProfile <- external (fun n => api_getUserProfile env n user);;
                 ret (username_or userProfile "user"))
                (fun error =>
                   console_error ("Error getting user profile: " +:+ error);;;
                   ret "user");;
  let message := "@" +:+ username +:+ " **Topic Monitor Alert**" +:+ newline +:+ newline in
  let message := message +:+ "Found " +:+ show_nat (length (posts result))
                 +:+ " relevant posts in channel: **" +:+ channelName result
                 +:+ "**" +:+ newline in
  let message := message +:+ "Topics: " +:+ join ", " (relevantTopics result)
                 +:+ newline +:+ newline in
  let message := message +:+ "**Recent Messages:**" +:+ newline in
  message <- render_posts env message (take 5 (posts result));;
  ret (if (5 <? length (posts result))%nat
       then message +:+ "... and " +:+ show_nat (length (posts result) - 5)
            +:+ " more" +:+ newline
       else message).

(** [this.client.createPost(channel, message)]; the request is recorded. *)
Definition createPost (env : Env) (channel message : string) : M unit :=
  modify (fun w => set_posted ((channel, message) :: w_posted w) w);;;
  external (fun n => api_createPost env n channel message).

(** [sendNotification]. *)
Definition sendNotification (env : Env) (self : t) (result : AnalysisResult) : M unit :=
  if negb (is_set (dmChannelId self)) then
    console_error "No channel found for notifications"
  else if negb (is_set (sysadminUserId self)) then
    console_error "No target user found for notifications"
  else
    try_catch
      (message <- compose env (default EmptyString (sysadminUserId self)) result;;
       createPost env (default EmptyString (dmChannelId self)) message;;;
       console_error ("Sent notification for channel: " +:+ channelName result))
      (fun error => console_error ("Error sending notification: " +:+ error)).

(** The loop "Analyze each channel" with its [results] array. *)
Fixpoint analyze_channels (env : Env) (self : t) (isFirstRun : bool)
    (names : list string) (results : list AnalysisResult) : M (list AnalysisResult) :=
  match names with
  | [] => ret results
  | channelName :: rest =>
      result <- MessageAnalyzer.analyzeChannel env (analyzer self) channelName isFirstRun
                  (Some (firstRunLimit (config self)));;
      analyze_channels env self isFirstRun rest
        (match result with
         | Some r => results ++ [r]
         | None => results
         end)
  end.

(** [isFirstRun = !this.stateManager.getLastRun()]. *)
Definition isFirstRun (env : Env) (w : World) : bool :=
  negb (ToBoolean (StateManager.getLastRun env w)).

(** [runMonitoring], the callback of the scheduler. *)
Definition runMonitoring (env : Env) (self : t) : M unit :=
  try_catch
    (firstRun <- get (isFirstRun env);;
     results <- analyze_channels env self firstRun (channels (config self)) [];;
     for_of results (sendNotification env self))
    (fun error => console_error ("Error running monitoring: " +:+ error)).

(** [stop], [runNow], [isRunning]. *)
Definition stop (env : Env) : M bool := MonitoringScheduler.stop env.

Definition runNow (env : Env) (self : t) : M unit :=
  MonitoringScheduler.runNow (runMonitoring env self).

Definition isRunning (w : World) : bool := MonitoringScheduler.isTaskRunning w.

(** What a tick of the armed schedule runs. *)
Definition tick (env : Env) (self : t) : M unit :=
  MonitoringScheduler.scheduled_tick env (runMonitoring env self).

End TopicMonitor.

(* ===================================================================== *)
(** ** The monitoring tools (tools/monitoring.ts) *)
(* ===================================================================== *)

Module Tools.

(** The object given to [JSON.stringify] for the [text] of the result. *)
Inductive Payload :=
| ErrorPayload (error : string)                       (* [{ error }] *)
| SuccessPayload (success : bool) (message : string)  (* [{ success, message }] *)
| StatusPayload (enabled running : bool).             (* [{ enabled, running }] *)

(** The tool result; [isError] is [None] when the property is absent. *)
Record ToolResult := mkToolResult {
  content : Payload;
  isError : option bool
}.

(** [handleRunMonitoring]; [instance] is the module variable
    [topicMonitorInstance]. *)
Definition handleRunMonitoring (env : Env) (instance : option TopicMonitor.t)
  : M ToolResult :=
  match instance with
  | None =>
      ret (mkToolResult (ErrorPayload "Monitoring is not enabled or initialized") (Some true))
  | Some monitor =>
      try_catch
        (TopicMonitor.runNow env monitor;;;
         ret (mkToolResult
                (SuccessPayload true "Monitoring process completed successfully") None))
        (fun error => ret (mkToolResult (ErrorPayload error) (Some true)))
  end.

(** [handleGetMonitoringStatus]. *)
Definition handleGetMonitoringStatus (instance : option TopicMonitor.t) : M ToolResult :=
  running <- get (fun w => match instance with
                           | Some _ => TopicMonitor.isRunning w
                           | None => false
                           end);;
  ret (mkToolResult (StatusPayload (bool_decide (is_Some instance)) running) None).

End Tools.

(* ===================================================================== *)
(** ** The process as a whole *)
(* ===================================================================== *)

Module Process.

(** The world before any module is evaluated: no object exists yet. *)
Definition initial_world (file : StateFile) : World :=
  mkWorld 0 [] EmptyString ∅ (mkMonitorState EmptyString SharedDefault) file
          [] [] false EmptyString false 0.

(** [main] up to the construction of the monitor: the state module is
    evaluated, then [new TopicMonitor(client, config.monitoring)]. *)
Definition boot (env : Env) (config : MonitoringConfig) : M TopicMonitor.t :=
  StateManager.module_init env;;;
  TopicMonitor.new config.

(** What the process does after that: every operation that runs in it. *)
Inductive Action :=
| Tick (env : Env) (monitor : TopicMonitor.t)
| RunNow (env : Env) (monitor : TopicMonitor.t)
| HandleRunMonitoring (env : Env) (instance : option TopicMonitor.t)
| HandleGetMonitoringStatus (instance : option TopicMonitor.t)
| SchedulerStart (env : Env)
| SchedulerStop (env : Env)
| UpdateSchedule (env : Env) (sched : string)
| AnalyzeChannel (env : Env) (analyzer : MessageAnalyzer.t) (channelName : string)
                 (firstRun : bool) (firstRunLimit : option Z)
| MarkPostProcessed (channelId postId : string)
| MarkPostsProcessed (channelId : string) (postIds : list string)
| SaveState (env : Env) (path : string).

Definition perform (a : Action) : M unit :=
  match a with
  | Tick env monitor => TopicMonitor.tick env monitor
  | RunNow env monitor => TopicMonitor.runNow env monitor
  | HandleRunMonitoring env instance => Tools.handleRunMonitoring env instance;;; ret tt
  | HandleGetMonitoringStatus instance => Tools.handleGetMonitoringStatus instance;;; ret tt
  | SchedulerStart env => MonitoringScheduler.start env;;; ret tt
  | SchedulerStop env => MonitoringScheduler.stop env;;; ret tt
  | UpdateSchedule env sched => MonitoringScheduler.updateSchedule env sched;;; ret tt
  | AnalyzeChannel env analyzer channelName firstRun firstRunLimit =>
      MessageAnalyzer.analyzeChannel env analyzer channelName firstRun firstRunLimit;;; ret tt
  | MarkPostProcessed channelId postId => StateManager.markPostProcessed channelId postId
  | MarkPostsProcessed channelId postIds => StateManager.markPostsProcessed channelId postIds
  | SaveState env path => StateManager.saveState env path
  end.

(** The world after a sequence of actions; an action that throws does not
    stop the process. *)
Definition run (actions : list Action) (w : World) : World :=
  fold_left (fun w a => snd (perform a w)) actions w.

End Process.

(* ===================================================================== *)
(** ** Vocabulary of the properties *)
(* ===================================================================== *)

Module Props.

(** [m] completes normally from every world. *)
Definition never_throws {A} (m : M A) : Prop :=
  forall w, is_normal (fst (m w)) = true.

(** Every run of [m] takes a world to one related to it by [R]. *)
Definition steps {A} (R : World -> World -> Prop) (m : M A) : Prop :=
  forall w, R w (snd (m w)).

(** A message id is processed for a channel. *)
Definition processed (channelId postId : string) (w : World) : Prop :=
  StateManager.isPostProcessed channelId postId w = true.

(** The processed ids of every channel are kept, in their order, and new
    ones come behind them. *)
Definition grows (w w' : World) : Prop :=
  forall channelId,
    StateManager.getProcessedPostIds channelId w
      `prefix_of` StateManager.getProcessedPostIds channelId w'.

(** The backing record is absent, or reading or parsing it throws. *)
Definition absent_or_throwing (f : StateFile) : bool :=
  match f with
  | Absent | Unreadable | Unparsable _ => true
  | Serialized _ _ => false
  end.

(** The candidates that a run of [analyzeChannel] from [w] selects: the
    posts it hands to the classification, with their channel; [None] when
    the run returns before it classifies. *)
Definition candidates (env : Env) (self : MessageAnalyzer.t) (name : string)
    (firstRun : bool) (firstRunLimit : option Z) (w : World) : option (Channel * list Post) :=
  match MessageAnalyzer.select_candidates env self name firstRun firstRunLimit
          (snd (console_error ("Analyzing channel: " +:+ name) w)) with
  | (Normal selected, _) => selected
  | (Throw _, _) => None
  end.

(** From [w] to [w'] the fetch requests made all ask for [limit] posts. *)
Definition fetched_with_limit (limit : Z) (w w' : World) : Prop :=
  exists requests,
    w_fetches w' = requests ++ w_fetches w
    /\ Forall (fun request => snd request = limit) requests.

(** [id] is in the array that the object [o] holds for [topic]. *)
Definition listed (o : Obj.t) (topic id : string) : Prop :=
  exists l, (topic, l) ∈ o /\ id ∈ l.

(** The candidate's id was found in the reply by the scan for ids. *)
Definition found_in (content : string) (post : Post) : bool :=
  arr_includes (MessageAnalyzer.matchAll_ids content) (post_id post).

(** C6 as stated, for one reply: ids found, none tied to a topic, hence
    every topic matched and the candidates found matching. *)
Definition tie_break_as_stated (env : Env) (content : string) (posts : list Post)
    (topics : list string) : Prop :=
  MessageAnalyzer.matchAll_ids content <> [] ->
  MessageAnalyzer.topic_pass env content topics = Normal [] ->
  exists result,
    MessageAnalyzer.read_reply env content posts topics = Normal result
    /\ (forall topic, topic ∈ llm_relevantTopics result <-> topic ∈ topics)
    /\ relevantPosts result = filter (fun post => found_in content post = true) posts.

(** The author shown for a post when its profile is asked for by external
    call number [n]: the user name, or the user id when the call throws or
    the name is empty. *)
Definition author_at (env : Env) (n : nat) (post : Post) : string :=
  match api_getUserProfile env n (post_user_id post) with
  | Normal profile => TopicMonitor.username_or profile (post_user_id post)
  | Throw _ => post_user_id post
  end.

(** The line of the alert for one post: time, author, text. *)
Definition alert_line (env : Env) (n : nat) (post : Post) : string :=
  "- " +:+ toLocaleString env (post_create_at post) +:+ " (" +:+ author_at env n post
  +:+ "): " +:+ dquote +:+ post_message post +:+ dquote +:+ newline.

(** The lines for the posts shown, the profile of the first asked for by
    call number [n]. *)
Fixpoint alert_lines (env : Env) (n : nat) (shown : list Post) : list string :=
  match shown with
  | [] => []
  | post :: rest => alert_line env n post :: alert_lines env (S n) rest
  end.

Definition concat_lines (lines : list string) : string :=
  foldr String.append EmptyString lines.

(** The head of the alert: recipient, count, channel, topics. *)
Definition alert_header (env : Env) (n : nat) (user : string) (result : AnalysisResult)
  : string :=
  let username := match api_getUserProfile env n user with
                  | Normal profile => TopicMonitor.username_or profile "user"
                  | Throw _ => "user"
                  end in
  "@" +:+ username +:+ " **Topic Monitor Alert**" +:+ newline +:+ newline
  +:+ "Found " +:+ show_nat (length (posts result))
  +:+ " relevant posts in channel: **" +:+ channelName result +:+ "**" +:+ newline
  +:+ "Topics: " +:+ join ", " (relevantTopics result) +:+ newline +:+ newline
  +:+ "**Recent Messages:**" +:+ newline.

(** The last line of the alert for [count] matches. *)
Definition more_suffix (count : nat) : string :=
  if (5 <? count)%nat
  then "... and " +:+ show_nat (count - 5) +:+ " more" +:+ newline
  else EmptyString.

(** Two worlds differ at most in the console. *)
Definition same_but_console (w w' : World) : Prop :=
  set_console [] w = set_console [] w'.

End Props.
Export Props.

(* ===================================================================== *)
(** ** Concrete inputs *)
(* ===================================================================== *)

Module Sample.

Definition id_a : string := "aaaaaaaaaaaaaaaaaaaaaaaaaa".
Definition id_b : string := "bbbbbbbbbbbbbbbbbbbbbbbbbb".

Definition town_square : Channel := mkChannel "c1" "town-square" "O".

Definition butterfly : Post :=
  mkPost id_a "u1" "just bought a new butterfly blade" 1700000000000 None.
Definition lunch : Post :=
  mkPost id_b "u2" "let's grab lunch" 1700000060000 None.

(** A workspace with one channel and two posts, no classification
    backend, and a file system and a clock that work. *)
Definition env : Env :=
  mkEnv (fun _ => "2026-01-01T00:00:00.000Z")
        (fun _ => Some 1767225600000%Z)
        (fun _ => "1/1/2026, 12:00:00 AM")
        (fun _ => Normal (ChannelsArray [town_square]))
        (fun _ _ _ => Normal [butterfly; lunch])
        (fun _ user => Normal (mkUserProfile user "alice" "Alice" "A"))
        (fun _ _ _ => Normal tt)
        (fun _ _ _ _ _ => Throw "connection refused")
        (fun _ _ => Normal None)
        (fun _ => true) (fun _ => Normal tt) (fun _ => Normal tt) (fun _ file => file)
        (fun _ => true) (fun _ => Normal tt) (fun _ => Normal tt).

(** The same workspace with a clock that moves on: the first external call
    is made at midnight, the later ones five minutes after. *)
Definition ticking : Env :=
  mkEnv (fun n => match n with
                  | O => "2026-01-01T00:00:00.000Z"
                  | S _ => "2026-01-01T00:05:00.000Z"
                  end)
        (date_parse env) (toLocaleString env)
        (api_getChannels env) (api_getPostsForChannel env) (api_getUserProfile env)
        (api_createPost env) (llm_messages_create env) (regexp_topic_capture env)
        (fs_dir_exists env) (fs_mkdirSync env) (fs_writeFileSync env) (fs_interrupted env)
        (cron_validate env) (cron_schedule env) (cron_task_stop env).

(** The first run limit is 10, the steady-state limit 50. *)
Definition config : MonitoringConfig :=
  mkMonitoringConfig true "*/5 * * * *" ["town-square"] ["table tennis"] 50
                     "./monitor-state.json" true 10.

Definition monitor : TopicMonitor.t :=
  TopicMonitor.mk config
    (MessageAnalyzer.mk "./monitor-state.json" ["table tennis"] 50 None)
    (Some "admin") (Some "dm1").

(** The world a cycle is in flight in, and the idle one. *)
Definition idle : World :=
  mkWorld 1 [] "2026-01-01T00:00:00.000Z" ∅
          (mkMonitorState "2026-01-01T00:00:00.000Z" SharedDefault) Absent
          [] [] true "*/5 * * * *" false 0.

Definition in_flight : World := set_callback_runs 1 (set_isRunning true idle).

(** Seven matches in one channel, and the alert composed for them. *)
Definition numbered (k : Z) : Post :=
  mkPost id_a "u1" "table tennis tonight" (1700000000000 + k) None.

Definition seven_matches : AnalysisResult :=
  mkAnalysisResult "c1" "town-square"
    [numbered 1; numbered 2; numbered 3; numbered 4; numbered 5; numbered 6; numbered 7]
    ["table tennis"].

Definition alert_for_seven : string :=
  match fst (TopicMonitor.compose env "admin" seven_matches idle) with
  | Normal message => message
  | Throw _ => EmptyString
  end.

(** A callback that fails. *)
Definition failing : M unit := throw "boom".

(** A backend configuration, and a backend that answers [content]. *)
Definition llm : LlmConfig := mkLlmConfig "key" "claude-3-sonnet-20240229" 1000.

Definition llm_analyzer : MessageAnalyzer.t :=
  MessageAnalyzer.mk "./monitor-state.json" ["table tennis"] 50 (Some llm).

Definition answering (content : string) : Env :=
  mkEnv (clock_toISOString env) (date_parse env) (toLocaleString env)
        (api_getChannels env) (api_getPostsForChannel env) (api_getUserProfile env)
        (api_createPost env)
        (fun _ _ _ _ _ => Normal content)
        (regexp_topic_capture env)
        (fs_dir_exists env) (fs_mkdirSync env) (fs_writeFileSync env) (fs_interrupted env)
        (cron_validate env) (cron_schedule env) (cron_task_stop env).

(** Replies in prose, with a quoted id and no topic tied to it: the id of
    a post that is not a candidate, and the id of the candidate. *)
Definition reply_other_id : string :=
  "The message " +:+ dquote +:+ id_b +:+ dquote +:+ " is about table tennis.".

Definition reply_candidate_id : string :=
  "The message " +:+ dquote +:+ id_a +:+ dquote +:+ " is about table tennis.".

End Sample.

(* ===================================================================== *)
(** ** Start-up of the monitor: recipient and delivery channel *)
(* ===================================================================== *)

Module Startup.

(** [roles] of a user as the workspace answers it: absent, a text of role
    names, or an array of them. *)
Inductive Roles :=
| NoRoles
| RolesText (s : string)
| RolesList (l : list string).

(** A user of [getUsers], the fields [findSysadminUser] reads. *)
Record User := mkUser {
  user_id : string;
  user_username : string;
  user_roles : Roles;
  user_is_bot : bool
}.

(** [getMe]. *)
Record Me := mkMe {
  me_id : string;
  me_username : string
}.

(** [getUsers] answers with an array, or with an object whose [users]
    property may be missing (or not an array: both are [None]). *)
Inductive UsersResponse :=
| UsersArray (us : list User)
| UsersObject (users : option (list User)).

(** The calls of the workspace API that only the start-up makes. *)
Record Api := mkApi {
  api_getUsers : nat -> Completion UsersResponse;
  api_getMe : nat -> Completion Me;
  api_createDirectChannel : nat -> string -> string -> Completion Channel
}.

(** [user.roles && user.roles.includes(role)]. *)
Definition has_role (u : User) (role : string) : bool :=
  match user_roles u with
  | NoRoles => false
  | RolesText s => ToBoolean (Str s) && includes s role
  | RolesList l => arr_includes l role
  end.

Definition is_admin (u : User) : bool := has_role u "system_admin".

(** [user.roles && !user.is_bot && user.roles.includes('system_user')]. *)
Definition is_regular (u : User) : bool :=
  match user_roles u with
  | NoRoles => false
  | RolesText s => ToBoolean (Str s) && negb (user_is_bot u) && includes s "system_user"
  | RolesList l => negb (user_is_bot u) && arr_includes l "system_user"
  end.

(** [Array.isArray(r) ? r : (r.users || [])]. *)
Definition users_of (r : UsersResponse) : list User :=
  match r with
  | UsersArray us => us
  | UsersObject (Some us) => us
  | UsersObject None => []
  end.

(** [a || b] on the results of [find]. *)
Definition or_else {A} (a b : option A) : option A :=
  match a with Some _ => a | None => b end.

(** The four attempts of [findSysadminUser], in their order. *)
Definition pick_user (users : list User) : option User :=
  or_else (List.find is_admin users)
    (or_else (List.find is_regular users)
       (or_else (List.find (fun u => negb (user_is_bot u)) users)
          (head users))).

(** [findSysadminUser]: the id stored in [this.sysadminUserId]. *)
Definition findSysadminUser (api : Api) : M string :=
  try_catch
    (usersResponse <- external (api_getUsers api);;
     let users := users_of usersResponse in
     if (length users =? 0)%nat then
       console_error "No users found in response";;;
       throw "No users found in Mattermost"
     else
       match pick_user users with
       | Some targetUser =>
           console_error ("Found user for notifications: " +:+ user_username targetUser
                          +:+ " (" +:+ user_id targetUser +:+ ")");;;
           ret (user_id targetUser)
       | None => throw "No suitable user found for notifications"
       end)
    (fun error =>
       console_error ("Error finding sysadmin user: " +:+ error);;;
       throw error).

(** The test of the search for an existing direct channel. *)
Definition is_dm_between (user me : string) (c : Channel) : bool :=
  String.eqb (channel_type c) "D"
  && includes (channel_name c) user
  && includes (channel_name c) me.

(** The three attempts of the fallback, in their order. *)
Definition pick_fallback (channels : list Channel) : option Channel :=
  or_else (List.find (fun c => String.eqb (channel_name c) "town-square") channels)
    (or_else (List.find (fun c => String.eqb (channel_type c) "O") channels)
       (head channels)).

(** [createDmChannel]: the id stored in [this.dmChannelId]. *)
Definition createDmChannel (env : Env) (api : Api) (sysadminUserId : option string)
  : M string :=
  if negb (TopicMonitor.is_set sysadminUserId) then
    throw "No target user found for notifications"
  else
    let user := default EmptyString sysadminUserId in
    try_catch
      (me <- external (api_getMe api);;
       console_error ("MCP server running as user: " +:+ me_username me
                      +:+ " (" +:+ me_id me +:+ ")");;;
       channelsResponse <- external (api_getChannels env);;
       let channels := MessageAnalyzer.channels_of channelsResponse in
       match List.find (is_dm_between user (me_id me)) channels with
       | Some dmChannel =>
           console_error ("Found existing DM channel: " +:+ channel_id dmChannel);;;
           ret (channel_id dmChannel)
       | None =>
           console_error ("Creating new DM channel between " +:+ me_username me
                          +:+ " and target user...");;;
           created <- try_catch
                        (newDmChannel <- external (fun n => api_createDirectChannel api n
                                                              (me_id me) user);;
                         console_error ("Created new DM channel: "
                                        +:+ channel_id newDmChannel);;;
                         ret (Some (channel_id newDmChannel)))
                        (fun error =>
                           console_error ("Error creating DM channel: " +:+ error);;;
                           ret None);;
           match created with
           | Some id => ret id
           | None =>
               console_error "Falling back to public channel for notifications...";;;
               match pick_fallback channels with
               | Some fallbackChannel =>
                   console_error ("Using fallback channel for notifications: "
                                  +:+ channel_name fallbackChannel
                                  +:+ " (" +:+ channel_id fallbackChannel +:+ ")");;;
                   ret (channel_id fallbackChannel)
               | None => throw "No suitable channel found for notifications"
               end
           end
       end)
      (fun error =>
         console_error ("Error creating DM channel: " +:+ error);;;
         throw error).

(** Run [m] and hand its completion to the continuation. *)
Definition attempt {A} (m : M A) : M (Completion A) :=
  fun w => let '(r, w') := m w in (Normal r, w').

(** [TopicMonitor.start]: the answer, and the monitor with the fields the
    resolution has set before it returned or threw. *)
Definition start (env : Env) (api : Api) (self : TopicMonitor.t)
  : M (bool * TopicMonitor.t) :=
  found <- attempt (findSysadminUser api);;
  match found with
  | Throw error =>
      console_error ("Error starting topic monitor: " +:+ error);;;
      ret (false, self)
  | Normal user =>
      let self1 := TopicMonitor.mk (TopicMonitor.config self) (TopicMonitor.analyzer self)
                                   (Some user) (TopicMonitor.dmChannelId self) in
      resolved <- attempt (createDmChannel env api (Some user));;
      match resolved with
      | Throw error =>
          console_error ("Error starting topic monitor: " +:+ error);;;
          ret (false, self1)
      | Normal dm =>
          let self2 := TopicMonitor.mk (TopicMonitor.config self) (TopicMonitor.analyzer self)
                                       (Some user) (Some dm) in
          started <- MonitoringScheduler.start env;;
          ret (started, self2)
      end
  end.

End Startup.

(* ===================================================================== *)
(** ** Configuration (config.ts) *)
(* ===================================================================== *)

Module Config.

(** [Config] as [JSON.parse] builds it: a property that is missing is
    [None]. *)
Record t := mk {
  mattermostUrl : option string;
  token : option string;
  teamId : option string;
  monitoring : option MonitoringConfig
}.

(** A configuration file. *)
Inductive File :=
| Missing
| NotReadable                 (* [readFileSync] throws *)
| NotJson                     (* [JSON.parse] throws *)
| Parsed (config : t).

(** [!value] of a [string | undefined]. *)
Definition lacks (field : option string) : bool :=
  match field with
  | Some s => negb (ToBoolean (Str s))
  | None => negb (ToBoolean Undefined)
  end.

(** [validateConfig]. *)
Definition validateConfig (config : t) : Completion unit :=
  if lacks (mattermostUrl config) then Throw "Missing mattermostUrl in configuration"
  else if lacks (token config) then Throw "Missing token in configuration"
  else if lacks (teamId config) then Throw "Missing teamId in configuration"
  else Normal tt.

(** [fs.existsSync], and [JSON.parse(fs.readFileSync(path, 'utf8'))]. *)
Definition existsSync (f : File) : bool :=
  match f with Missing => false | _ => true end.

Definition read_and_parse (f : File) : Completion t :=
  match f with
  | Missing => Throw "ENOENT: no such file or directory"
  | NotReadable => Throw "EACCES: permission denied"
  | NotJson => Throw "SyntaxError: Unexpected token in JSON"
  | Parsed config => Normal config
  end.

(** [loadConfig], with the files [config.local.json] and [config.json]. *)
Definition loadConfig (localConfig config : File) : M t :=
  try_catch
    (if existsSync localConfig then
       loaded <- lift (read_and_parse localConfig);;
       lift (validateConfig loaded);;;
       ret loaded
     else
       loaded <- lift (read_and_parse config);;
       lift (validateConfig loaded);;;
       ret loaded)
    (fun error =>
       console_error ("Error loading configuration: " +:+ error);;;
       throw ("Failed to load configuration. Please ensure config.json or "
              +:+ "config.local.json exists and contains valid data.")).

End Config.

(* ===================================================================== *)
(** ** The server (index.ts): the handler of tool calls *)
(* ===================================================================== *)

Module Server.

(** The handler registered for [CallToolRequestSchema].  [executeTool]
    (tools/index.ts) is the parameter [execute]; [arguments] is [None] when
    the request has none. *)
Definition callTool {Args : Type} (execute : string -> Args -> M Tools.ToolResult)
    (name : string) (arguments : option Args) : M Tools.ToolResult :=
  console_error ("Received CallToolRequest for tool: " +:+ name);;;
  try_catch
    (match arguments with
     | None => throw "No arguments provided"
     | Some args => execute name args
     end)
    (fun error =>
       console_error ("Error executing tool: " +:+ error);;;
       ret (Tools.mkToolResult (Tools.ErrorPayload error) (Some true))).

(** The part of [main] that sets the monitor up: the module variable
    [topicMonitorInstance] afterwards.  The answer of [start] is not read.
    Neither the constructor nor [start] throws; the handler of the [try]
    is the one of a constructor that throws, before the variable is set. *)
Definition init_monitor (env : Env) (api : Startup.Api) (config : Config.t)
  : M (option TopicMonitor.t) :=
  match Config.monitoring config with
  | Some monitoring =>
      if enabled monitoring then
        try_catch
          (console_error "Initializing topic monitor...";;;
           topicMonitor <- TopicMonitor.new monitoring;;
           started <- Startup.start env api topicMonitor;;
           console_error "Topic monitor started successfully";;;
           ret (Some (snd started)))
          (fun error =>
             console_error ("Failed to initialize topic monitor: " +:+ error);;;
             ret None)
      else
        console_error "Topic monitoring is disabled in configuration";;;
        ret None
  | None =>
      console_error "Topic monitoring is disabled in configuration";;;
      ret None
  end.

(** How [main] ends: the server keeps serving, or [process.exit(code)]. *)
Inductive Outcome :=
| Serving
| Exited (code : Z).

(** The end of [main]: [--run-monitoring] and [--exit-after-monitoring]. *)
Definition run_immediately (env : Env) (runMonitoringImmediately exitAfterMonitoring : bool)
    (topicMonitor : option TopicMonitor.t) : M Outcome :=
  match topicMonitor with
  | Some monitor =>
      if runMonitoringImmediately then
        console_error "Running monitoring immediately as requested...";;;
        try_catch
          (TopicMonitor.runNow env monitor;;;
           if exitAfterMonitoring then
             console_error "Exiting after monitoring as requested...";;;
             ret (Exited 0)
           else ret Serving)
          (fun error =>
             console_error ("Error running monitoring immediately: " +:+ error);;;
             if exitAfterMonitoring then
               console_error "Exiting with error...";;;
               ret (Exited 1)
             else ret Serving)
      else ret Serving
  | None => ret Serving
  end.

(** [main().catch(...)].  The constructor of the client (client.ts) and
    the connection of the server to its transport (the SDK) are the oracles
    [client_new] and [server_connect]; building the server and registering
    its handlers does not throw. *)
Definition main (env : Env) (api : Startup.Api)
    (client_new server_connect : nat -> Completion unit)
    (runMonitoringImmediately exitAfterMonitoring : bool)
    (localConfig configFile : Config.File) : M Outcome :=
  try_catch
    (console_error "Starting Mattermost MCP Server...";;;
     config <- Config.loadConfig localConfig configFile;;
     client <- try_catch
                 (external client_new;;;
                  console_error "Successfully initialized Mattermost client";;;
                  ret true)
                 (fun error =>
                    console_error ("Failed to initialize Mattermost client: " +:+ error);;;
                    ret false);;
     if client then
       topicMonitor <- init_monitor env api config;;
       console_error "Connecting server to transport...";;;
       external server_connect;;;
       console_error "Mattermost MCP Server running on stdio";;;
       run_immediately env runMonitoringImmediately exitAfterMonitoring topicMonitor
     else ret (Exited 1))
    (fun error =>
       console_error ("Fatal error in main(): " +:+ error);;;
       ret (Exited 1)).

End Server.

(* ===================================================================== *)
(** ** [analyzeChannel] of the earlier [MessageAnalyzer] *)
(* ===================================================================== *)

(** The earlier revision resolves the channel, fetches and drops the
    processed posts with the statements of [select_candidates] (its posts
    are named [posts] there); it then classifies and marks post by post. *)
Module KeywordChannel.

(** One round of the loop "Analyze posts for relevant topics". *)
Definition analyze_post (topics : list string) (channel : string)
    (acc : list Post * list string) (post : Post) : M (list Post * list string) :=
  let matchedTopics := KeywordAnalyzer.findRelevantTopics topics (post_message post) in
  let acc' := if (0 <? length matchedTopics)%nat
              then (fst acc ++ [post], fold_left Obj.set_add matchedTopics (snd acc))
              else acc in
  StateManager.markPostProcessed channel (post_id post);;;
  ret acc'.

Fixpoint analyze_posts (topics : list string) (channel : string)
    (acc : list Post * list string) (posts : list Post) : M (list Post * list string) :=
  match posts with
  | [] => ret acc
  | post :: rest =>
      acc' <- analyze_post topics channel acc post;;
      analyze_posts topics channel acc' rest
  end.

(** [analyzeChannel]. *)
Definition analyzeChannel (env : Env) (self : MessageAnalyzer.t) (channelName : string)
    (firstRun : bool) (firstRunLimit : option Z) : M (option AnalysisResult) :=
  try_catch
    (console_error ("Analyzing channel: " +:+ channelName);;;
     selected <- MessageAnalyzer.select_candidates env self channelName firstRun firstRunLimit;;
     match selected with
     | None => ret None
     | Some (channel, posts) =>
         found <- analyze_posts (MessageAnalyzer.an_topics self) (channel_id channel)
                    ([], []) posts;;
         StateManager.saveState env (MessageAnalyzer.stateManager_path self);;;
         if (length (fst found) =? 0)%nat then
           console_error ("No relevant posts found in channel: " +:+ channelName);;;
           ret None
         else
           ret (Some (mkAnalysisResult (channel_id channel) (channel_name channel)
                        (fst found) (snd found)))
     end)
    (fun error =>
       console_error ("Error analyzing channel " +:+ channelName +:+ ": " +:+ error);;;
       ret None).

End KeywordChannel.

(* ===================================================================== *)
(** ** Vocabulary of the further properties *)
(* ===================================================================== *)

Module Cover.

(** The observation [f] of the world is the same after as before. *)
Definition unchanged {X : Type} (f : World -> X) (w w' : World) : Prop :=
  f w' = f w.

(** The fields of the scheduler. *)
Definition scheduler_fields (w : World) : bool * string * bool * nat :=
  (w_task w, w_schedule w, w_isRunning w, w_callback_runs w).

(** The ledger: the processed dictionary, the time of the last save, and
    the file. *)
Definition ledger (w : World) : PostsMap * string * StateFile :=
  (StateManager.posts_of w, lastRun (w_state w), w_file w).

(** What left the process towards the workspace: fetches and posts. *)
Definition requests (w : World) : list (string * Z) * list (string * string) :=
  (w_fetches w, w_posted w).

(** No channel lists a processed id twice. *)
Definition duplicate_free (w : World) : Prop :=
  forall channelId, NoDup (StateManager.getProcessedPostIds channelId w).

(** The console of [w'] starts with the console of [w]. *)
Definition console_extends (w w' : World) : Prop :=
  w_console w `prefix_of` w_console w'.

(** [config.monitoring?.enabled]. *)
Definition monitoring_enabled (config : Config.t) : bool :=
  match Config.monitoring config with
  | Some monitoring => enabled monitoring
  | None => false
  end.

(** The three fields that [validateConfig] asks for are there. *)
Definition complete (config : Config.t) : bool :=
  negb (Config.lacks (Config.mattermostUrl config))
  && negb (Config.lacks (Config.token config))
  && negb (Config.lacks (Config.teamId config)).

(** The configuration that [loadConfig] answers, if it answers one. *)
Definition loaded (localConfig configFile : Config.File) : option Config.t :=
  match (if Config.existsSync localConfig then localConfig else configFile) with
  | Config.Parsed config => if complete config then Some config else None
  | _ => None
  end.

(** The message of the error that [loadConfig] throws. *)
Definition load_failure : string :=
  "Failed to load configuration. Please ensure config.json or "
  +:+ "config.local.json exists and contains valid data.".

(** Between [w] and [w'] the console got [line]. *)
Definition logged (line : string) (w w' : World) : Prop :=
  exists before after, w_console w' = w_console w ++ before ++ line :: after.

(** A post without the [user_info] that the enrichment attaches. *)
Definition bare (post : Post) : Post :=
  mkPost (post_id post) (post_user_id post) (post_message post) (post_create_at post) None.

(** Every character of [s] is a lower-case letter or a digit. *)
Definition all_id_chars_of (s : string) : Prop :=
  Forall (fun c => MessageAnalyzer.is_id_char c = true) (list_ascii_of_string s).

(** What [l.find(f)] answers: [x] is the first element of [l] that passes
    [f]; and no element of [l] passes [f]. *)
Definition first_with {A} (f : A -> bool) (l : list A) (x : A) : Prop :=
  exists before after,
    l = before ++ x :: after /\ f x = true /\ Forall (fun y => f y = false) before.

Definition none_with {A} (f : A -> bool) (l : list A) : Prop :=
  Forall (fun y => f y = false) l.

(** The tests of the searches of the start-up. *)
Definition is_human (u : Startup.User) : bool := negb (Startup.user_is_bot u).

Definition is_town_square (c : Channel) : bool := String.eqb (channel_name c) "town-square".

Definition is_public (c : Channel) : bool := String.eqb (channel_type c) "O".

(** The order of the four searches for the recipient: the first listed
    administrator (bot or not); without one, the first listed user who is no
    bot and has the role [system_user]; without one, the first listed user
    who is no bot; and when every listed user is a bot, the first of
    them. *)
Definition picked_in_order (users : list Startup.User) (u : Startup.User) : Prop :=
  first_with Startup.is_admin users u
  \/ (none_with Startup.is_admin users /\ first_with Startup.is_regular users u)
  \/ (none_with Startup.is_admin users /\ none_with Startup.is_regular users
      /\ first_with is_human users u)
  \/ (none_with Startup.is_admin users /\ none_with Startup.is_regular users
      /\ none_with is_human users /\ head users = Some u).

(** The order of the three searches for the fallback channel: the first
    listed channel named "town-square"; without one, the first listed public
    channel; without one, the first listed channel. *)
Definition fallback_in_order (listed : list Channel) (c : Channel) : Prop :=
  first_with is_town_square listed c
  \/ (none_with is_town_square listed /\ first_with is_public listed c)
  \/ (none_with is_town_square listed /\ none_with is_public listed
      /\ head listed = Some c).

(** A text of ASCII characters only.  On such a text [toLowerCase] folds
    the letters A-Z and nothing else, as the model of it does on every
    text. *)
Definition ascii_text (s : string) : bool :=
  forallb (fun c => (nat_of_ascii c <? 128)%nat) (list_ascii_of_string s).

Definition ascii_texts (l : list string) : bool := forallb ascii_text l.

(** The topic's label occurs in the message, letter case aside. *)
Definition mentions (message topic : string) : bool :=
  includes (toLowerCase message) (toLowerCase topic).

(** Some topic's label occurs in the message. *)
Definition mentions_some (topics : list string) (post : Post) : bool :=
  existsb (mentions (post_message post)) topics.

(** The ids that the reply lists for [topic]: those of the bracket the
    topic pattern captures; none when the pattern does not match. *)
Definition ids_listed_for (env : Env) (content topic : string) : list string :=
  match regexp_topic_capture env topic content with
  | Normal (Some capture) => MessageAnalyzer.matchAll_ids capture
  | _ => []
  end.

(** A classification that stays within what it was given: the posts are
    posts of the input, in their order; the topics are configured topics,
    each named once; a post is never answered without a topic. *)
Definition within (posts : list Post) (topics : list string) (r : LlmAnalysisResult) : Prop :=
  relevantPosts r `sublist_of` posts
  /\ (forall t, t ∈ llm_relevantTopics r -> t ∈ topics)
  /\ NoDup (llm_relevantTopics r)
  /\ (relevantPosts r <> [] -> llm_relevantTopics r <> []).

(** A restart of the process on the file that [w] leaves behind. *)
Definition restart (env : Env) (path : string) (w : World) : World :=
  snd ((StateManager.module_init env;;; StateManager.new path)
         (Process.initial_world (w_file w))).

End Cover.
Export Cover.

(* ===================================================================== *)
(** ** Further concrete inputs *)
(* ===================================================================== *)

Module Cases.

(** [base] with the reply of the classification backend, the capture of the
    topic pattern, and the file-system write replaced. *)
Definition with_backend (base : Env)
    (create : nat -> LlmConfig -> string -> list string -> list Post -> Completion string)
    (capture : string -> string -> Completion (option string))
    (write : nat -> Completion unit) : Env :=
  mkEnv (clock_toISOString base) (date_parse base) (toLocaleString base)
        (api_getChannels base) (api_getPostsForChannel base) (api_getUserProfile base)
        (api_createPost base) create capture
        (fs_dir_exists base) (fs_mkdirSync base) write (fs_interrupted base)
        (cron_validate base) (cron_schedule base) (cron_task_stop base).

(** The topic pattern [new RegExp(`"${topic}"\\s*:\\s*\\[(.*?)\\]`, 'i')] on
    an ASCII text, for a topic of letters, digits and blanks, which the
    pattern reads as themselves. *)
Definition is_space (c : ascii) : bool :=
  let n := nat_of_ascii c in ((9 <=? n)%nat && (n <=? 13)%nat) || (n =? 32)%nat.

Definition is_line_terminator (c : ascii) : bool :=
  let n := nat_of_ascii c in (n =? 10)%nat || (n =? 13)%nat.

(** The characters of [literal], the case of letters aside; what follows. *)
Fixpoint skip_literal (literal text : string) : option string :=
  match literal, text with
  | EmptyString, _ => Some text
  | String a literal', String b text' =>
      if Ascii.eqb (lower_ascii a) (lower_ascii b) then skip_literal literal' text' else None
  | String _ _, EmptyString => None
  end.

(** [\s*] before a character that is no white space. *)
Fixpoint skip_spaces (text : string) : string :=
  match text with
  | String c text' => if is_space c then skip_spaces text' else text
  | EmptyString => text
  end.

Definition skip_char (c : ascii) (text : string) : option string :=
  match text with
  | String b text' => if Ascii.eqb b c then Some text' else None
  | EmptyString => None
  end.

(** [(.*?)\]]: the characters before the first closing bracket, none of
    them a line terminator. *)
Fixpoint capture_bracket (text : string) : option string :=
  match text with
  | EmptyString => None
  | String c text' =>
      if Ascii.eqb c "]"%char then Some EmptyString
      else if is_line_terminator c then None
      else option_map (String c) (capture_bracket text')
  end.

(** The pattern at the start of [text]: capture group 1. *)
Definition match_here (topic text : string) : option string :=
  match skip_literal (dquote +:+ topic +:+ dquote) text with
  | None => None
  | Some after_label =>
      match skip_char ":"%char (skip_spaces after_label) with
      | None => None
      | Some after_colon =>
          match skip_char "["%char (skip_spaces after_colon) with
          | None => None
          | Some after_bracket => capture_bracket after_bracket
          end
      end
  end.

(** [content.match(pattern)]: the leftmost match. *)
Fixpoint match_topic (topic content : string) : option string :=
  match match_here topic content with
  | Some capture => Some capture
  | None =>
      match content with
      | EmptyString => None
      | String _ content' => match_topic topic content'
      end
  end.

(** A reply in the format the prompt asks for: the first post under
    "Table Tennis", nothing under "chess", and the second post quoted
    behind the object. *)
Definition bracket_a : string := dquote +:+ Sample.id_a +:+ dquote.

Definition reply_per_topic : string :=
  "{" +:+ newline
  +:+ "  " +:+ dquote +:+ "topics" +:+ dquote +:+ ": {" +:+ newline
  +:+ "    " +:+ dquote +:+ "Table Tennis" +:+ dquote +:+ ": [" +:+ bracket_a +:+ "]," +:+ newline
  +:+ "    " +:+ dquote +:+ "chess" +:+ dquote +:+ ": []" +:+ newline
  +:+ "  }" +:+ newline
  +:+ "}" +:+ newline
  +:+ "The message " +:+ dquote +:+ Sample.id_b +:+ dquote +:+ " is about lunch.".

Definition capturing : Env :=
  with_backend Sample.env
    (fun _ _ _ _ _ => Normal reply_per_topic)
    (fun topic content => Normal (match_topic topic content))
    (fs_writeFileSync Sample.env).

(** A workspace with a bot, a member and an administrator, in this order,
    that runs the server as the bot and refuses to create a direct
    channel. *)
Definition bot : Startup.User :=
  Startup.mkUser "u0" "monitor-bot" (Startup.RolesText "system_user") true.
Definition member : Startup.User :=
  Startup.mkUser "u1" "alice" (Startup.RolesText "system_user") false.
Definition admin : Startup.User :=
  Startup.mkUser "u2" "root" (Startup.RolesText "system_user system_admin") false.

Definition api : Startup.Api :=
  Startup.mkApi (fun _ => Normal (Startup.UsersArray [bot; member; admin]))
                (fun _ => Normal (Startup.mkMe "u0" "monitor-bot"))
                (fun _ _ _ => Throw "403 Forbidden").

(** A workspace whose only administrator is a bot, listed behind a
    member. *)
Definition admin_bot : Startup.User :=
  Startup.mkUser "b1" "ops-bot" (Startup.RolesText "system_user system_admin") true.

Definition api_admin_bot : Startup.Api :=
  Startup.mkApi (fun _ => Normal (Startup.UsersArray [member; admin_bot]))
                (Startup.api_getMe api) (Startup.api_createDirectChannel api).

(** Workspaces that list the channels [listed]. *)
Definition private_team : Channel := mkChannel "c7" "core-team" "P".
Definition off_topic : Channel := mkChannel "c8" "off-topic" "O".

Definition listing (listed : list Channel) : Env :=
  mkEnv (clock_toISOString Sample.env) (date_parse Sample.env) (toLocaleString Sample.env)
        (fun _ => Normal (ChannelsArray listed))
        (api_getPostsForChannel Sample.env)
        (api_getUserProfile Sample.env) (api_createPost Sample.env)
        (llm_messages_create Sample.env) (regexp_topic_capture Sample.env)
        (fs_dir_exists Sample.env) (fs_mkdirSync Sample.env) (fs_writeFileSync Sample.env)
        (fs_interrupted Sample.env)
        (cron_validate Sample.env) (cron_schedule Sample.env) (cron_task_stop Sample.env).

(** A workspace that cannot list its users. *)
Definition api_down : Startup.Api :=
  Startup.mkApi (fun _ => Throw "connection refused")
                (Startup.api_getMe api) (Startup.api_createDirectChannel api).

(** Configuration files: a complete one, and one without the token. *)
Definition complete_file : Config.File :=
  Config.Parsed (Config.mk (Some "https://chat.example.org/api/v4") (Some "secret")
                           (Some "team1") (Some Sample.config)).

Definition tokenless_file : Config.File :=
  Config.Parsed (Config.mk (Some "https://chat.example.org/api/v4") None
                           (Some "team1") None).

(** A workspace with a second channel, listed first, whose posts cannot
    be fetched; and a monitor of both channels. *)
Definition broken : Channel := mkChannel "c0" "broken" "O".

Definition flaky : Env :=
  mkEnv (clock_toISOString Sample.env) (date_parse Sample.env) (toLocaleString Sample.env)
        (fun _ => Normal (ChannelsArray [broken; Sample.town_square]))
        (fun n channel since =>
           if String.eqb channel "c0" then Throw "500 Internal Server Error"
           else api_getPostsForChannel Sample.env n channel since)
        (api_getUserProfile Sample.env) (api_createPost Sample.env)
        (llm_messages_create Sample.env) (regexp_topic_capture Sample.env)
        (fs_dir_exists Sample.env) (fs_mkdirSync Sample.env) (fs_writeFileSync Sample.env)
        (fs_interrupted Sample.env)
        (cron_validate Sample.env) (cron_schedule Sample.env) (cron_task_stop Sample.env).

Definition monitor_of_both : TopicMonitor.t :=
  TopicMonitor.mk
    (mkMonitoringConfig true "*/5 * * * *" ["broken"; "town-square"] ["butterfly"] 50
                        "./monitor-state.json" true 10)
    (MessageAnalyzer.mk "./monitor-state.json" ["butterfly"] 50 None)
    (Some "admin") (Some "dm1").

(** A disk that refuses the write. *)
Definition read_only : Env :=
  with_backend Sample.env
    (llm_messages_create Sample.env) (regexp_topic_capture Sample.env)
    (fun _ => Throw "EROFS: read-only file system").

(** A disk that fills up during the write: the call throws after it has
    truncated the file and written the first character. *)
Definition filling_up : Env :=
  mkEnv (clock_toISOString Sample.env) (date_parse Sample.env) (toLocaleString Sample.env)
        (api_getChannels Sample.env) (api_getPostsForChannel Sample.env)
        (api_getUserProfile Sample.env) (api_createPost Sample.env)
        (llm_messages_create Sample.env) (regexp_topic_capture Sample.env)
        (fs_dir_exists Sample.env) (fs_mkdirSync Sample.env)
        (fun _ => Throw "ENOSPC: no space left on device")
        (fun _ _ => Unparsable "{")
        (cron_validate Sample.env) (cron_schedule Sample.env) (cron_task_stop Sample.env).

End Cases.

(* ===================================================================== *)
(** * Properties *)
(* ===================================================================== *)

(** ** The monad *)

Lemma never_throws_ret {A} (a : A) : never_throws (ret a).
Proof. intros w; reflexivity. Qed.

Lemma never_throws_get {A} (f : World -> A) : never_throws (get f).
Proof. intros w; reflexivity. Qed.

Lemma never_throws_modify (f : World -> World) : never_throws (modify f).
Proof. intros w; reflexivity. Qed.

Lemma never_throws_console_error (line : string) : never_throws (console_error line).
Proof. intros w; reflexivity. Qed.

Lemma never_throws_bind {A B} (m : M A) (k : A -> M B) :
  never_throws m -> (forall a, never_throws (k a)) -> never_throws (bind m k).
Proof.
  intros Hm Hk w. unfold bind. specialize (Hm w).
  destruct (m w) as [[a|e] w']; simpl in *; [apply Hk | discriminate].
Qed.

(** A [try] whose handler cannot throw cannot throw. *)
Lemma never_throws_try_catch {A} (body : M A) (handler : string -> M A) :
  (forall e, never_throws (handler e)) -> never_throws (try_catch body handler).
Proof.
  intros Hh w. unfold try_catch.
  destruct (body w) as [[a|e] w']; simpl; [reflexivity | apply Hh].
Qed.

Lemma never_throws_try_finally {A} (body : M A) (fin : World -> World) :
  never_throws body -> never_throws (try_finally body fin).
Proof.
  intros Hb w. unfold try_finally. specialize (Hb w).
  destruct (body w) as [r w']; exact Hb.
Qed.

Lemma never_throws_for_of {A} (l : list A) (body : A -> M unit) :
  (forall x, never_throws (body x)) -> never_throws (for_of l body).
Proof.
  intros Hb. induction l as [|x l IH]; simpl.
  - apply never_throws_ret.
  - apply never_throws_bind; [apply Hb | intros _; exact IH].
Qed.

Lemma normal_unit (c : Completion unit) : is_normal c = true -> c = Normal tt.
Proof. destruct c as [[]|e]; simpl; [reflexivity | discriminate]. Qed.

Create HintDb nothrow.

#[local] Hint Resolve never_throws_ret never_throws_get never_throws_modify
  never_throws_console_error never_throws_bind never_throws_try_catch
  never_throws_try_finally never_throws_for_of : nothrow.

(** ** The scheduler *)

Lemma runNow_never_throws (callback : M unit) :
  never_throws (MonitoringScheduler.runNow callback).
Proof.
  unfold MonitoringScheduler.runNow.
  apply never_throws_bind; [auto with nothrow|].
  intros [|]; auto 10 with nothrow.
Qed.

Lemma scheduled_tick_never_throws (env : Env) (callback : M unit) :
  never_throws (MonitoringScheduler.scheduled_tick env callback).
Proof.
  unfold MonitoringScheduler.scheduled_tick.
  apply never_throws_bind; [auto with nothrow|].
  intros [|]; [auto with nothrow|].
  apply never_throws_bind; [auto with nothrow|]. intros _.
  apply never_throws_bind; [intros w; reflexivity|]. intros now.
  auto 10 with nothrow.
Qed.

Lemma runNow_clears_flag (callback : M unit) (w : World) :
  w_isRunning w = false ->
  w_isRunning (snd (MonitoringScheduler.runNow callback w)) = false.
Proof.
  intros Hidle.
  unfold MonitoringScheduler.runNow, bind, get, modify, console_error, try_finally; simpl.
  rewrite Hidle; simpl.
  match goal with |- context [try_catch ?b ?h ?x] => destruct (try_catch b h x) as [r w'] end.
  reflexivity.
Qed.

Lemma scheduled_tick_clears_flag (env : Env) (callback : M unit) (w : World) :
  w_isRunning w = false ->
  w_isRunning (snd (MonitoringScheduler.scheduled_tick env callback w)) = false.
Proof.
  intros Hidle.
  unfold MonitoringScheduler.scheduled_tick, bind, get, modify, console_error,
    try_finally, external; simpl.
  rewrite Hidle; simpl.
  match goal with |- context [try_catch ?b ?h ?x] => destruct (try_catch b h x) as [r w'] end.
  reflexivity.
Qed.

Lemma runNow_in_flight (callback : M unit) (w : World) :
  w_isRunning w = true ->
  MonitoringScheduler.runNow callback w
  = console_error "Previous monitoring task is still running, cannot run now" w.
Proof.
  intros Hflag. unfold MonitoringScheduler.runNow, bind, get. simpl.
  rewrite Hflag. reflexivity.
Qed.

Lemma scheduled_tick_in_flight (env : Env) (callback : M unit) (w : World) :
  w_isRunning w = true ->
  MonitoringScheduler.scheduled_tick env callback w
  = console_error "Previous monitoring task is still running, skipping this run" w.
Proof.
  intros Hflag. unfold MonitoringScheduler.scheduled_tick, bind, get. simpl.
  rewrite Hflag. reflexivity.
Qed.

(** The flag is set while the callback runs: a [runNow] or a tick that
    arrives inside a cycle (at one of its awaits, after the part [before],
    which like all code of the cycle leaves the flag alone) is skipped, and
    the cycle goes on with [after]. *)
Lemma trigger_inside_a_cycle_is_skipped (env : Env) (before after inner : M unit) (w : World) :
  (forall w0, w_isRunning w0 = true -> w_isRunning (snd (before w0)) = true) ->
  w_isRunning w = false ->
  MonitoringScheduler.runNow (before;;; MonitoringScheduler.runNow inner;;; after) w
  = MonitoringScheduler.runNow
      (before;;;
       console_error "Previous monitoring task is still running, cannot run now";;;
       after) w
  /\ MonitoringScheduler.runNow
       (before;;; MonitoringScheduler.scheduled_tick env inner;;; after) w
     = MonitoringScheduler.runNow
         (before;;;
          console_error "Previous monitoring task is still running, skipping this run";;;
          after) w.
Proof.
  intros Hkeep Hidle.
  assert (Hsame : forall (m1 m2 : M unit),
            (forall w0, w_isRunning w0 = true -> m1 w0 = m2 w0) ->
            MonitoringScheduler.runNow m1 w = MonitoringScheduler.runNow m2 w).
  { intros m1 m2 Heq.
    unfold MonitoringScheduler.runNow, MonitoringScheduler.invoke, bind, get, modify,
      console_error, try_finally, try_catch. simpl. rewrite Hidle. simpl.
    rewrite Heq by reflexivity. reflexivity. }
  split; apply Hsame; intros w0 Hflag; unfold bind at 1; symmetry; unfold bind at 1;
    specialize (Hkeep w0 Hflag); destruct (before w0) as [[[]|e] w1]; simpl in *;
    try reflexivity; unfold bind.
  - rewrite (runNow_in_flight inner w1 Hkeep). reflexivity.
  - rewrite (scheduled_tick_in_flight env inner w1 Hkeep). reflexivity.
Qed.

(** C4. While the in-flight flag is set, [runNow] and the function a tick
    runs write one line to the console and return: the callback is not
    called, the world is otherwise the one before (no fetch, no marking, no
    notification, no write, the flag still set), and whatever runs later
    runs as after that line alone, so nothing was queued. *)
Theorem in_flight_trigger_is_skipped :
  forall (env : Env) (callback : M unit) (w : World),
    w_isRunning w = true ->
    let skipped_now :=
      console_error "Previous monitoring task is still running, cannot run now" in
    let skipped_tick :=
      console_error "Previous monitoring task is still running, skipping this run" in
    MonitoringScheduler.runNow callback w = skipped_now w
    /\ MonitoringScheduler.scheduled_tick env callback w = skipped_tick w
    /\ (forall w', w' = snd (MonitoringScheduler.runNow callback w)
                   \/ w' = snd (MonitoringScheduler.scheduled_tick env callback w) ->
          w_callback_runs w' = w_callback_runs w
          /\ same_but_console w w'
          /\ StateManager.posts_of w' = StateManager.posts_of w
          /\ w_fetches w' = w_fetches w
          /\ w_posted w' = w_posted w
          /\ w_file w' = w_file w
          /\ w_isRunning w' = true)
    /\ (forall (A : Type) (later : M A),
          bind (MonitoringScheduler.runNow callback) (fun _ => later) w
          = bind skipped_now (fun _ => later) w
          /\ bind (MonitoringScheduler.scheduled_tick env callback) (fun _ => later) w
             = bind skipped_tick (fun _ => later) w).
Proof.
  intros env callback w Hflag skipped_now skipped_tick.
  pose proof (runNow_in_flight callback w Hflag) as Hnow.
  pose proof (scheduled_tick_in_flight env callback w Hflag) as Htick.
  fold skipped_now in Hnow. fold skipped_tick in Htick.
  split; [exact Hnow|]. split; [exact Htick|]. split.
  - intros w' [-> | ->]; [rewrite Hnow | rewrite Htick];
      destruct w; simpl in *; repeat split; assumption.
  - intros A later. unfold bind. rewrite Hnow, Htick. split; reflexivity.
Qed.

Lemma in_flight_trigger_is_skipped_witness :
  w_isRunning Sample.in_flight = true
  /\ TopicMonitor.runNow Sample.env Sample.monitor Sample.in_flight
     = console_error "Previous monitoring task is still running, cannot run now"
         Sample.in_flight
  /\ TopicMonitor.tick Sample.env Sample.monitor Sample.in_flight
     = console_error "Previous monitoring task is still running, skipping this run"
         Sample.in_flight.
Proof.
  split; [reflexivity|].
  destruct (in_flight_trigger_is_skipped Sample.env
              (TopicMonitor.runMonitoring Sample.env Sample.monitor)
              Sample.in_flight eq_refl) as (Hnow & Htick & _).
  split; [exact Hnow | exact Htick].
Defined.

(** C5. No exception leaves [runNow] or the function a tick runs, whatever
    the callback does; and when they run the callback (the flag was clear)
    the flag is clear again when they return, after a normal return of the
    callback and after a throw alike. *)
Theorem scheduler_boundary_catches_and_clears :
  forall (env : Env) (callback : M unit) (w : World),
    fst (MonitoringScheduler.runNow callback w) = Normal tt
    /\ fst (MonitoringScheduler.scheduled_tick env callback w) = Normal tt
    /\ (w_isRunning w = false ->
        w_isRunning (snd (MonitoringScheduler.runNow callback w)) = false
        /\ w_isRunning (snd (MonitoringScheduler.scheduled_tick env callback w)) = false).
Proof.
  intros env callback w. split; [|split].
  - apply normal_unit, runNow_never_throws.
  - apply normal_unit, scheduled_tick_never_throws.
  - intros Hidle. split.
    + apply runNow_clears_flag, Hidle.
    + apply scheduled_tick_clears_flag, Hidle.
Qed.

Lemma scheduler_boundary_catches_and_clears_witness :
  w_isRunning Sample.idle = false
  /\ fst (MonitoringScheduler.runNow Sample.failing Sample.idle) = Normal tt
  /\ w_isRunning (snd (MonitoringScheduler.runNow Sample.failing Sample.idle)) = false
  /\ w_isRunning (snd (MonitoringScheduler.scheduled_tick Sample.env Sample.failing
                         Sample.idle)) = false.
Proof.
  destruct (scheduler_boundary_catches_and_clears Sample.env Sample.failing Sample.idle)
    as (Hnow & _ & Hclear).
  destruct (Hclear eq_refl) as [Hc1 Hc2].
  split; [reflexivity|]. split; [exact Hnow|]. split; [exact Hc1 | exact Hc2].
Defined.

(** ** The monitor and the run-now tool *)

Lemma runMonitoring_never_throws (env : Env) (self : TopicMonitor.t) :
  never_throws (TopicMonitor.runMonitoring env self).
Proof.
  unfold TopicMonitor.runMonitoring. apply never_throws_try_catch.
  intros e. apply never_throws_console_error.
Qed.

(** C10. With a monitor instance set, [handleRunMonitoring] answers the
    success payload with the fixed message and no [isError], from every
    world (a cycle in flight included) and in every environment (every
    channel failing included); it answers an error exactly when no
    instance is set. *)
Theorem handleRunMonitoring_succeeds_iff_instance :
  forall (env : Env) (instance : option TopicMonitor.t) (w : World),
    (forall monitor, instance = Some monitor ->
       Tools.handleRunMonitoring env instance w
       = (Normal (Tools.mkToolResult
                    (Tools.SuccessPayload true "Monitoring process completed successfully")
                    None),
          snd (TopicMonitor.runNow env monitor w)))
    /\ (instance = None ->
        Tools.handleRunMonitoring env instance w
        = (Normal (Tools.mkToolResult
                     (Tools.ErrorPayload "Monitoring is not enabled or initialized")
                     (Some true)), w))
    /\ (forall result, fst (Tools.handleRunMonitoring env instance w) = Normal result ->
          Tools.isError result = Some true <-> instance = None)
    /\ is_normal (fst (Tools.handleRunMonitoring env instance w)) = true.
Proof.
  intros env instance w.
  assert (Hsome : forall monitor, instance = Some monitor ->
            Tools.handleRunMonitoring env instance w
            = (Normal (Tools.mkToolResult
                         (Tools.SuccessPayload true "Monitoring process completed successfully")
                         None),
               snd (TopicMonitor.runNow env monitor w))).
  { intros monitor ->. unfold Tools.handleRunMonitoring, try_catch, bind.
    pose proof (runNow_never_throws (TopicMonitor.runMonitoring env monitor) w) as Hn.
    unfold TopicMonitor.runNow.
    destruct (MonitoringScheduler.runNow _ w) as [[[]|e] w']; simpl in *;
      [reflexivity | discriminate]. }
  split; [exact Hsome|]. split; [intros ->; reflexivity|]. split.
  - intros result Hres. destruct instance as [monitor|].
    + rewrite (Hsome monitor eq_refl) in Hres. simpl in Hres.
      injection Hres as <-. simpl. split; discriminate.
    + simpl in Hres. injection Hres as <-. simpl. split; reflexivity.
  - destruct instance as [monitor|]; [rewrite (Hsome monitor eq_refl)|]; reflexivity.
Qed.

Lemma handleRunMonitoring_succeeds_iff_instance_witness :
  fst (Tools.handleRunMonitoring Sample.env (Some Sample.monitor) Sample.in_flight)
  = Normal (Tools.mkToolResult
              (Tools.SuccessPayload true "Monitoring process completed successfully") None).
Proof.
  destruct (handleRunMonitoring_succeeds_iff_instance Sample.env (Some Sample.monitor)
              Sample.in_flight) as (Hsome & _).
  rewrite (Hsome Sample.monitor eq_refl). reflexivity.
Defined.

(** ** The state manager *)

Lemma posts_of_write_posts (m : PostsMap) (w : World) :
  StateManager.posts_of (StateManager.write_posts m w) = m.
Proof.
  unfold StateManager.posts_of, StateManager.write_posts.
  destruct (processedPosts (w_state w)) eqn:E; simpl; [rewrite E|]; reflexivity.
Qed.

Lemma fetches_write_posts (m : PostsMap) (w : World) :
  w_fetches (StateManager.write_posts m w) = w_fetches w.
Proof.
  unfold StateManager.write_posts. destruct (processedPosts (w_state w)); reflexivity.
Qed.

Lemma arr_includes_elem (l : list string) (x : string) :
  arr_includes l x = true <-> x ∈ l.
Proof. unfold arr_includes. apply bool_decide_eq_true. Qed.

(** What one call of [markPostProcessed] does: it returns, the id is put
    behind the ids of its channel unless it is among them, and the other
    channels keep theirs. *)
Lemma markPostProcessed_spec (c p : string) (w : World) :
  exists w',
    StateManager.markPostProcessed c p w = (Normal tt, w')
    /\ StateManager.getProcessedPostIds c w'
       = (let l := StateManager.getProcessedPostIds c w in
          if arr_includes l p then l else l ++ [p])
    /\ (forall c', c' <> c ->
          StateManager.getProcessedPostIds c' w' = StateManager.getProcessedPostIds c' w)
    /\ w_fetches w' = w_fetches w.
Proof.
  unfold StateManager.markPostProcessed, StateManager.getProcessedPostIds,
    StateManager.isPostProcessed, StateManager.push_processed, bind, get, modify, ret.
  simpl. destruct (StateManager.posts_of w !! c) as [l|] eqn:Hc; simpl.
  - rewrite Hc. simpl. destruct (arr_includes l p) eqn:Hin; simpl.
    + eexists; split; [reflexivity|]. rewrite ?Hc; simpl; rewrite ?Hin. auto.
    + rewrite Hc. eexists; split; [reflexivity|].
      rewrite posts_of_write_posts, lookup_insert_eq. simpl. rewrite ?Hin.
      split; [reflexivity|]. split; [|apply fetches_write_posts].
      intros c' Hne. rewrite lookup_insert_ne by congruence. reflexivity.
  - repeat (rewrite ?posts_of_write_posts, ?lookup_insert_eq; simpl).
    eexists; split; [reflexivity|].
    repeat (rewrite ?posts_of_write_posts, ?lookup_insert_eq; simpl).
    split; [reflexivity|]. split; [|rewrite !fetches_write_posts; reflexivity].
    intros c' Hne. rewrite !lookup_insert_ne by congruence. reflexivity.
Qed.

Lemma markPostProcessed_never_throws (c p : string) :
  never_throws (StateManager.markPostProcessed c p).
Proof.
  intros w. destruct (markPostProcessed_spec c p w) as (w' & -> & _). reflexivity.
Qed.

(** A processed id: the call changes nothing at all. *)
Lemma markPostProcessed_processed (c p : string) (w : World) :
  processed c p w -> StateManager.markPostProcessed c p w = (Normal tt, w).
Proof.
  unfold processed, StateManager.markPostProcessed, StateManager.isPostProcessed,
    bind, get, modify, ret. simpl. intros Hin.
  destruct (StateManager.posts_of w !! c) as [l|] eqn:Hc; simpl in *.
  - rewrite Hc; simpl. rewrite Hin. reflexivity.
  - discriminate.
Qed.

Lemma markPostProcessed_marks (c p : string) (w : World) :
  processed c p (snd (StateManager.markPostProcessed c p w)).
Proof.
  destruct (markPostProcessed_spec c p w) as (w' & -> & Hc & _ & _). simpl.
  unfold processed, StateManager.isPostProcessed.
  change (default [] (StateManager.posts_of w' !! c))
    with (StateManager.getProcessedPostIds c w').
  rewrite Hc. simpl.
  destruct (arr_includes (StateManager.getProcessedPostIds c w) p) eqn:Hin; [exact Hin|].
  apply arr_includes_elem, elem_of_app. right. apply list_elem_of_singleton. reflexivity.
Qed.

Lemma markPostsProcessed_replicate_processed (c p : string) (n : nat) (w : World) :
  processed c p w ->
  StateManager.markPostsProcessed c (replicate n p) w = (Normal tt, w).
Proof.
  intros Hp. unfold StateManager.markPostsProcessed.
  induction n as [|n IH]; simpl; [reflexivity|].
  unfold bind. rewrite (markPostProcessed_processed c p w Hp). exact IH.
Qed.

(** A channel id that is among the keys has its array. *)
Lemma member_processed (c p : string) (w : World) :
  processed c p w ->
  exists l, StateManager.AnyKey.member c w = StateManager.AnyKey.Ids l
            /\ arr_includes l p = true.
Proof.
  unfold processed, StateManager.isPostProcessed, StateManager.AnyKey.member.
  destruct (StateManager.posts_of w !! c) as [l|]; simpl; intros Hin.
  - exists l. split; [reflexivity | exact Hin].
  - discriminate.
Qed.

Lemma member_own_key (c : string) (w : World) :
  own_keys [c] = true -> StateManager.AnyKey.member c w <> StateManager.AnyKey.Inherited.
Proof.
  unfold own_keys, StateManager.AnyKey.member. simpl. rewrite andb_true_r.
  intros Hc. destruct (StateManager.posts_of w !! c); [discriminate|].
  destruct (arr_includes inherited_names c); [discriminate | discriminate].
Qed.

(** Where the channel id reads no inherited member, the calls are the
    calls on the own keys. *)
Lemma AnyKey_isPostProcessed_own (c p : string) (w : World) :
  StateManager.AnyKey.member c w <> StateManager.AnyKey.Inherited ->
  StateManager.AnyKey.isPostProcessed c p w = (Normal (StateManager.isPostProcessed c p w), w).
Proof.
  unfold StateManager.AnyKey.isPostProcessed, StateManager.isPostProcessed,
    StateManager.AnyKey.member, bind, get, ret.
  destruct (StateManager.posts_of w !! c) as [l|]; simpl; [reflexivity|].
  destruct (arr_includes inherited_names c); [intros H; destruct H|]; reflexivity.
Qed.

Lemma AnyKey_markPostProcessed_own (c p : string) (w : World) :
  StateManager.AnyKey.member c w <> StateManager.AnyKey.Inherited ->
  StateManager.AnyKey.markPostProcessed c p w = StateManager.markPostProcessed c p w.
Proof.
  unfold StateManager.AnyKey.markPostProcessed, StateManager.markPostProcessed,
    StateManager.AnyKey.isPostProcessed, StateManager.isPostProcessed,
    StateManager.AnyKey.push_processed, StateManager.push_processed,
    StateManager.AnyKey.member, bind, get, modify, ret.
  destruct (StateManager.posts_of w !! c) as [l|] eqn:Hc; simpl.
  - intros _. rewrite Hc. simpl. destruct (arr_includes l p); simpl; [reflexivity|].
    rewrite Hc. reflexivity.
  - destruct (arr_includes inherited_names c); [intros H; destruct H; reflexivity|].
    intros _. simpl.
    repeat (rewrite ?posts_of_write_posts, ?lookup_insert_eq; simpl). reflexivity.
Qed.

(** Where it reads an inherited member, they throw and change nothing. *)
Lemma AnyKey_markPostProcessed_inherited (c p : string) (w : World) :
  StateManager.AnyKey.member c w = StateManager.AnyKey.Inherited ->
  StateManager.AnyKey.markPostProcessed c p w
  = (Throw "TypeError: channelPosts.includes is not a function", w).
Proof.
  intros Hm.
  unfold StateManager.AnyKey.markPostProcessed, StateManager.AnyKey.isPostProcessed,
    bind, get, modify, ret, throw.
  rewrite Hm. simpl. rewrite Hm. reflexivity.
Qed.

Lemma AnyKey_replicate_processed (c p : string) (n : nat) (w : World) :
  processed c p w ->
  StateManager.AnyKey.markPostsProcessed c (replicate n p) w = (Normal tt, w).
Proof.
  intros Hp. unfold StateManager.AnyKey.markPostsProcessed.
  induction n as [|n IH]; simpl; [reflexivity|].
  unfold bind. rewrite AnyKey_markPostProcessed_own.
  - rewrite (markPostProcessed_processed c p w Hp). exact IH.
  - destruct (member_processed c p w Hp) as (l & -> & _). discriminate.
Qed.

(** The marks of a list of own keys are the marks on the own keys. *)
Lemma AnyKey_marks_own (marks : list (string * string)) (w : World) :
  own_keys (map fst marks) = true ->
  for_of marks (fun cp => StateManager.AnyKey.markPostProcessed (fst cp) (snd cp)) w
  = for_of marks (fun cp => StateManager.markPostProcessed (fst cp) (snd cp)) w.
Proof.
  revert w. induction marks as [|[c0 p0] marks IH]; intros w Hown; simpl; [reflexivity|].
  unfold own_keys in Hown. simpl in Hown. apply andb_true_iff in Hown as [Hc0 Hrest].
  unfold bind. rewrite AnyKey_markPostProcessed_own.
  - destruct (StateManager.markPostProcessed c0 p0 w) as [[[]|e] w']; [|reflexivity].
    apply IH. exact Hrest.
  - apply member_own_key. unfold own_keys. simpl. rewrite Hc0. reflexivity.
Qed.

(** C9. For a channel id that is a key of the dictionary, or that names
    no member inherited from [Object.prototype], [markPostProcessed]
    returns without an error; a second call, and any number of further
    calls, return without an error and leave the world, hence the processed
    set, as the first call left it.  For a channel id that is no key and
    names an inherited member ([constructor], [__proto__], [toString], ...)
    the first call already throws a [TypeError] and changes nothing, and so
    does every sequence of calls. *)
Theorem markPostProcessed_idempotent_unless_inherited :
  forall (channelId postId : string) (w : World),
    let once := StateManager.AnyKey.markPostProcessed channelId postId w in
    (own_keys [channelId] = true ->
     StateManager.AnyKey.member channelId w <> StateManager.AnyKey.Inherited)
    /\ match StateManager.AnyKey.member channelId w with
       | StateManager.AnyKey.Inherited =>
           once = (Throw "TypeError: channelPosts.includes is not a function", w)
           /\ (forall n, StateManager.AnyKey.markPostsProcessed
                           channelId (replicate (S n) postId) w = once)
       | _ =>
           fst once = Normal tt
           /\ StateManager.AnyKey.isPostProcessed channelId postId (snd once)
              = (Normal true, snd once)
           /\ StateManager.AnyKey.markPostProcessed channelId postId (snd once)
              = (Normal tt, snd once)
           /\ (forall n, StateManager.AnyKey.markPostsProcessed
                           channelId (replicate n postId) (snd once)
                         = (Normal tt, snd once))
           /\ (forall n, StateManager.AnyKey.markPostsProcessed
                           channelId (replicate (S n) postId) w = once)
       end.
Proof.
  intros c p w once. split; [apply member_own_key|].
  assert (Hown : StateManager.AnyKey.member c w <> StateManager.AnyKey.Inherited ->
            fst once = Normal tt
            /\ StateManager.AnyKey.isPostProcessed c p (snd once) = (Normal true, snd once)
            /\ StateManager.AnyKey.markPostProcessed c p (snd once) = (Normal tt, snd once)
            /\ (forall n, StateManager.AnyKey.markPostsProcessed c (replicate n p) (snd once)
                          = (Normal tt, snd once))
            /\ (forall n, StateManager.AnyKey.markPostsProcessed c (replicate (S n) p) w
                          = once)).
  { intros Hm. subst once. rewrite (AnyKey_markPostProcessed_own c p w Hm).
    pose proof (markPostProcessed_marks c p w) as Hmarked.
    destruct (markPostProcessed_spec c p w) as (w' & Heq & _).
    rewrite Heq in *. simpl in *.
    destruct (member_processed c p w' Hmarked) as (l & Hl & Hin).
    assert (Hm' : StateManager.AnyKey.member c w' <> StateManager.AnyKey.Inherited)
      by (rewrite Hl; discriminate).
    split; [reflexivity|].
    split; [rewrite (AnyKey_isPostProcessed_own c p w' Hm'); f_equal; f_equal; exact Hmarked|].
    split; [rewrite (AnyKey_markPostProcessed_own c p w' Hm');
            apply markPostProcessed_processed, Hmarked|].
    split; [intros n; apply AnyKey_replicate_processed, Hmarked|].
    intros n. unfold StateManager.AnyKey.markPostsProcessed. simpl. unfold bind at 1.
    rewrite (AnyKey_markPostProcessed_own c p w Hm), Heq.
    apply (AnyKey_replicate_processed c p n w' Hmarked). }
  destruct (StateManager.AnyKey.member c w) eqn:Hm.
  - apply Hown. discriminate.
  - pose proof (AnyKey_markPostProcessed_inherited c p w Hm) as Hthrow.
    subst once. split; [exact Hthrow|].
    intros n. unfold StateManager.AnyKey.markPostsProcessed. simpl. unfold bind at 1.
    rewrite Hthrow. reflexivity.
  - apply Hown. discriminate.
Qed.

(** On a dictionary without the key [constructor], marking a post of the
    channel id [constructor] throws. *)
Lemma markPostProcessed_throws_at_constructor :
  StateManager.AnyKey.markPostProcessed "constructor" Sample.id_a Sample.idle
  = (Throw "TypeError: channelPosts.includes is not a function", Sample.idle)
  /\ StateManager.AnyKey.markPostsProcessed "constructor" [Sample.id_a; Sample.id_a] Sample.idle
     = (Throw "TypeError: channelPosts.includes is not a function", Sample.idle).
Proof. split; vm_compute; reflexivity. Qed.

Lemma isPostProcessed_ids (c p : string) (w : World) :
  StateManager.isPostProcessed c p w
  = arr_includes (StateManager.getProcessedPostIds c w) p.
Proof. reflexivity. Qed.

Lemma isPostProcessed_after_mark (c p c' p' : string) (w : World) :
  StateManager.isPostProcessed c' p' (snd (StateManager.markPostProcessed c p w))
  = StateManager.isPostProcessed c' p' w || bool_decide (c' = c /\ p' = p).
Proof.
  destruct (markPostProcessed_spec c p w) as (w' & -> & Hc & Hother & _). simpl.
  rewrite !isPostProcessed_ids.
  destruct (decide (c' = c)) as [->|Hne].
  - rewrite Hc. simpl.
    destruct (arr_includes (StateManager.getProcessedPostIds c w) p) eqn:Hin.
    + destruct (decide (p' = p)) as [->|Hp].
      * rewrite Hin. reflexivity.
      * rewrite (bool_decide_eq_false_2 (c = c /\ p' = p)) by tauto.
        rewrite orb_false_r. reflexivity.
    + unfold arr_includes in *. apply bool_decide_eq_false in Hin.
      destruct (decide (p' = p)) as [->|Hp].
      * rewrite (bool_decide_eq_true_2 (c = c /\ p = p)) by tauto.
        rewrite orb_true_r. apply bool_decide_eq_true_2, elem_of_app. right.
        apply list_elem_of_singleton. reflexivity.
      * rewrite (bool_decide_eq_false_2 (c = c /\ p' = p)) by tauto.
        rewrite orb_false_r. apply bool_decide_ext.
        rewrite elem_of_app, list_elem_of_singleton. tauto.
  - rewrite (Hother c' Hne).
    rewrite (bool_decide_eq_false_2 (c' = c /\ p' = p)) by tauto.
    rewrite orb_false_r. reflexivity.
Qed.

(** After any marks, exactly the ids processed before and the marked ones
    are processed. *)
Lemma isPostProcessed_after_marks (marks : list (string * string)) (c p : string) (w : World) :
  let run := for_of marks (fun cp => StateManager.markPostProcessed (fst cp) (snd cp)) w in
  fst run = Normal tt
  /\ StateManager.isPostProcessed c p (snd run)
     = StateManager.isPostProcessed c p w || bool_decide ((c, p) ∈ marks).
Proof.
  revert w. induction marks as [|[c0 p0] marks IH]; intros w; simpl.
  - split; [reflexivity|].
    destruct (StateManager.isPostProcessed c p w); simpl;
      first [reflexivity | symmetry; apply bool_decide_eq_false_2, not_elem_of_nil].
  - unfold bind. pose proof (isPostProcessed_after_mark c0 p0 c p w) as Hone.
    destruct (markPostProcessed_spec c0 p0 w) as (w' & Heq & _).
    rewrite Heq in *. simpl in *.
    destruct (IH w') as [Hn Hp]. split; [exact Hn|].
    rewrite Hp, Hone, <- orb_assoc. f_equal.
    destruct (decide (c = c0 /\ p = p0)) as [[-> ->]|Hne].
    + rewrite (bool_decide_eq_true_2 (c0 = c0 /\ p0 = p0)) by tauto.
      rewrite (bool_decide_eq_true_2 ((c0, p0) ∈ (c0, p0) :: marks)) by apply list_elem_of_here.
      reflexivity.
    + rewrite (bool_decide_eq_false_2 (c = c0 /\ p = p0)) by exact Hne. simpl.
      apply bool_decide_ext. rewrite elem_of_cons.
      split; [tauto|]. intros [Heq'|Hin]; [|exact Hin].
      injection Heq' as -> ->. tauto.
Qed.

(** The constructor without the cast, of a record of the declared shape,
    is the constructor. *)
Lemma Unchecked_new_declared (path : string) (w : World) :
  StateManager.Unchecked.new path (StateManager.Unchecked.Declared (w_file w)) w
  = (let '(done, w') := StateManager.new path w in
     (match done with
      | Normal _ => Normal StateManager.Unchecked.Typed
      | Throw error => Throw error
      end, w')).
Proof.
  unfold StateManager.Unchecked.new, StateManager.new, StateManager.Unchecked.loadState,
    StateManager.loadState, try_catch, bind, get, lift, ret, modify, console_error.
  destruct (w_file w); reflexivity.
Qed.

(** C7. When the backing record is absent, or reading or parsing it
    throws, constructing the state manager completes normally with the
    default state: no processed id, [lastRun] the time taken when the module
    was evaluated (not the time of the load); a record that is there and
    fails is reported on the console, once.  On that state every sequence
    of marks at channel ids that name no member inherited from
    [Object.prototype] completes normally, after which exactly the marked
    ids are processed, and a further lookup and a further mark at such a
    channel id complete normally. *)
Theorem loadState_defaults_when_absent_or_throwing :
  forall (env : Env) (path : string) (file : StateFile),
    absent_or_throwing file = true ->
    let loaded := (StateManager.module_init env;;;
                   StateManager.Unchecked.new path (StateManager.Unchecked.Declared file))
                    (Process.initial_world file) in
    let w := snd loaded in
    let this := StateManager.Unchecked.Typed in
    fst loaded = Normal this
    /\ StateManager.getAllProcessedPosts w = ∅
    /\ lastRun (w_state w) = clock_toISOString env 0
    /\ w_file w = file
    /\ (if StateManager.existsSync file
        then exists error, w_console w = ["Error loading state from " +:+ path +:+ ": " +:+ error]
        else w_console w = [])
    /\ (forall (marks : list (string * string)) (c p : string),
          own_keys (c :: map fst marks) = true ->
          let marked := for_of marks (fun cp => StateManager.Unchecked.markPostProcessed
                                                  this (fst cp) (snd cp)) w in
          fst marked = Normal tt
          /\ StateManager.Unchecked.isPostProcessed this c p (snd marked)
             = (Normal (bool_decide ((c, p) ∈ marks)), snd marked)
          /\ fst (StateManager.Unchecked.markPostProcessed this c p (snd marked)) = Normal tt).
Proof.
  intros env path file Hbad loaded w this.
  assert (Hempty : forall c p, StateManager.isPostProcessed c p w = false
                               /\ StateManager.getAllProcessedPosts w = ∅).
  { intros c p. subst w loaded. destruct file; try discriminate; split; reflexivity. }
  split; [subst loaded; destruct file; try discriminate; reflexivity|].
  split; [apply (Hempty EmptyString EmptyString)|].
  split; [subst w loaded; destruct file; try discriminate; reflexivity|].
  split; [subst w loaded; destruct file; try discriminate; reflexivity|].
  split.
  - subst w loaded. destruct file; try discriminate; simpl; [reflexivity | |];
      eexists; reflexivity.
  - intros marks c p Hown marked. subst marked this.
    unfold own_keys in Hown. simpl in Hown. apply andb_true_iff in Hown as [Hc Hmarks].
    assert (Hc' : own_keys [c] = true) by (unfold own_keys; simpl; rewrite Hc; reflexivity).
    change (for_of marks _ w)
      with (for_of marks (fun cp => StateManager.AnyKey.markPostProcessed (fst cp) (snd cp)) w).
    rewrite (AnyKey_marks_own marks w Hmarks).
    destruct (isPostProcessed_after_marks marks c p w) as [Hn Hp].
    split; [exact Hn|]. simpl. split.
    + rewrite AnyKey_isPostProcessed_own by (apply member_own_key, Hc').
      rewrite Hp. destruct (Hempty c p) as [-> _]. reflexivity.
    + rewrite AnyKey_markPostProcessed_own by (apply member_own_key, Hc').
      apply normal_unit, markPostProcessed_never_throws.
Qed.

Lemma loadState_defaults_when_absent_or_throwing_witness :
  let loaded := (StateManager.module_init Sample.env;;;
                 StateManager.Unchecked.new "./monitor-state.json"
                   (StateManager.Unchecked.Declared (Unparsable "{ lastRun: ")))
                  (Process.initial_world (Unparsable "{ lastRun: ")) in
  absent_or_throwing (Unparsable "{ lastRun: ") = true
  /\ fst loaded = Normal StateManager.Unchecked.Typed
  /\ StateManager.getAllProcessedPosts (snd loaded) = ∅
  /\ w_console (snd loaded)
     = ["Error loading state from ./monitor-state.json: SyntaxError: Unexpected token in JSON"]
  /\ StateManager.Unchecked.isPostProcessed StateManager.Unchecked.Typed "c1" Sample.id_a
       (snd (StateManager.Unchecked.markPostProcessed StateManager.Unchecked.Typed
               "c1" Sample.id_a (snd loaded)))
     = (Normal true,
        snd (StateManager.Unchecked.markPostProcessed StateManager.Unchecked.Typed
               "c1" Sample.id_a (snd loaded))).
Proof.
  intros loaded. split; [reflexivity|].
  destruct (loadState_defaults_when_absent_or_throwing Sample.env "./monitor-state.json"
              (Unparsable "{ lastRun: ") eq_refl) as (Hret & Hempty & _ & _ & _ & Hmarks).
  split; [exact Hret|]. split; [exact Hempty|]. split; [vm_compute; reflexivity|].
  destruct (Hmarks [("c1", Sample.id_a)] "c1" Sample.id_a eq_refl) as (_ & Hfound & _).
  exact Hfound.
Defined.

(** Loads that the default does not cover as a reader of "corrupt", "now"
    and "succeed" expects.  A record whose text is [null], or [{}], is
    JSON: the constructor completes without a line on the console and
    without the default state, and every later lookup and mark throws (the
    record is an argument of this constructor; the file of the world, which
    describes records of the declared shape, is not read).  With a clock
    that moves on, the [lastRun] of the default state is the time at which
    the module was evaluated, not the time of the load.  And on the default
    state a mark at the channel id [constructor] throws. *)
Lemma load_is_not_always_a_usable_default :
  let null_record := (StateManager.module_init Sample.env;;;
                      StateManager.Unchecked.new "./monitor-state.json"
                        (StateManager.Unchecked.OtherShape StateManager.Unchecked.NullValue))
                       (Process.initial_world Absent) in
  let this := StateManager.Unchecked.Untyped StateManager.Unchecked.NullValue in
  let empty_object := (StateManager.module_init Sample.env;;;
                       StateManager.Unchecked.new "./monitor-state.json"
                         (StateManager.Unchecked.OtherShape
                            StateManager.Unchecked.NoProcessedPosts))
                        (Process.initial_world Absent) in
  let that := StateManager.Unchecked.Untyped StateManager.Unchecked.NoProcessedPosts in
  let absent := (StateManager.module_init Sample.ticking;;;
                 StateManager.Unchecked.new "./monitor-state.json"
                   (StateManager.Unchecked.Declared Absent))
                  (Process.initial_world Absent) in
  (fst null_record = Normal this
   /\ w_console (snd null_record) = []
   /\ fst (StateManager.Unchecked.isPostProcessed this "c1" Sample.id_a (snd null_record))
      = Throw "TypeError: Cannot read properties of null (reading 'processedPosts')"
   /\ fst (StateManager.Unchecked.markPostProcessed this "c1" Sample.id_a (snd null_record))
      = Throw "TypeError: Cannot read properties of null (reading 'processedPosts')")
  /\ (fst empty_object = Normal that
      /\ w_console (snd empty_object) = []
      /\ fst (StateManager.Unchecked.isPostProcessed that "c1" Sample.id_a (snd empty_object))
         = Throw "TypeError: Cannot read properties of undefined (reading 'c1')"
      /\ fst (StateManager.Unchecked.markPostProcessed that "c1" Sample.id_a
                (snd empty_object))
         = Throw "TypeError: Cannot read properties of undefined (reading 'c1')")
  /\ (fst absent = Normal StateManager.Unchecked.Typed
      /\ lastRun (w_state (snd absent)) = "2026-01-01T00:00:00.000Z"
      /\ clock_toISOString Sample.ticking 1 = "2026-01-01T00:05:00.000Z"
      /\ w_calls (snd absent) = 1)
  /\ fst (StateManager.Unchecked.markPostProcessed StateManager.Unchecked.Typed
            "constructor" Sample.id_a (snd absent))
     = Throw "TypeError: channelPosts.includes is not a function".
Proof. vm_compute. repeat split; reflexivity. Qed.

(** The default is a shallow copy: a state manager constructed later in
    the same process from an absent record shares the dictionary of the
    first one.  The process constructs one state manager. *)
Remark default_dictionary_is_shared :
  let first := snd ((StateManager.module_init Sample.env;;;
                     StateManager.new "./a.json";;;
                     StateManager.markPostProcessed "c1" Sample.id_a)
                      (Process.initial_world Absent)) in
  let second := snd (StateManager.new "./b.json" first) in
  StateManager.isPostProcessed "c1" Sample.id_a second = true.
Proof. vm_compute. reflexivity. Qed.

(** ** What a run may change *)

Section Steps.

(** A preorder on worlds that depends on the processed dictionary and on
    the fetch requests only, with what it admits of each. *)
Variable R : World -> World -> Prop.
Variable ok_fetch : string -> Z -> Prop.
Hypothesis R_refl : forall w, R w w.
Hypothesis R_trans : forall w1 w2 w3, R w1 w2 -> R w2 w3 -> R w1 w3.
Hypothesis R_grow :
  forall w w', w_fetches w' = w_fetches w -> grows w w' -> R w w'.
Hypothesis R_fetch :
  forall w c l, ok_fetch c l -> R w (set_fetches ((c, l) :: w_fetches w) w).

Lemma R_neutral (w w' : World) :
  StateManager.posts_of w' = StateManager.posts_of w ->
  w_fetches w' = w_fetches w -> R w w'.
Proof.
  intros Hposts Hfetches. apply R_grow; [exact Hfetches|].
  intros c. unfold StateManager.getProcessedPostIds. rewrite Hposts. reflexivity.
Qed.

Lemma steps_ret {A} (a : A) : steps R (ret a).
Proof. intros w; apply R_refl. Qed.

Lemma steps_throw {A} (e : string) : steps R (@throw A e).
Proof. intros w; apply R_refl. Qed.

Lemma steps_get {A} (f : World -> A) : steps R (get f).
Proof. intros w; apply R_refl. Qed.

Lemma steps_lift {A} (c : Completion A) : steps R (lift c).
Proof. intros w; apply R_refl. Qed.

Lemma steps_modify (f : World -> World) :
  (forall w, R w (f w)) -> steps R (modify f).
Proof. intros Hf w; apply Hf. Qed.

Lemma steps_console_error (line : string) : steps R (console_error line).
Proof. apply steps_modify. intros w. apply R_neutral; reflexivity. Qed.

Lemma steps_external {A} (oracle : nat -> Completion A) : steps R (external oracle).
Proof. intros w. apply R_neutral; reflexivity. Qed.

Lemma steps_bind {A B} (m : M A) (k : A -> M B) :
  steps R m -> (forall a, steps R (k a)) -> steps R (bind m k).
Proof.
  intros Hm Hk w. unfold bind. specialize (Hm w).
  destruct (m w) as [[a|e] w']; simpl in *; [|exact Hm].
  eapply R_trans; [exact Hm | apply Hk].
Qed.

Lemma steps_try_catch {A} (body : M A) (handler : string -> M A) :
  steps R body -> (forall e, steps R (handler e)) -> steps R (try_catch body handler).
Proof.
  intros Hb Hh w. unfold try_catch. specialize (Hb w).
  destruct (body w) as [[a|e] w']; simpl in *; [exact Hb|].
  eapply R_trans; [exact Hb | apply Hh].
Qed.

Lemma steps_try_finally {A} (body : M A) (fin : World -> World) :
  steps R body -> (forall w, R w (fin w)) -> steps R (try_finally body fin).
Proof.
  intros Hb Hf w. unfold try_finally. specialize (Hb w).
  destruct (body w) as [r w']; simpl in *.
  eapply R_trans; [exact Hb | apply Hf].
Qed.

Lemma steps_for_of {A} (l : list A) (body : A -> M unit) :
  (forall x, steps R (body x)) -> steps R (for_of l body).
Proof.
  intros Hb. induction l as [|x l IH]; simpl.
  - apply steps_ret.
  - apply steps_bind; [apply Hb | intros _; exact IH].
Qed.

Lemma steps_writeFileSync (env : Env) : steps R (StateManager.writeFileSync env).
Proof.
  intros w. unfold StateManager.writeFileSync.
  destruct (fs_writeFileSync env (w_calls w)); apply R_neutral; reflexivity.
Qed.

(** One syntactic layer of a computation. *)
Ltac steps_layer :=
  lazymatch goal with
  | |- steps _ (StateManager.writeFileSync _) => apply steps_writeFileSync
  | |- steps _ (bind _ _) => apply steps_bind; [|intros ?]
  | |- steps _ (try_catch _ _) => apply steps_try_catch; [|intros ?]
  | |- steps _ (try_finally _ _) => apply steps_try_finally; [|intros ?; apply R_neutral; reflexivity]
  | |- steps _ (for_of _ _) => apply steps_for_of; intros ?
  | |- steps _ (ret _) => apply steps_ret
  | |- steps _ (throw _) => apply steps_throw
  | |- steps _ (get _) => apply steps_get
  | |- steps _ (lift _) => apply steps_lift
  | |- steps _ (console_error _) => apply steps_console_error
  | |- steps _ (external _) => apply steps_external
  | |- steps _ (modify _) => apply steps_modify; intros ?; apply R_neutral; reflexivity
  | |- steps _ (if ?b then _ else _) => destruct b
  | |- steps _ (match ?x with _ => _ end) => destruct x
  end.

Ltac steps_auto := repeat steps_layer.

Lemma steps_markPostProcessed (c p : string) :
  steps R (StateManager.markPostProcessed c p).
Proof.
  intros w. destruct (markPostProcessed_spec c p w) as (w' & -> & Hc & Hother & Hf).
  simpl. apply R_grow; [exact Hf|]. intros c'.
  destruct (decide (c' = c)) as [->|Hne].
  - rewrite Hc. simpl.
    destruct (arr_includes (StateManager.getProcessedPostIds c w) p);
      [reflexivity | apply prefix_app_r; reflexivity].
  - rewrite (Hother c' Hne). reflexivity.
Qed.

Lemma steps_markPostsProcessed (c : string) (ps : list string) :
  steps R (StateManager.markPostsProcessed c ps).
Proof.
  unfold StateManager.markPostsProcessed. apply steps_for_of.
  intros p. apply steps_markPostProcessed.
Qed.

Lemma steps_saveState (env : Env) (path : string) :
  steps R (StateManager.saveState env path).
Proof. unfold StateManager.saveState. steps_auto. Qed.

Lemma steps_enrich_loop (env : Env) (posts : list Post) :
  forall cache, steps R (MessageAnalyzer.enrich_loop env cache posts).
Proof.
  induction posts as [|post rest IH]; intros cache; simpl; steps_auto; apply IH.
Qed.

Lemma steps_analyzePostsWithLLM (env : Env) (self : MessageAnalyzer.t)
    (posts : list Post) (topics : list string) (name : string) :
  steps R (MessageAnalyzer.analyzePostsWithLLM env self posts topics name).
Proof.
  unfold MessageAnalyzer.analyzePostsWithLLM, MessageAnalyzer.call_fallbackAnalysis.
  steps_auto.
Qed.

Lemma steps_select_candidates (env : Env) (self : MessageAnalyzer.t) (name : string)
    (firstRun : bool) (firstRunLimit : option Z) :
  (forall c, ok_fetch c (MessageAnalyzer.fetch_limit self firstRun firstRunLimit)) ->
  steps R (MessageAnalyzer.select_candidates env self name firstRun firstRunLimit).
Proof.
  intros Hok. unfold MessageAnalyzer.select_candidates, MessageAnalyzer.getPostsForChannel.
  steps_auto. apply steps_modify. intros w. apply R_fetch, Hok.
Qed.

Lemma steps_process_candidates (env : Env) (self : MessageAnalyzer.t) (name : string)
    (channel : Channel) (cands : list Post) :
  steps R (MessageAnalyzer.process_candidates env self name channel cands).
Proof.
  unfold MessageAnalyzer.process_candidates, MessageAnalyzer.enrichPostsWithUserInfo.
  steps_auto.
  - apply steps_enrich_loop.
  - apply steps_analyzePostsWithLLM.
  - apply steps_markPostProcessed.
  - apply steps_saveState.
Qed.

Lemma steps_analyzeChannel (env : Env) (self : MessageAnalyzer.t) (name : string)
    (firstRun : bool) (firstRunLimit : option Z) :
  (forall c, ok_fetch c (MessageAnalyzer.fetch_limit self firstRun firstRunLimit)) ->
  steps R (MessageAnalyzer.analyzeChannel env self name firstRun firstRunLimit).
Proof.
  intros Hok. unfold MessageAnalyzer.analyzeChannel. steps_auto.
  - apply steps_select_candidates, Hok.
  - apply steps_process_candidates.
Qed.

(** The first-run test of [runMonitoring] never succeeds: [getLastRun]
    answers a [Date] object, and an object is truthy. *)
Lemma isFirstRun_false (env : Env) (w : World) : TopicMonitor.isFirstRun env w = false.
Proof. reflexivity. Qed.

Lemma fetch_limit_not_first_run (self : MessageAnalyzer.t) (firstRunLimit : option Z) :
  MessageAnalyzer.fetch_limit self false firstRunLimit = MessageAnalyzer.an_messageLimit self.
Proof. unfold MessageAnalyzer.fetch_limit. destruct firstRunLimit; reflexivity. Qed.

Lemma steps_render_posts (env : Env) (shown : list Post) :
  forall message, steps R (TopicMonitor.render_posts env message shown).
Proof.
  induction shown as [|post rest IH]; intros message; simpl.
  - apply steps_ret.
  - apply steps_bind; [|intros ?; apply IH].
    unfold TopicMonitor.render_post. steps_auto.
Qed.

Lemma steps_sendNotification (env : Env) (self : TopicMonitor.t) (result : AnalysisResult) :
  steps R (TopicMonitor.sendNotification env self result).
Proof.
  unfold TopicMonitor.sendNotification, TopicMonitor.compose, TopicMonitor.createPost.
  steps_auto. apply steps_render_posts.
Qed.

Lemma steps_analyze_channels (env : Env) (self : TopicMonitor.t) (firstRun : bool)
    (names : list string) :
  (forall c, ok_fetch c (MessageAnalyzer.fetch_limit (TopicMonitor.analyzer self) firstRun
                           (Some (firstRunLimit (TopicMonitor.config self))))) ->
  forall results, steps R (TopicMonitor.analyze_channels env self firstRun names results).
Proof.
  intros Hok. induction names as [|name rest IH]; intros results; simpl.
  - apply steps_ret.
  - apply steps_bind; [apply steps_analyzeChannel, Hok | intros ?; apply IH].
Qed.

(** A cycle: its fetches ask for the steady-state limit. *)
Lemma steps_runMonitoring (env : Env) (self : TopicMonitor.t) :
  (forall c, ok_fetch c (MessageAnalyzer.an_messageLimit (TopicMonitor.analyzer self))) ->
  steps R (TopicMonitor.runMonitoring env self).
Proof.
  intros Hok. unfold TopicMonitor.runMonitoring.
  apply steps_try_catch; [|intros ?; apply steps_console_error].
  intros w. unfold bind at 1, get. simpl. rewrite isFirstRun_false.
  revert w. apply steps_bind.
  - apply steps_analyze_channels. intros c. rewrite fetch_limit_not_first_run. apply Hok.
  - intros results. apply steps_for_of. intros result. apply steps_sendNotification.
Qed.

Lemma steps_runNow (callback : M unit) :
  steps R callback -> steps R (MonitoringScheduler.runNow callback).
Proof.
  intros Hcb. unfold MonitoringScheduler.runNow, MonitoringScheduler.invoke.
  steps_auto. exact Hcb.
Qed.

Lemma steps_scheduled_tick (env : Env) (callback : M unit) :
  steps R callback -> steps R (MonitoringScheduler.scheduled_tick env callback).
Proof.
  intros Hcb. unfold MonitoringScheduler.scheduled_tick, MonitoringScheduler.invoke.
  steps_auto. exact Hcb.
Qed.

Lemma steps_start (env : Env) : steps R (MonitoringScheduler.start env).
Proof. unfold MonitoringScheduler.start. steps_auto. Qed.

Lemma steps_stop (env : Env) : steps R (MonitoringScheduler.stop env).
Proof. unfold MonitoringScheduler.stop. steps_auto. Qed.

Lemma steps_updateSchedule (env : Env) (sched : string) :
  steps R (MonitoringScheduler.updateSchedule env sched).
Proof.
  unfold MonitoringScheduler.updateSchedule. steps_auto;
    first [apply steps_stop | apply steps_start].
Qed.

(** Every operation of the process, when every fetch is admitted. *)
Lemma steps_perform (a : Process.Action) :
  (forall c l, ok_fetch c l) -> steps R (Process.perform a).
Proof.
  intros Hok.
  destruct a; simpl;
    unfold TopicMonitor.tick, TopicMonitor.runNow, Tools.handleRunMonitoring,
      Tools.handleGetMonitoringStatus, TopicMonitor.runNow;
    steps_auto;
    first [ apply steps_scheduled_tick, steps_runMonitoring; intros; apply Hok
          | apply steps_runNow, steps_runMonitoring; intros; apply Hok
          | apply steps_start | apply steps_stop | apply steps_updateSchedule
          | apply steps_analyzeChannel; intros; apply Hok
          | apply steps_markPostProcessed | apply steps_markPostsProcessed
          | apply steps_saveState ].
Qed.

Lemma steps_run (actions : list Process.Action) (w : World) :
  (forall c l, ok_fetch c l) -> R w (Process.run actions w).
Proof.
  intros Hok. unfold Process.run. revert w.
  induction actions as [|a actions IH]; intros w; simpl.
  - apply R_refl.
  - eapply R_trans; [apply (steps_perform a Hok w) | apply IH].
Qed.

End Steps.

(** ** The processed ids only grow *)

Lemma grows_refl (w : World) : grows w w.
Proof. intros c. reflexivity. Qed.

Lemma grows_trans (w1 w2 w3 : World) : grows w1 w2 -> grows w2 w3 -> grows w1 w3.
Proof. intros H12 H23 c. etransitivity; [apply H12 | apply H23]. Qed.

Lemma grows_processed (c p : string) (w w' : World) :
  grows w w' -> processed c p w -> processed c p w'.
Proof.
  unfold processed. rewrite !isPostProcessed_ids, !arr_includes_elem.
  intros Hg Hin. destruct (Hg c) as [k ->]. apply elem_of_app. left. exact Hin.
Qed.

(** The instance of the section: [grows], every fetch admitted. *)
Lemma grows_perform (a : Process.Action) : steps grows (Process.perform a).
Proof.
  apply (steps_perform grows (fun _ _ => True) grows_refl grows_trans).
  - intros w w' _ Hg. exact Hg.
  - intros w c l _ c'. reflexivity.
  - intros c l. exact I.
Qed.

Lemma grows_run (actions : list Process.Action) (w : World) :
  grows w (Process.run actions w).
Proof.
  apply (steps_run grows (fun _ _ => True) grows_refl grows_trans).
  - intros w0 w' _ Hg. exact Hg.
  - intros w0 c l _ c'. reflexivity.
  - intros c l. exact I.
Qed.

Lemma grows_steps {A} (m : M A) :
  (forall R ok, (forall w, R w w) -> (forall w1 w2 w3, R w1 w2 -> R w2 w3 -> R w1 w3) ->
                (forall w w', w_fetches w' = w_fetches w -> grows w w' -> R w w') ->
                (forall w c l, ok c l -> R w (set_fetches ((c, l) :: w_fetches w) w)) ->
                steps R m) ->
  steps grows m.
Proof.
  intros H. apply (H grows (fun _ _ => True) grows_refl grows_trans).
  - intros w w' _ Hg. exact Hg.
  - intros w c l _ c'. reflexivity.
Qed.

(** ** Candidates and marking *)

Lemma enrich_loop_never_throws (env : Env) (posts : list Post) :
  forall cache, never_throws (MessageAnalyzer.enrich_loop env cache posts).
Proof.
  induction posts as [|post rest IH]; intros cache; simpl.
  - apply never_throws_ret.
  - apply never_throws_bind.
    + apply never_throws_try_catch. intros e. auto with nothrow.
    + intros [profile|]; auto with nothrow.
Qed.

Lemma analyzePostsWithLLM_never_throws (env : Env) (self : MessageAnalyzer.t)
    (posts : list Post) (topics : list string) (name : string) :
  never_throws (MessageAnalyzer.analyzePostsWithLLM env self posts topics name).
Proof.
  unfold MessageAnalyzer.analyzePostsWithLLM, MessageAnalyzer.call_fallbackAnalysis.
  destruct (MessageAnalyzer.llmConfig self) as [cfg|]; [|auto with nothrow].
  destruct (length posts =? 0)%nat; [auto with nothrow|].
  apply never_throws_try_catch. intros e. auto 10 with nothrow.
Qed.

Lemma saveState_never_throws (env : Env) (path : string) :
  never_throws (StateManager.saveState env path).
Proof.
  unfold StateManager.saveState. apply never_throws_try_catch.
  intros e. apply never_throws_console_error.
Qed.

(** The loop that marks the candidates returns, and every one is processed
    after it. *)
Lemma mark_loop_marks_all (c : string) (cands : list Post) (w : World) :
  let marked := for_of cands (fun post => StateManager.markPostProcessed c (post_id post)) w in
  fst marked = Normal tt
  /\ forall post, post ∈ cands -> processed c (post_id post) (snd marked).
Proof.
  revert w. induction cands as [|x cands IH]; intros w; simpl.
  - split; [reflexivity|]. intros post Hin. apply elem_of_nil in Hin. contradiction.
  - unfold bind. pose proof (markPostProcessed_marks c (post_id x) w) as Hx.
    destruct (markPostProcessed_spec c (post_id x) w) as (w' & Heq & _).
    rewrite Heq in *. simpl in *.
    destruct (IH w') as [Hn Hall]. split; [exact Hn|].
    intros post Hin. apply elem_of_cons in Hin as [->|Hin]; [|apply Hall, Hin].
    eapply grows_processed; [|exact Hx].
    apply (grows_steps (for_of cands (fun post => StateManager.markPostProcessed c (post_id post)))).
    intros R ok Hr Ht Hg Hf. apply steps_for_of; [exact Hr | exact Ht|].
    intros post. apply (steps_markPostProcessed R Hg).
Qed.

(** Whatever the classification answers, every candidate is processed when
    [process_candidates] is done. *)
Lemma process_candidates_marks_all (env : Env) (self : MessageAnalyzer.t) (name : string)
    (channel : Channel) (cands : list Post) (w : World) :
  forall post, post ∈ cands ->
    processed (channel_id channel) (post_id post)
      (snd (MessageAnalyzer.process_candidates env self name channel cands w)).
Proof.
  intros post Hin. unfold MessageAnalyzer.process_candidates.
  unfold bind at 1.
  pose proof (enrich_loop_never_throws env cands ∅ w) as He.
  unfold MessageAnalyzer.enrichPostsWithUserInfo.
  destruct (MessageAnalyzer.enrich_loop env ∅ cands w) as [[enriched|e] w1];
    simpl in He; [|discriminate].
  unfold bind at 1.
  pose proof (analyzePostsWithLLM_never_throws env self enriched
                (MessageAnalyzer.an_topics self) name w1) as Ha.
  destruct (MessageAnalyzer.analyzePostsWithLLM env self enriched
              (MessageAnalyzer.an_topics self) name w1) as [[result|e] w2];
    simpl in Ha; [|discriminate].
  unfold bind at 1.
  destruct (mark_loop_marks_all (channel_id channel) cands w2) as [Hn Hall].
  destruct (for_of cands _ w2) as [[[]|e] w3]; simpl in Hn, Hall; [|discriminate].
  eapply grows_processed; [|apply Hall, Hin].
  match goal with |- grows w3 (snd (?rest w3)) => apply (grows_steps rest) end.
  intros R ok Hr Ht Hg Hf.
  apply steps_bind; [exact Ht | apply (steps_saveState R Hr Ht Hg) |].
  intros _. destruct (length (relevantPosts result) =? 0)%nat.
  - apply steps_bind; [exact Ht | apply (steps_console_error R Hg) | intros _; apply steps_ret, Hr].
  - apply steps_ret, Hr.
Qed.

(** The candidates are the fetched posts whose id is not processed for the
    channel when the selection starts. *)
Lemma select_candidates_unprocessed (env : Env) (self : MessageAnalyzer.t) (name : string)
    (firstRun : bool) (firstRunLimit : option Z) (w w' : World)
    (channel : Channel) (cands : list Post) :
  MessageAnalyzer.select_candidates env self name firstRun firstRunLimit w
  = (Normal (Some (channel, cands)), w') ->
  StateManager.posts_of w' = StateManager.posts_of w
  /\ forall post, post ∈ cands ->
       StateManager.isPostProcessed (channel_id channel) (post_id post) w = false.
Proof.
  unfold MessageAnalyzer.select_candidates, MessageAnalyzer.getPostsForChannel,
    bind, external, get, modify, console_error, ret.
  simpl.
  destruct (api_getChannels env (w_calls w)) as [response|e]; simpl; [|discriminate].
  destruct (length (MessageAnalyzer.channels_of response) =? 0)%nat; simpl; [discriminate|].
  destruct (List.find _ (MessageAnalyzer.channels_of response)) as [ch|]; simpl; [|discriminate].
  destruct (api_getPostsForChannel env (S (w_calls w)) (channel_id ch) _) as [fetched|e];
    simpl; [|discriminate].
  match goal with |- context [(length ?u =? 0)%nat] => destruct (length u =? 0)%nat end;
    simpl; [discriminate|].
  intros Heq. injection Heq as <- <- <-. split; [reflexivity|].
  intros post Hin. unfold MessageAnalyzer.unprocessed in Hin.
  apply list_elem_of_filter in Hin as [Hnot _].
  apply negb_true_iff in Hnot. exact Hnot.
Qed.

Lemma candidates_unprocessed (env : Env) (self : MessageAnalyzer.t) (name : string)
    (firstRun : bool) (firstRunLimit : option Z) (w : World)
    (channel : Channel) (cands : list Post) :
  candidates env self name firstRun firstRunLimit w = Some (channel, cands) ->
  forall post, post ∈ cands ->
    StateManager.isPostProcessed (channel_id channel) (post_id post) w = false.
Proof.
  unfold candidates. intros Hc post Hin.
  destruct (MessageAnalyzer.select_candidates env self name firstRun firstRunLimit _)
    as [[selected|e] w'] eqn:Hsel; [|discriminate].
  subst selected.
  destruct (select_candidates_unprocessed _ _ _ _ _ _ _ _ _ Hsel) as [_ Hall].
  apply (Hall post Hin).
Qed.

(** A run of [analyzeChannel] leaves every candidate it selected processed. *)
Lemma analyzeChannel_marks_candidates (env : Env) (self : MessageAnalyzer.t) (name : string)
    (firstRun : bool) (firstRunLimit : option Z) (w : World)
    (channel : Channel) (cands : list Post) :
  candidates env self name firstRun firstRunLimit w = Some (channel, cands) ->
  forall post, post ∈ cands ->
    processed (channel_id channel) (post_id post)
      (snd (MessageAnalyzer.analyzeChannel env self name firstRun firstRunLimit w)).
Proof.
  unfold candidates. intros Hc post Hin.
  unfold MessageAnalyzer.analyzeChannel, try_catch, bind at 1. simpl.
  unfold bind at 1.
  destruct (MessageAnalyzer.select_candidates env self name firstRun firstRunLimit _)
    as [[selected|e] w1] eqn:Hsel; [|discriminate].
  subst selected.
  pose proof (process_candidates_marks_all env self name channel cands w1 post Hin) as Hp.
  destruct (MessageAnalyzer.process_candidates env self name channel cands w1)
    as [[r|e] w2]; simpl in *; [exact Hp|].
  eapply grows_processed; [|exact Hp]. intros c. reflexivity.
Qed.

(** C3. Once an id is processed for a channel it stays processed through
    every later operation of the process, and no later run of
    [analyzeChannel] on that channel has it among its candidates; the
    processed ids of every channel are only extended; and a run of
    [analyzeChannel] leaves every candidate it selected processed, whatever
    the classification found, so none of them is a candidate again. *)
Theorem processed_ids_are_never_candidates_again :
  (forall (c p : string) (w : World) (actions : list Process.Action),
     processed c p w ->
     let w' := Process.run actions w in
     processed c p w'
     /\ forall env self name firstRun firstRunLimit channel cands,
          candidates env self name firstRun firstRunLimit w' = Some (channel, cands) ->
          channel_id channel = c ->
          p ∉ map post_id cands)
  /\ (forall (w : World) (actions : list Process.Action), grows w (Process.run actions w))
  /\ (forall env self name firstRun firstRunLimit (w : World) channel cands post
             (actions : list Process.Action),
        candidates env self name firstRun firstRunLimit w = Some (channel, cands) ->
        post ∈ cands ->
        let w' := Process.run actions
                    (snd (MessageAnalyzer.analyzeChannel env self name firstRun firstRunLimit w)) in
        processed (channel_id channel) (post_id post) w'
        /\ forall env' self' name' firstRun' firstRunLimit' channel' cands',
             candidates env' self' name' firstRun' firstRunLimit' w' = Some (channel', cands') ->
             channel_id channel' = channel_id channel ->
             post_id post ∉ map post_id cands').
Proof.
  assert (Hfirst : forall (c p : string) (w : World) (actions : list Process.Action),
             processed c p w ->
             let w' := Process.run actions w in
             processed c p w'
             /\ forall env self name firstRun firstRunLimit channel cands,
                  candidates env self name firstRun firstRunLimit w' = Some (channel, cands) ->
                  channel_id channel = c ->
                  p ∉ map post_id cands).
  { intros c p w actions Hp w'.
    assert (Hp' : processed c p w') by (eapply grows_processed; [apply grows_run | exact Hp]).
    split; [exact Hp'|].
    intros env self name firstRun firstRunLimit channel cands Hc <- Hin.
    apply list_elem_of_fmap in Hin as (post & Hid & Hin).
    pose proof (candidates_unprocessed _ _ _ _ _ _ _ _ Hc post Hin) as Hnot.
    unfold processed in Hp'. rewrite Hid, Hnot in Hp'. discriminate. }
  split; [exact Hfirst|]. split; [intros w actions; apply grows_run|].
  intros env self name firstRun firstRunLimit w channel cands post actions Hc Hin.
  apply Hfirst. eapply analyzeChannel_marks_candidates; eassumption.
Qed.

Lemma processed_ids_are_never_candidates_again_witness :
  candidates Sample.env (TopicMonitor.analyzer Sample.monitor) "town-square" false None
    Sample.idle = Some (Sample.town_square, [Sample.butterfly; Sample.lunch])
  /\ processed "c1" Sample.id_b
       (Process.run [Process.Tick Sample.env Sample.monitor]
          (snd (MessageAnalyzer.analyzeChannel Sample.env (TopicMonitor.analyzer Sample.monitor)
                  "town-square" false None Sample.idle))).
Proof.
  assert (Hc : candidates Sample.env (TopicMonitor.analyzer Sample.monitor) "town-square"
                 false None Sample.idle
               = Some (Sample.town_square, [Sample.butterfly; Sample.lunch]))
    by (vm_compute; reflexivity).
  split; [exact Hc|].
  destruct processed_ids_are_never_candidates_again as (_ & _ & Hthird).
  apply (Hthird Sample.env (TopicMonitor.analyzer Sample.monitor) "town-square" false None
           Sample.idle Sample.town_square [Sample.butterfly; Sample.lunch] Sample.lunch
           [Process.Tick Sample.env Sample.monitor] Hc).
  apply list_elem_of_further, list_elem_of_here.
Defined.

(** ** The fetch limit *)

Lemma fetched_with_limit_refl (limit : Z) (w : World) : fetched_with_limit limit w w.
Proof. exists []. split; [reflexivity | constructor]. Qed.

Lemma fetched_with_limit_trans (limit : Z) (w1 w2 w3 : World) :
  fetched_with_limit limit w1 w2 -> fetched_with_limit limit w2 w3 ->
  fetched_with_limit limit w1 w3.
Proof.
  intros (r1 & H1 & F1) (r2 & H2 & F2). exists (r2 ++ r1). split.
  - rewrite H2, H1, app_assoc. reflexivity.
  - apply Forall_app. split; assumption.
Qed.

(** Every fetch of every cycle asks for [messageLimit] posts: the limit of
    the first run is never used. *)
Lemma every_cycle_fetches_messageLimit (env : Env) (self : TopicMonitor.t) (w : World) :
  let limit := MessageAnalyzer.an_messageLimit (TopicMonitor.analyzer self) in
  fetched_with_limit limit w (snd (TopicMonitor.runMonitoring env self w))
  /\ fetched_with_limit limit w (snd (TopicMonitor.tick env self w))
  /\ fetched_with_limit limit w (snd (TopicMonitor.runNow env self w)).
Proof.
  intros limit.
  assert (Hcycle : steps (fetched_with_limit limit) (TopicMonitor.runMonitoring env self)).
  { apply (steps_runMonitoring (fetched_with_limit limit) (fun _ l => l = limit)
             (fetched_with_limit_refl limit) (fetched_with_limit_trans limit)).
    - intros w0 w' Hf _. exists []. split; [exact Hf | constructor].
    - intros w0 c l ->. exists [(c, limit)]. split; [reflexivity|].
      constructor; [reflexivity | constructor].
    - intros c. reflexivity. }
  split; [apply Hcycle|]. split.
  - apply (steps_scheduled_tick (fetched_with_limit limit)
             (fetched_with_limit_refl limit) (fetched_with_limit_trans limit)).
    + intros w0 w' Hf _. exists []. split; [exact Hf | constructor].
    + exact Hcycle.
  - apply (steps_runNow (fetched_with_limit limit)
             (fetched_with_limit_refl limit) (fetched_with_limit_trans limit)).
    + intros w0 w' Hf _. exists []. split; [exact Hf | constructor].
    + exact Hcycle.
Qed.

(** C1. The first cycle of a process that found no state file, with
    [processExistingOnFirstRun] set, [firstRunLimit] 10 and [messageLimit]
    50, asks the channel for 50 posts. *)
Theorem first_cycle_fetches_messageLimit :
  exists monitor w0,
    Process.boot Sample.env Sample.config (Process.initial_world Absent) = (Normal monitor, w0)
    /\ processExistingOnFirstRun (TopicMonitor.config monitor) = true
    /\ firstRunLimit (TopicMonitor.config monitor) = 10%Z
    /\ messageLimit (TopicMonitor.config monitor) = 50%Z
    /\ w_fetches w0 = []
    /\ w_fetches (snd (TopicMonitor.tick Sample.env monitor w0)) = [("c1", 50%Z)].
Proof.
  eexists. eexists. split; [vm_compute; reflexivity|].
  repeat split; vm_compute; reflexivity.
Qed.

(** ** The two keyword classifiers *)

(** Without a backend configuration, and when the request throws, the
    classification is [fallbackAnalysis]. *)
Lemma analyzePostsWithLLM_falls_back (env : Env) (self : MessageAnalyzer.t)
    (posts : list Post) (topics : list string) (name : string) (w : World) :
  match MessageAnalyzer.llmConfig self with
  | None => True
  | Some cfg => exists e, llm_messages_create env (w_calls w) cfg name topics posts = Throw e
  end ->
  fst (MessageAnalyzer.analyzePostsWithLLM env self posts topics name w)
  = Normal (MessageAnalyzer.fallbackAnalysis posts topics).
Proof.
  unfold MessageAnalyzer.analyzePostsWithLLM, MessageAnalyzer.call_fallbackAnalysis.
  destruct (MessageAnalyzer.llmConfig self) as [cfg|]; [|reflexivity].
  intros [e He]. destruct (length posts =? 0)%nat; [reflexivity|].
  unfold try_catch, bind, console_error, modify, external. simpl. rewrite He. reflexivity.
Qed.

(** C2, as stated, at [fallbackAnalysis]: the message about the butterfly
    blade matches no topic. *)
Lemma fallbackAnalysis_misses_butterfly_blade :
  MessageAnalyzer.fallbackAnalysis [Sample.butterfly] ["table tennis"]
  = mkLlmAnalysisResult [] [].
Proof. vm_compute. reflexivity. Qed.

(** C2, amended. With topics ["table tennis"], the keyword classifier with
    the dictionary of related terms ([analyzeWithLLM]) matches "just bought
    a new butterfly blade" to "table tennis" and "let's grab lunch" to no
    topic; [fallbackAnalysis], containment of the label alone, matches
    neither message. *)
Theorem keyword_classifiers_on_the_two_messages :
  forall (id1 id2 user1 user2 : string) (t1 t2 : Z) (info1 info2 : option UserInfo),
    let blade := mkPost id1 user1 "just bought a new butterfly blade" t1 info1 in
    let lunch := mkPost id2 user2 "let's grab lunch" t2 info2 in
    KeywordAnalyzer.analyzeWithLLM (post_message blade) ["table tennis"] = ["table tennis"]
    /\ KeywordAnalyzer.analyzeWithLLM (post_message lunch) ["table tennis"] = []
    /\ MessageAnalyzer.fallbackAnalysis [blade] ["table tennis"] = mkLlmAnalysisResult [] []
    /\ MessageAnalyzer.fallbackAnalysis [lunch] ["table tennis"] = mkLlmAnalysisResult [] []
    /\ MessageAnalyzer.fallbackAnalysis [blade; lunch] ["table tennis"]
       = mkLlmAnalysisResult [] [].
Proof.
  intros. repeat split; vm_compute; reflexivity.
Qed.

(** ** Objects and sets in insertion order *)

Lemma set_add_elem (s : list string) (x y : string) :
  y ∈ Obj.set_add s x <-> y ∈ s \/ y = x.
Proof.
  unfold Obj.set_add. destruct (arr_includes s x) eqn:Hin.
  - apply arr_includes_elem in Hin. split; [tauto|]. intros [H| ->]; assumption.
  - rewrite elem_of_app, list_elem_of_singleton. tauto.
Qed.

Lemma fold_set_add_elem (l s : list string) (y : string) :
  y ∈ fold_left Obj.set_add l s <-> y ∈ s \/ y ∈ l.
Proof.
  revert s. induction l as [|x l IH]; intros s; simpl.
  - rewrite elem_of_nil. tauto.
  - rewrite IH, set_add_elem, elem_of_cons. tauto.
Qed.

Lemma push_nil (k x : string) : Obj.push [] k x = [(k, [x])].
Proof. reflexivity. Qed.

Lemma push_cons (k' : string) (v' : list string) (o : Obj.t) (k x : string) :
  Obj.push ((k', v') :: o) k x
  = if String.eqb k' k then (k', v' ++ [x]) :: o else (k', v') :: Obj.push o k x.
Proof.
  unfold Obj.push. simpl. destruct (String.eqb k' k); [reflexivity|].
  destruct (Obj.lookup o k); reflexivity.
Qed.

Lemma listed_nil (topic id : string) : listed [] topic id <-> False.
Proof.
  split; [|contradiction]. intros (l & Hin & _). apply elem_of_nil in Hin. exact Hin.
Qed.

Lemma listed_cons (k : string) (v : list string) (o : Obj.t) (topic id : string) :
  listed ((k, v) :: o) topic id <-> (topic = k /\ id ∈ v) \/ listed o topic id.
Proof.
  unfold listed. split.
  - intros (l & Hin & Hid). apply elem_of_cons in Hin as [Heq|Hin].
    + injection Heq as -> ->. left. tauto.
    + right. exists l. tauto.
  - intros [[-> Hid] | (l & Hin & Hid)].
    + exists v. split; [apply list_elem_of_here | exact Hid].
    + exists l. split; [apply list_elem_of_further, Hin | exact Hid].
Qed.

(** A push lists the id under the topic and keeps what was listed. *)
Lemma listed_push (o : Obj.t) (k x topic id : string) :
  listed (Obj.push o k x) topic id <-> listed o topic id \/ (topic = k /\ id = x).
Proof.
  induction o as [|[k' v'] o IH].
  - rewrite push_nil, listed_cons, listed_nil, list_elem_of_singleton. tauto.
  - rewrite push_cons. destruct (String.eqb k' k) eqn:Hk.
    + apply String.eqb_eq in Hk as ->.
      rewrite !listed_cons, elem_of_app, list_elem_of_singleton. tauto.
    + rewrite !listed_cons, IH. tauto.
Qed.

Lemma listed_push_topics (topics : list string) (o : Obj.t) (x topic id : string) :
  listed (fold_left (fun o t => Obj.push o t x) topics o) topic id
  <-> listed o topic id \/ (topic ∈ topics /\ id = x).
Proof.
  revert o. induction topics as [|t topics IH]; intros o; simpl.
  - rewrite elem_of_nil. tauto.
  - rewrite IH, listed_push, elem_of_cons. intuition (subst; auto).
Qed.

(** After the all-topics loop an id is listed under a topic when it was
    before, or the topic is a configured one and the id that of a candidate
    found in the reply. *)
Lemma listed_all_topics_pass (ids : list string) (posts : list Post) (topics : list string)
    (o : Obj.t) (topic id : string) :
  listed (MessageAnalyzer.all_topics_pass ids posts topics o) topic id
  <-> listed o topic id
      \/ (topic ∈ topics
          /\ exists post, post ∈ posts /\ arr_includes ids (post_id post) = true
                          /\ id = post_id post).
Proof.
  unfold MessageAnalyzer.all_topics_pass.
  revert o. induction posts as [|post posts IH]; intros o; simpl.
  - split; [tauto|]. intros [H|(_ & post & Hin & _)]; [exact H|].
    apply elem_of_nil in Hin. contradiction.
  - rewrite IH. unfold MessageAnalyzer.all_topics_step.
    destruct (arr_includes ids (post_id post)) eqn:Hfound.
    + rewrite listed_push_topics. split.
      * intros [[H|[Ht ->]]|(Ht & post' & Hin & Hf & Hid)]; [tauto| |].
        -- right. split; [exact Ht|]. exists post.
           split; [apply list_elem_of_here | tauto].
        -- right. split; [exact Ht|]. exists post'.
           split; [apply list_elem_of_further, Hin | tauto].
      * intros [H|(Ht & post' & Hin & Hf & Hid)]; [tauto|].
        apply elem_of_cons in Hin as [->|Hin]; [tauto|].
        right. split; [exact Ht|]. exists post'. tauto.
    + split.
      * intros [H|(Ht & post' & Hin & Hf & Hid)]; [tauto|].
        right. split; [exact Ht|]. exists post'.
        split; [apply list_elem_of_further, Hin | tauto].
      * intros [H|(Ht & post' & Hin & Hf & Hid)]; [tauto|].
        apply elem_of_cons in Hin as [->|Hin]; [congruence|].
        right. split; [exact Ht|]. exists post'. tauto.
Qed.

Lemma insert_index_elem (e x : N * (string * list string))
    (l : list (N * (string * list string))) :
  x ∈ Obj.insert_index e l <-> x = e \/ x ∈ l.
Proof.
  induction l as [|e' l IH]; simpl.
  - rewrite list_elem_of_singleton, elem_of_nil. tauto.
  - destruct (fst e <=? fst e')%N.
    + rewrite !elem_of_cons. tauto.
    + rewrite !elem_of_cons, IH. tauto.
Qed.

Lemma sorted_index_elem (x : N * (string * list string))
    (l : list (N * (string * list string))) :
  x ∈ foldr Obj.insert_index [] l <-> x ∈ l.
Proof.
  induction l as [|e l IH]; simpl; [reflexivity|].
  rewrite insert_index_elem, IH, elem_of_cons. tauto.
Qed.

(** [Object.entries] lists the own properties, each once. *)
Lemma entries_elem (o : Obj.t) (kv : string * list string) :
  kv ∈ Obj.entries o <-> kv ∈ o.
Proof.
  unfold Obj.entries, Obj.index_entries.
  rewrite elem_of_app, list_elem_of_fmap, list_elem_of_filter. split.
  - intros [((n & kv') & -> & Hin)|[_ Hin]]; [|exact Hin].
    apply sorted_index_elem, list_elem_of_omap in Hin as (kv'' & Hin & Hsome).
    destruct (Obj.array_index (fst kv'')); [|discriminate].
    injection Hsome as _ <-. exact Hin.
  - intros Hin. destruct (Obj.array_index (fst kv)) as [n|] eqn:Hidx; [left | right; tauto].
    exists (n, kv). split; [reflexivity|].
    apply sorted_index_elem, list_elem_of_omap. exists kv. rewrite Hidx. tauto.
Qed.

Lemma collect_fold_elem (es : list (string * list string)) (acc : list string * list string) :
  let result := fold_left MessageAnalyzer.collect_step es acc in
  (forall id, id ∈ fst result <-> id ∈ fst acc \/ exists k l, (k, l) ∈ es /\ id ∈ l)
  /\ (forall topic, topic ∈ snd result
                    <-> topic ∈ snd acc \/ exists l, (topic, l) ∈ es /\ l <> []).
Proof.
  revert acc. induction es as [|[k l] es IH]; intros acc; simpl.
  - split; intros x; (split; [tauto|]).
    + intros [H|(k & l & Hin & _)]; [exact H|]. apply elem_of_nil in Hin. contradiction.
    + intros [H|(l & Hin & _)]; [exact H|]. apply elem_of_nil in Hin. contradiction.
  - destruct (IH (MessageAnalyzer.collect_step acc (k, l))) as [Hids Htopics].
    split.
    + intros id. rewrite Hids. unfold MessageAnalyzer.collect_step.
      destruct l as [|x l]; simpl.
      * split.
        -- intros [H|(k' & l' & Hin & Hid)]; [tauto|].
           right. exists k', l'. split; [apply list_elem_of_further, Hin | exact Hid].
        -- intros [H|(k' & l' & Hin & Hid)]; [tauto|].
           apply elem_of_cons in Hin as [Heq|Hin].
           ++ injection Heq as -> ->. apply elem_of_nil in Hid. contradiction.
           ++ right. exists k', l'. tauto.
      * rewrite fold_set_add_elem, set_add_elem. split.
        -- intros [[[H| ->]|H]|(k' & l' & Hin & Hid)]; [tauto| | |].
           ++ right. exists k, (x :: l). split; apply list_elem_of_here.
           ++ right. exists k, (x :: l).
              split; [apply list_elem_of_here | apply list_elem_of_further, H].
           ++ right. exists k', l'. split; [apply list_elem_of_further, Hin | exact Hid].
        -- intros [H|(k' & l' & Hin & Hid)]; [tauto|].
           apply elem_of_cons in Hin as [Heq|Hin].
           ++ injection Heq as -> ->. apply elem_of_cons in Hid. tauto.
           ++ right. exists k', l'. tauto.
    + intros topic. rewrite Htopics. unfold MessageAnalyzer.collect_step.
      destruct l as [|x l]; simpl.
      * split.
        -- intros [H|(l' & Hin & Hne)]; [tauto|].
           right. exists l'. split; [apply list_elem_of_further, Hin | exact Hne].
        -- intros [H|(l' & Hin & Hne)]; [tauto|].
           apply elem_of_cons in Hin as [Heq|Hin].
           ++ injection Heq as -> ->. contradiction.
           ++ right. exists l'. tauto.
      * rewrite set_add_elem. split.
        -- intros [[H| ->]|(l' & Hin & Hne)]; [tauto| |].
           ++ right. exists (x :: l). split; [apply list_elem_of_here | discriminate].
           ++ right. exists l'. split; [apply list_elem_of_further, Hin | exact Hne].
        -- intros [H|(l' & Hin & Hne)]; [tauto|].
           apply elem_of_cons in Hin as [Heq|Hin].
           ++ injection Heq as -> ->. tauto.
           ++ right. exists l'. tauto.
Qed.

(** The two sets that [collect] builds, by what the object lists. *)
Lemma collect_elem (o : Obj.t) :
  (forall id, id ∈ fst (MessageAnalyzer.collect o) <-> exists topic, listed o topic id)
  /\ (forall topic, topic ∈ snd (MessageAnalyzer.collect o) <-> exists id, listed o topic id).
Proof.
  unfold MessageAnalyzer.collect.
  destruct (collect_fold_elem (Obj.entries o) ([], [])) as [Hids Htopics].
  simpl in Hids, Htopics. split.
  - intros id. rewrite Hids, elem_of_nil. unfold listed. split.
    + intros [[]|(k & l & Hin & Hid)]. exists k, l. rewrite <- entries_elem. tauto.
    + intros (k & l & Hin & Hid). right. exists k, l. rewrite entries_elem. tauto.
  - intros topic. rewrite Htopics, elem_of_nil. unfold listed. split.
    + intros [[]|(l & Hin & Hne)]. destruct l as [|x l]; [contradiction|].
      exists x, (x :: l). rewrite <- entries_elem. split; [exact Hin | apply list_elem_of_here].
    + intros (id & l & Hin & Hid). right. exists l. rewrite entries_elem.
      split; [exact Hin|]. intros ->. apply elem_of_nil in Hid. exact Hid.
Qed.

(** ** Reading the reply: the all-topics tie-break *)

Lemma filter_ext_elem {A} (P Q : A -> Prop) `{!forall x, Decision (P x)}
    `{!forall x, Decision (Q x)} (l : list A) :
  (forall x, x ∈ l -> (P x <-> Q x)) -> filter P l = filter Q l.
Proof.
  induction l as [|x l IH]; intros Hext; [reflexivity|].
  rewrite !filter_cons.
  assert (Hx : P x <-> Q x) by (apply Hext, list_elem_of_here).
  rewrite IH by (intros y Hy; apply Hext, list_elem_of_further, Hy).
  destruct (decide (P x)), (decide (Q x)); tauto.
Qed.

Lemma filter_none {A} (P : A -> Prop) `{!forall x, Decision (P x)} (l : list A) :
  (forall x, x ∈ l -> ~ P x) -> filter P l = [].
Proof.
  induction l as [|x l IH]; intros Hnone; [reflexivity|].
  rewrite filter_cons. destruct (decide (P x)) as [Hp|_].
  - exfalso. apply (Hnone x); [apply list_elem_of_here | exact Hp].
  - apply IH. intros y Hy. apply Hnone, list_elem_of_further, Hy.
Qed.

(** The result when ids were found and the loop over the topics tied none
    of them to a topic. *)
Lemma read_reply_tie_break (env : Env) (content : string) (posts : list Post)
    (topics : list string) :
  MessageAnalyzer.matchAll_ids content <> [] ->
  MessageAnalyzer.topic_pass env content topics = Normal [] ->
  exists result,
    MessageAnalyzer.read_reply env content posts topics = Normal result
    /\ (forall topic, topic ∈ llm_relevantTopics result
                      <-> topic ∈ topics
                          /\ exists post, post ∈ posts /\ found_in content post = true)
    /\ relevantPosts result
       = match topics with
         | [] => []
         | _ :: _ => filter (fun post => found_in content post = true) posts
         end.
Proof.
  intros Hids Hpass. unfold MessageAnalyzer.read_reply, MessageAnalyzer.finish_reply.
  rewrite Hpass. simpl.
  destruct (MessageAnalyzer.matchAll_ids content) as [|i ids] eqn:Hscan; [contradiction|].
  simpl.
  destruct (collect_elem (MessageAnalyzer.all_topics_pass (i :: ids) posts topics []))
    as [Hrel_ids Hrel_topics].
  destruct (MessageAnalyzer.collect (MessageAnalyzer.all_topics_pass (i :: ids) posts topics []))
    as [relevantPostIds relevantTopics] eqn:Hcollect.
  simpl in Hrel_ids, Hrel_topics.
  eexists. split; [reflexivity|]. simpl. split.
  - intros topic. rewrite Hrel_topics. unfold found_in. rewrite Hscan. split.
    + intros (id & Hl). apply listed_all_topics_pass in Hl as [Hl|(Ht & post & Hin & Hf & _)].
      * apply listed_nil in Hl. contradiction.
      * split; [exact Ht|]. exists post. tauto.
    + intros (Ht & post & Hin & Hf). exists (post_id post).
      apply listed_all_topics_pass. right. split; [exact Ht|]. exists post. tauto.
  - destruct topics as [|t topics].
    + apply filter_none. intros post _ Hin. apply arr_includes_elem, Hrel_ids in Hin as (topic & Hl).
      apply listed_all_topics_pass in Hl as [Hl|(Ht & _)].
      * apply listed_nil in Hl. exact Hl.
      * apply elem_of_nil in Ht. exact Ht.
    + apply filter_ext_elem. intros post Hin. unfold found_in. rewrite Hscan.
      rewrite arr_includes_elem, Hrel_ids. split.
      * intros (topic & Hl). apply listed_all_topics_pass in Hl as [Hl|(_ & post' & _ & Hf & Hid)].
        -- apply listed_nil in Hl. contradiction.
        -- rewrite Hid. exact Hf.
      * intros Hf. exists t. apply listed_all_topics_pass. right.
        split; [apply list_elem_of_here|]. exists post. tauto.
Qed.

(** C6, as stated, fails on a reply that quotes the id of a post that is
    not a candidate: an id is found, no topic is tied to it, and no topic
    comes out matched although one is configured. *)
Lemma tie_break_with_foreign_id_matches_nothing :
  MessageAnalyzer.matchAll_ids Sample.reply_other_id = [Sample.id_b]
  /\ MessageAnalyzer.topic_pass Sample.env Sample.reply_other_id ["table tennis"] = Normal []
  /\ MessageAnalyzer.read_reply Sample.env Sample.reply_other_id [Sample.butterfly]
       ["table tennis"] = Normal (mkLlmAnalysisResult [] [])
  /\ fst (MessageAnalyzer.analyzePostsWithLLM (Sample.answering Sample.reply_other_id)
            Sample.llm_analyzer [Sample.butterfly] ["table tennis"] "town-square" Sample.idle)
     = Normal (mkLlmAnalysisResult [] [])
  /\ (tie_break_as_stated Sample.env Sample.reply_other_id [Sample.butterfly] ["table tennis"]
      <-> False).
Proof.
  assert (Hread : MessageAnalyzer.read_reply Sample.env Sample.reply_other_id
                    [Sample.butterfly] ["table tennis"] = Normal (mkLlmAnalysisResult [] []))
    by (vm_compute; reflexivity).
  split; [vm_compute; reflexivity|]. split; [vm_compute; reflexivity|].
  split; [exact Hread|]. split; [vm_compute; reflexivity|].
  split; [|contradiction]. intros Hclaim.
  destruct Hclaim as (result & Hres & Htopics & _).
  - vm_compute. discriminate.
  - vm_compute. reflexivity.
  - rewrite Hread in Hres. injection Hres as <-. simpl in Htopics.
    apply (elem_of_nil "table tennis"), Htopics, list_elem_of_here.
Qed.

(** C6, amended. In the primary policy, for topic labels that name no
    member inherited from [Object.prototype] (the tie-break keeps its
    arrays in a plain object under the labels), when the scan finds an id
    in the reply and the loop over the topics ties no id to a topic: if a
    found id is that of a candidate and a topic is configured, the matched
    topics are all the configured ones and the matching messages are the
    candidates whose id was found, in their order; if no found id is that
    of a candidate, or no topic is configured, no topic is matched and no
    message matches. *)
Theorem tie_break_matches_every_topic_when_a_candidate_is_found :
  forall (env : Env) (self : MessageAnalyzer.t) (cfg : LlmConfig) (posts : list Post)
         (topics : list string) (name content : string) (w : World),
    MessageAnalyzer.llmConfig self = Some cfg ->
    posts <> [] ->
    own_keys topics = true ->
    llm_messages_create env (w_calls w) cfg name topics posts = Normal content ->
    MessageAnalyzer.matchAll_ids content <> [] ->
    MessageAnalyzer.topic_pass env content topics = Normal [] ->
    let found := filter (fun post => found_in content post = true) posts in
    exists result,
      fst (MessageAnalyzer.analyzePostsWithLLM env self posts topics name w) = Normal result
      /\ (found <> [] /\ topics <> [] ->
          (forall topic, topic ∈ llm_relevantTopics result <-> topic ∈ topics)
          /\ relevantPosts result = found)
      /\ (found = [] \/ topics = [] ->
          llm_relevantTopics result = [] /\ relevantPosts result = []).
Proof.
  intros env self cfg posts topics name content w Hcfg Hposts _ Hllm Hids Hpass found.
  destruct (read_reply_tie_break env content posts topics Hids Hpass)
    as (result & Hread & Htopics & Hrel).
  exists result. split.
  - unfold MessageAnalyzer.analyzePostsWithLLM. rewrite Hcfg.
    destruct posts as [|post posts]; [contradiction|]. simpl.
    unfold MessageAnalyzer.read_reply in Hread. rewrite Hpass in Hread.
    injection Hread as <-.
    unfold try_catch, bind, console_error, modify, external, lift. simpl.
    rewrite Hllm. simpl. rewrite Hpass. reflexivity.
  - assert (Hfound : found <> [] <-> exists post, post ∈ posts /\ found_in content post = true).
    { subst found. split.
      - intros Hne. destruct (filter _ posts) as [|post rest] eqn:Hf; [contradiction|].
        assert (Hin : post ∈ filter (fun post => found_in content post = true) posts)
          by (rewrite Hf; apply list_elem_of_here).
        apply list_elem_of_filter in Hin as [Hfound Hin]. exists post. tauto.
      - intros (post & Hin & Hf) Hnil.
        assert (Hmem : post ∈ filter (fun post => found_in content post = true) posts)
          by (apply list_elem_of_filter; tauto).
        rewrite Hnil in Hmem. apply elem_of_nil in Hmem. exact Hmem. }
    split.
    + intros [Hne Htne]. split.
      * intros topic. rewrite Htopics. apply Hfound in Hne. tauto.
      * rewrite Hrel. destruct topics; [contradiction | reflexivity].
    + intros Hor. split.
      * apply elem_of_nil_inv. intros topic Hin. apply Htopics in Hin as [Ht Hex].
        destruct Hor as [Hnil | ->]; [|apply elem_of_nil in Ht; exact Ht].
        apply Hfound in Hex. contradiction.
      * rewrite Hrel. destruct topics as [|t topics]; [reflexivity|].
        destruct Hor as [Hnil | Hnil]; [exact Hnil | discriminate].
Qed.

Lemma tie_break_matches_every_topic_when_a_candidate_is_found_witness :
  MessageAnalyzer.matchAll_ids Sample.reply_candidate_id = [Sample.id_a]
  /\ exists result,
       fst (MessageAnalyzer.analyzePostsWithLLM (Sample.answering Sample.reply_candidate_id)
              Sample.llm_analyzer [Sample.butterfly; Sample.lunch] ["table tennis"]
              "town-square" Sample.idle) = Normal result
       /\ (forall topic, topic ∈ llm_relevantTopics result <-> topic ∈ ["table tennis"])
       /\ relevantPosts result = [Sample.butterfly].
Proof.
  split; [vm_compute; reflexivity|].
  destruct (tie_break_matches_every_topic_when_a_candidate_is_found
              (Sample.answering Sample.reply_candidate_id) Sample.llm_analyzer Sample.llm
              [Sample.butterfly; Sample.lunch] ["table tennis"] "town-square"
              Sample.reply_candidate_id Sample.idle)
    as (result & Hres & Hsome & _).
  - reflexivity.
  - discriminate.
  - reflexivity.
  - reflexivity.
  - vm_compute. discriminate.
  - vm_compute. reflexivity.
  - exists result. split; [exact Hres|].
    destruct Hsome as [Htopics Hrel].
    + split; [vm_compute; discriminate | discriminate].
    + split; [exact Htopics|]. rewrite Hrel. vm_compute. reflexivity.
Defined.

(** ** The alert *)

Lemma string_app_assoc (a b c : string) : (a +:+ b) +:+ c = a +:+ b +:+ c.
Proof.
  induction a as [|x a IH]; [reflexivity|].
  change (String x ((a +:+ b) +:+ c) = String x (a +:+ b +:+ c)).
  rewrite IH. reflexivity.
Qed.

Lemma string_app_nil_r (a : string) : a +:+ EmptyString = a.
Proof.
  induction a as [|x a IH]; [reflexivity|].
  change (String x (a +:+ EmptyString) = String x a).
  rewrite IH. reflexivity.
Qed.

(** One round of the loop appends the line of the post and makes one
    external call. *)
Lemma render_post_line (env : Env) (message : string) (post : Post) (w : World) :
  TopicMonitor.render_post env message post w
  = (Normal (message +:+ alert_line env (w_calls w) post), set_calls (S (w_calls w)) w).
Proof.
  unfold TopicMonitor.render_post, alert_line, author_at, bind, try_catch, external, ret.
  simpl. destruct (api_getUserProfile env (w_calls w) (post_user_id post)); reflexivity.
Qed.

Lemma render_posts_lines (env : Env) (shown : list Post) :
  forall (message : string) (w : World),
    TopicMonitor.render_posts env message shown w
    = (Normal (message +:+ concat_lines (alert_lines env (w_calls w) shown)),
       set_calls (length shown + w_calls w) w).
Proof.
  induction shown as [|post rest IH]; intros message w; simpl.
  - rewrite string_app_nil_r. destruct w; reflexivity.
  - unfold bind. rewrite render_post_line, IH. simpl.
    rewrite string_app_assoc. f_equal. rewrite Nat.add_succ_r. reflexivity.
Qed.

Lemma alert_lines_length (env : Env) (shown : list Post) :
  forall n, length (alert_lines env n shown) = length shown.
Proof. induction shown as [|post rest IH]; intros n; simpl; [|rewrite IH]; reflexivity. Qed.

Lemma alert_lines_lookup (env : Env) (shown : list Post) :
  forall n k post, shown !! k = Some post ->
                   alert_lines env n shown !! k = Some (alert_line env (n + k) post).
Proof.
  induction shown as [|x rest IH]; intros n k post Hk; [discriminate|].
  destruct k as [|k]; simpl in *.
  - injection Hk as ->. rewrite Nat.add_0_r. reflexivity.
  - rewrite (IH (S n) k post Hk). rewrite Nat.add_succ_r. reflexivity.
Qed.

(** The text [compose] builds. *)
Lemma compose_text (env : Env) (user : string) (result : AnalysisResult) (w : World) :
  fst (TopicMonitor.compose env user result w)
  = Normal (alert_header env (w_calls w) user result
            +:+ concat_lines (alert_lines env (S (w_calls w)) (take 5 (posts result)))
            +:+ more_suffix (length (posts result))).
Proof.
  unfold TopicMonitor.compose, alert_header, more_suffix.
  unfold bind at 1, try_catch, bind at 1, external, console_error, modify, ret. simpl.
  destruct (api_getUserProfile env (w_calls w) user) as [profile|e]; simpl;
    unfold bind; rewrite render_posts_lines; simpl;
    destruct (5 <? length (posts result))%nat; simpl;
    repeat rewrite ?string_app_assoc, ?string_app_nil_r; reflexivity.
Qed.

(** C8, as stated, fails on the text of the suffix: the alert for seven
    matches has no "...and 2 more"; it ends with "... and 2 more" and a
    line feed. *)
Lemma alert_for_seven_has_spaced_suffix :
  length (posts Sample.seven_matches) = 7
  /\ fst (TopicMonitor.compose Sample.env "admin" Sample.seven_matches Sample.idle)
     = Normal Sample.alert_for_seven
  /\ includes Sample.alert_for_seven "...and 2 more" = false
  /\ includes Sample.alert_for_seven ("... and 2 more" +:+ newline) = true.
Proof. repeat split; vm_compute; reflexivity. Qed.

(** C8, amended. The alert is its head, then one line for each of the
    first five matches in the order of the result (all of them when there
    are five or fewer), then, when there are more than five, the line
    "... and N more" with N the number of matches minus five (for seven,
    "... and 2 more"), and nothing otherwise.  With a delivery channel and a
    recipient set, that text is what [sendNotification] posts. *)
Theorem alert_lists_five_and_counts_the_rest :
  forall (env : Env) (self : TopicMonitor.t) (user : string) (result : AnalysisResult)
         (w : World),
    let shown := take 5 (posts result) in
    let lines := alert_lines env (S (w_calls w)) shown in
    let text := alert_header env (w_calls w) user result
                +:+ concat_lines lines +:+ more_suffix (length (posts result)) in
    fst (TopicMonitor.compose env user result w) = Normal text
    /\ length lines = Nat.min 5 (length (posts result))
    /\ (forall k post, posts result !! k = Some post -> (k < 5)%nat ->
          lines !! k = Some (alert_line env (S (w_calls w) + k) post))
    /\ ((length (posts result) <= 5)%nat ->
          shown = posts result /\ more_suffix (length (posts result)) = EmptyString)
    /\ ((5 < length (posts result))%nat ->
          more_suffix (length (posts result))
          = "... and " +:+ show_nat (length (posts result) - 5) +:+ " more" +:+ newline)
    /\ more_suffix 7 = "... and 2 more" +:+ newline
    /\ (forall dm, TopicMonitor.dmChannelId self = Some dm ->
          TopicMonitor.sysadminUserId self = Some user ->
          TopicMonitor.is_set (Some dm) = true ->
          TopicMonitor.is_set (Some user) = true ->
          w_posted (snd (TopicMonitor.sendNotification env self result w))
          = (dm, text) :: w_posted w).
Proof.
  intros env self user result w shown lines text.
  split; [apply compose_text|].
  split; [subst lines shown; rewrite alert_lines_length, length_take; reflexivity|].
  split.
  { intros k post Hk Hlt. subst lines shown. apply alert_lines_lookup.
    rewrite lookup_take_lt by exact Hlt. exact Hk. }
  split.
  { intros Hle. split; [subst shown; apply take_ge; exact Hle|].
    unfold more_suffix. destruct (Nat.ltb_spec 5 (length (posts result))); [lia | reflexivity]. }
  split.
  { intros Hlt. unfold more_suffix.
    destruct (Nat.ltb_spec 5 (length (posts result))); [reflexivity | lia]. }
  split; [reflexivity|].
  intros dm Hdm Huser Hdm_set Huser_set.
  unfold TopicMonitor.sendNotification. rewrite Hdm, Huser, Hdm_set, Huser_set. simpl.
  pose proof (compose_text env user result w) as Htext. fold shown lines text in Htext.
  unfold try_catch, bind at 1.
  destruct (TopicMonitor.compose env user result w) as [[message|e] w1] eqn:Hcompose;
    simpl in Htext; [|discriminate].
  injection Htext as ->.
  assert (Hposted : w_posted w1 = w_posted w).
  { pose proof (f_equal snd Hcompose) as Hw. simpl in Hw. subst w1.
    unfold TopicMonitor.compose.
    unfold bind at 1, try_catch, bind at 1, external, console_error, modify, ret. simpl.
    destruct (api_getUserProfile env (w_calls w) user); simpl;
      unfold bind; rewrite render_posts_lines; simpl; reflexivity. }
  unfold TopicMonitor.createPost, bind, modify, external, console_error. simpl.
  rewrite <- Hposted.
  destruct (api_createPost env (w_calls w1) dm text); reflexivity.
Qed.

Lemma alert_lists_five_and_counts_the_rest_witness :
  length (alert_lines Sample.env 2 (take 5 (posts Sample.seven_matches))) = 5
  /\ w_posted (snd (TopicMonitor.sendNotification Sample.env Sample.monitor
                      Sample.seven_matches Sample.idle))
     = [("dm1", Sample.alert_for_seven)].
Proof.
  destruct (alert_lists_five_and_counts_the_rest Sample.env Sample.monitor "admin"
              Sample.seven_matches Sample.idle)
    as (_ & Hlen & _ & _ & _ & _ & Hposted).
  split; [exact Hlen|].
  rewrite (Hposted "dm1" eq_refl eq_refl eq_refl eq_refl).
  vm_compute. reflexivity.
Defined.

(* ===================================================================== *)
(** * Further properties *)
(* ===================================================================== *)

(** ** What each operation leaves alone *)

Section Frame.

(** A preorder on worlds, with what it admits of the writes of the process;
    each lemma below needs the writes its operation makes. *)
Variable R : World -> World -> Prop.
Hypothesis F_refl : forall w, R w w.
Hypothesis F_trans : forall w1 w2 w3, R w1 w2 -> R w2 w3 -> R w1 w3.
Hypothesis F_log : forall line, steps R (console_error line).
Hypothesis F_call : forall w, R w (set_calls (S (w_calls w)) w).
Hypothesis F_fetch : forall w c l, R w (set_fetches ((c, l) :: w_fetches w) w).
Hypothesis F_post : forall w c m, R w (set_posted ((c, m) :: w_posted w) w).
Hypothesis F_mark : forall c p, steps R (StateManager.markPostProcessed c p).
Hypothesis F_lastRun :
  forall w now, R w (set_state (mkMonitorState now (processedPosts (w_state w))) w).
Hypothesis F_file : forall w f, R w (set_file f w).
Hypothesis F_flag : forall w b, R w (set_isRunning b w).
Hypothesis F_runs : forall w, R w (set_callback_runs (S (w_callback_runs w)) w).
Hypothesis F_task : forall w b, R w (set_task b w).
Hypothesis F_schedule : forall w s, R w (set_schedule s w).

Lemma frame_external {A} (oracle : nat -> Completion A) : steps R (external oracle).
Proof. intros w. apply F_call. Qed.

Lemma frame_writeFileSync (env : Env) : steps R (StateManager.writeFileSync env).
Proof.
  intros w. unfold StateManager.writeFileSync.
  destruct (fs_writeFileSync env (w_calls w)); simpl; [apply F_call|].
  eapply F_trans; [apply F_call | apply F_file].
Qed.

(** One syntactic layer of a computation. *)
Ltac frame_layer :=
  lazymatch goal with
  | |- steps _ (StateManager.writeFileSync _) => apply frame_writeFileSync
  | |- steps _ (bind _ _) => apply (steps_bind R F_trans); [|intros ?]
  | |- steps _ (try_catch _ _) => apply (steps_try_catch R F_trans); [|intros ?]
  | |- steps _ (try_finally _ _) =>
      apply (steps_try_finally R F_trans); [|intros ?; apply F_flag]
  | |- steps _ (for_of _ _) => apply (steps_for_of R F_refl F_trans); intros ?
  | |- steps _ (ret _) => apply (steps_ret R F_refl)
  | |- steps _ (throw _) => apply (steps_throw R F_refl)
  | |- steps _ (get _) => apply (steps_get R F_refl)
  | |- steps _ (lift _) => apply (steps_lift R F_refl)
  | |- steps _ (console_error _) => apply F_log
  | |- steps _ (external _) => apply frame_external
  | |- steps _ (StateManager.markPostProcessed _ _) => apply F_mark
  | |- steps _ (modify _) =>
      apply steps_modify; intros ?;
      first [ apply F_fetch | apply F_post | apply F_lastRun | apply F_file
            | apply F_flag | apply F_runs | apply F_task | apply F_schedule ]
  | |- steps _ (if ?b then _ else _) => destruct b
  | |- steps _ (match ?x with _ => _ end) => destruct x
  end.

Ltac frame_auto := repeat frame_layer.

Lemma frame_markPostsProcessed (c : string) (ps : list string) :
  steps R (StateManager.markPostsProcessed c ps).
Proof. unfold StateManager.markPostsProcessed. frame_auto. Qed.

Lemma frame_saveState (env : Env) (path : string) :
  steps R (StateManager.saveState env path).
Proof. unfold StateManager.saveState. frame_auto. Qed.

Lemma frame_enrich_loop (env : Env) (posts : list Post) :
  forall cache, steps R (MessageAnalyzer.enrich_loop env cache posts).
Proof.
  induction posts as [|post rest IH]; intros cache; simpl; frame_auto; apply IH.
Qed.

Lemma frame_analyzePostsWithLLM (env : Env) (self : MessageAnalyzer.t)
    (posts : list Post) (topics : list string) (name : string) :
  steps R (MessageAnalyzer.analyzePostsWithLLM env self posts topics name).
Proof.
  unfold MessageAnalyzer.analyzePostsWithLLM, MessageAnalyzer.call_fallbackAnalysis.
  frame_auto.
Qed.

Lemma frame_select_candidates (env : Env) (self : MessageAnalyzer.t) (name : string)
    (firstRun : bool) (firstRunLimit : option Z) :
  steps R (MessageAnalyzer.select_candidates env self name firstRun firstRunLimit).
Proof.
  unfold MessageAnalyzer.select_candidates, MessageAnalyzer.getPostsForChannel.
  frame_auto.
Qed.

Lemma frame_process_candidates (env : Env) (self : MessageAnalyzer.t) (name : string)
    (channel : Channel) (cands : list Post) :
  steps R (MessageAnalyzer.process_candidates env self name channel cands).
Proof.
  unfold MessageAnalyzer.process_candidates, MessageAnalyzer.enrichPostsWithUserInfo.
  frame_auto.
  - apply frame_enrich_loop.
  - apply frame_analyzePostsWithLLM.
  - apply frame_saveState.
Qed.

Lemma frame_analyzeChannel (env : Env) (self : MessageAnalyzer.t) (name : string)
    (firstRun : bool) (firstRunLimit : option Z) :
  steps R (MessageAnalyzer.analyzeChannel env self name firstRun firstRunLimit).
Proof.
  unfold MessageAnalyzer.analyzeChannel. frame_auto.
  - apply frame_select_candidates.
  - apply frame_process_candidates.
Qed.

Lemma frame_analyze_posts (topics : list string) (channel : string) (posts : list Post) :
  forall acc, steps R (KeywordChannel.analyze_posts topics channel acc posts).
Proof.
  induction posts as [|post rest IH]; intros acc; simpl.
  - apply (steps_ret R F_refl).
  - apply (steps_bind R F_trans); [|intros ?; apply IH].
    unfold KeywordChannel.analyze_post. frame_auto.
Qed.

Lemma frame_keyword_analyzeChannel (env : Env) (self : MessageAnalyzer.t) (name : string)
    (firstRun : bool) (firstRunLimit : option Z) :
  steps R (KeywordChannel.analyzeChannel env self name firstRun firstRunLimit).
Proof.
  unfold KeywordChannel.analyzeChannel. frame_auto.
  - apply frame_select_candidates.
  - apply frame_analyze_posts.
  - apply frame_saveState.
Qed.

Lemma frame_render_posts (env : Env) (shown : list Post) :
  forall message, steps R (TopicMonitor.render_posts env message shown).
Proof.
  induction shown as [|post rest IH]; intros message; simpl.
  - apply (steps_ret R F_refl).
  - apply (steps_bind R F_trans); [|intros ?; apply IH].
    unfold TopicMonitor.render_post. frame_auto.
Qed.

Lemma frame_sendNotification (env : Env) (self : TopicMonitor.t) (result : AnalysisResult) :
  steps R (TopicMonitor.sendNotification env self result).
Proof.
  unfold TopicMonitor.sendNotification, TopicMonitor.compose, TopicMonitor.createPost.
  frame_auto. apply frame_render_posts.
Qed.

Lemma frame_analyze_channels (env : Env) (self : TopicMonitor.t) (firstRun : bool)
    (names : list string) :
  forall results, steps R (TopicMonitor.analyze_channels env self firstRun names results).
Proof.
  induction names as [|name rest IH]; intros results; simpl.
  - apply (steps_ret R F_refl).
  - apply (steps_bind R F_trans); [apply frame_analyzeChannel | intros ?; apply IH].
Qed.

Lemma frame_runMonitoring (env : Env) (self : TopicMonitor.t) :
  steps R (TopicMonitor.runMonitoring env self).
Proof.
  unfold TopicMonitor.runMonitoring. frame_auto.
  - apply frame_analyze_channels.
  - apply frame_sendNotification.
Qed.

Lemma frame_runNow (callback : M unit) :
  steps R callback -> steps R (MonitoringScheduler.runNow callback).
Proof.
  intros Hcb. unfold MonitoringScheduler.runNow, MonitoringScheduler.invoke.
  frame_auto. exact Hcb.
Qed.

Lemma frame_scheduled_tick (env : Env) (callback : M unit) :
  steps R callback -> steps R (MonitoringScheduler.scheduled_tick env callback).
Proof.
  intros Hcb. unfold MonitoringScheduler.scheduled_tick, MonitoringScheduler.invoke.
  frame_auto. exact Hcb.
Qed.

Lemma frame_start (env : Env) : steps R (MonitoringScheduler.start env).
Proof. unfold MonitoringScheduler.start. frame_auto. Qed.

Lemma frame_stop (env : Env) : steps R (MonitoringScheduler.stop env).
Proof. unfold MonitoringScheduler.stop. frame_auto. Qed.

Lemma frame_updateSchedule (env : Env) (sched : string) :
  steps R (MonitoringScheduler.updateSchedule env sched).
Proof.
  unfold MonitoringScheduler.updateSchedule. frame_auto;
    first [apply frame_stop | apply frame_start].
Qed.

Lemma frame_findSysadminUser (api : Startup.Api) :
  steps R (Startup.findSysadminUser api).
Proof. unfold Startup.findSysadminUser. frame_auto. Qed.

Lemma frame_createDmChannel (env : Env) (api : Startup.Api) (user : option string) :
  steps R (Startup.createDmChannel env api user).
Proof. unfold Startup.createDmChannel. frame_auto. Qed.

Lemma frame_attempt {A} (m : M A) : steps R m -> steps R (Startup.attempt m).
Proof.
  intros Hm w. unfold Startup.attempt. specialize (Hm w).
  destruct (m w) as [r w']. exact Hm.
Qed.

Lemma frame_startup (env : Env) (api : Startup.Api) (self : TopicMonitor.t) :
  steps R (Startup.start env api self).
Proof.
  unfold Startup.start.
  apply (steps_bind R F_trans); [apply frame_attempt, frame_findSysadminUser|].
  intros [user|e]; [|frame_auto].
  apply (steps_bind R F_trans); [apply frame_attempt, frame_createDmChannel|].
  intros [dm|e]; frame_auto. apply frame_start.
Qed.

(** Every operation of the process after its construction. *)
Lemma frame_perform (a : Process.Action) : steps R (Process.perform a).
Proof.
  destruct a; simpl;
    unfold TopicMonitor.tick, TopicMonitor.runNow, Tools.handleRunMonitoring,
      Tools.handleGetMonitoringStatus, TopicMonitor.runNow;
    frame_auto;
    first [ apply frame_scheduled_tick, frame_runMonitoring
          | apply frame_runNow, frame_runMonitoring
          | apply frame_start | apply frame_stop | apply frame_updateSchedule
          | apply frame_analyzeChannel
          | apply frame_markPostsProcessed
          | apply frame_saveState ].
Qed.

Lemma frame_run (actions : list Process.Action) (w : World) :
  R w (Process.run actions w).
Proof.
  unfold Process.run. revert w.
  induction actions as [|a actions IH]; intros w; simpl.
  - apply F_refl.
  - eapply F_trans; [apply (frame_perform a w) | apply IH].
Qed.

End Frame.

(** ** The scheduler: arming, disarming, rescheduling *)

(** X1.  [start] answers [true] exactly when no task was armed, the stored
    expression is valid and [cron.schedule] does not throw; a task is armed
    afterwards exactly when one was before or the answer is [true].  It
    never throws, and leaves the expression, the in-flight flag, the
    callback count, the ledger and the requests as they were.  So an
    invalid expression, and a second [start], are refused with the
    scheduler as it was. *)
Theorem start_arms_exactly_when_it_answers_true :
  forall (env : Env) (w : World),
    let armed := negb (w_task w) && cron_validate env (w_schedule w)
                 && is_normal (cron_schedule env (w_calls w)) in
    let w' := snd (MonitoringScheduler.start env w) in
    fst (MonitoringScheduler.start env w) = Normal armed
    /\ w_task w' = w_task w || armed
    /\ w_schedule w' = w_schedule w
    /\ w_isRunning w' = w_isRunning w
    /\ w_callback_runs w' = w_callback_runs w
    /\ ledger w' = ledger w
    /\ requests w' = requests w.
Proof.
  intros env w.
  unfold MonitoringScheduler.start, bind, get, try_catch, external, modify, console_error, ret.
  simpl. destruct (w_task w) eqn:Htask; simpl.
  - rewrite Htask. repeat split.
  - destruct (cron_validate env (w_schedule w)); simpl.
    + destruct (cron_schedule env (w_calls w)) as [[]|e]; simpl;
        rewrite ?Htask; repeat split.
    + rewrite Htask. repeat split.
Qed.

(** X2.  [stop] answers [true] exactly when a task was armed and stopping it
    does not throw; then no task is armed afterwards, and otherwise the
    task is as it was.  It never throws and leaves the rest of the
    scheduler, the ledger and the requests as they were. *)
Theorem stop_disarms_exactly_when_it_answers_true :
  forall (env : Env) (w : World),
    let stopped := w_task w && is_normal (cron_task_stop env (w_calls w)) in
    let w' := snd (MonitoringScheduler.stop env w) in
    fst (MonitoringScheduler.stop env w) = Normal stopped
    /\ w_task w' = w_task w && negb stopped
    /\ w_schedule w' = w_schedule w
    /\ w_isRunning w' = w_isRunning w
    /\ w_callback_runs w' = w_callback_runs w
    /\ ledger w' = ledger w
    /\ requests w' = requests w.
Proof.
  intros env w.
  unfold MonitoringScheduler.stop, bind, get, try_catch, external, modify, console_error, ret.
  simpl. destruct (w_task w) eqn:Htask; simpl.
  - destruct (cron_task_stop env (w_calls w)) as [[]|e]; simpl;
      rewrite ?Htask; repeat split.
  - rewrite Htask. repeat split.
Qed.

(** X3.  [updateSchedule] with an expression that is not valid answers [false]
    and changes nothing but the console: expression and task stay.  With a
    valid one the stored expression is the new one in every case; without
    a task it answers [true]; with a task it stops and starts again, and
    answers [true] exactly when both succeed.  When stopping throws, the
    old task stays armed although the stored expression is the new one. *)
Theorem updateSchedule_validates_then_swaps :
  forall (env : Env) (sched : string) (w : World),
    let w' := snd (MonitoringScheduler.updateSchedule env sched w) in
    (cron_validate env sched = false ->
       fst (MonitoringScheduler.updateSchedule env sched w) = Normal false
       /\ same_but_console w w')
    /\ (cron_validate env sched = true ->
          let stop_ok := is_normal (cron_task_stop env (w_calls w)) in
          let start_ok := is_normal (cron_schedule env (S (w_calls w))) in
          w_schedule w' = sched
          /\ fst (MonitoringScheduler.updateSchedule env sched w)
             = Normal (negb (w_task w) || (stop_ok && start_ok))
          /\ w_task w' = w_task w && (negb stop_ok || start_ok))
    /\ w_isRunning w' = w_isRunning w
    /\ w_callback_runs w' = w_callback_runs w
    /\ ledger w' = ledger w
    /\ requests w' = requests w.
Proof.
  intros env sched w.
  destruct w as [calls cons dlast dposts st file fetches posted task sch running runs].
  unfold MonitoringScheduler.updateSchedule, MonitoringScheduler.stop,
    MonitoringScheduler.start, bind, get, try_catch, external, modify, console_error, ret.
  simpl. destruct (cron_validate env sched) eqn:Hvalid; simpl.
  - split; [discriminate|].
    destruct task; simpl;
      [destruct (cron_task_stop env calls) as [[]|e]; simpl; rewrite ?Hvalid; simpl;
       [destruct (cron_schedule env (S calls)) as [[]|e]; simpl|]|];
      repeat split.
  - split; [|split; [discriminate|]]; repeat split.
Qed.

Lemma updateSchedule_validates_then_swaps_witness :
  cron_validate Sample.env "0 * * * *" = true
  /\ w_schedule (snd (MonitoringScheduler.updateSchedule Sample.env "0 * * * *" Sample.idle))
     = "0 * * * *"
  /\ fst (MonitoringScheduler.updateSchedule Sample.env "0 * * * *" Sample.idle) = Normal true.
Proof.
  destruct (updateSchedule_validates_then_swaps Sample.env "0 * * * *" Sample.idle)
    as (_ & Hvalid & _).
  destruct (Hvalid eq_refl) as (Hsched & Hanswer & _).
  split; [reflexivity|]. split; [exact Hsched | exact Hanswer].
Defined.

(** ** The state manager: marking, saving, loading *)

(** A write to the processed dictionary changes nothing else that [f]
    observes: then no mark changes [f]. *)
Lemma markPostProcessed_unchanged {X : Type} (f : World -> X) (c p : string) :
  (forall m w, f (StateManager.write_posts m w) = f w) ->
  steps (unchanged f) (StateManager.markPostProcessed c p).
Proof.
  intros Hf w. unfold unchanged.
  unfold StateManager.markPostProcessed, StateManager.isPostProcessed,
    StateManager.push_processed, bind, get, modify, ret. simpl.
  destruct (StateManager.posts_of w !! c) as [l|] eqn:Hc; simpl.
  - rewrite Hc; simpl. destruct (arr_includes l p); simpl; [reflexivity|].
    rewrite Hc. simpl. apply Hf.
  - repeat (rewrite ?posts_of_write_posts, ?lookup_insert_eq; simpl).
    rewrite !Hf. reflexivity.
Qed.

Lemma scheduler_fields_write_posts (m : PostsMap) (w : World) :
  scheduler_fields (StateManager.write_posts m w) = scheduler_fields w.
Proof. unfold StateManager.write_posts. destruct (processedPosts (w_state w)); reflexivity. Qed.

Lemma requests_write_posts (m : PostsMap) (w : World) :
  requests (StateManager.write_posts m w) = requests w.
Proof. unfold StateManager.write_posts. destruct (processedPosts (w_state w)); reflexivity. Qed.

Lemma console_write_posts (m : PostsMap) (w : World) :
  w_console (StateManager.write_posts m w) = w_console w.
Proof. unfold StateManager.write_posts. destruct (processedPosts (w_state w)); reflexivity. Qed.

Lemma file_write_posts (m : PostsMap) (w : World) :
  w_file (StateManager.write_posts m w) = w_file w.
Proof. unfold StateManager.write_posts. destruct (processedPosts (w_state w)); reflexivity. Qed.

Lemma markPostProcessed_keeps_duplicate_free (c p : string) (w : World) :
  duplicate_free w -> duplicate_free (snd (StateManager.markPostProcessed c p w)).
Proof.
  intros Hnd c'. destruct (markPostProcessed_spec c p w) as (w' & -> & Hc & Hother & _).
  simpl. destruct (decide (c' = c)) as [->|Hne].
  - rewrite Hc. simpl.
    destruct (arr_includes (StateManager.getProcessedPostIds c w) p) eqn:Hin; [apply Hnd|].
    apply NoDup_app. split; [apply Hnd|]. split; [|apply NoDup_singleton].
    intros x Hx Hxp. apply list_elem_of_singleton in Hxp as ->.
    apply arr_includes_elem in Hx. congruence.
  - rewrite (Hother c' Hne). apply Hnd.
Qed.

(** X4.  When no channel lists an id twice, no operation of the process makes
    one do so: ticks, manual runs, tool calls, scheduler operations,
    analyses, marks and saves keep every channel's array free of
    duplicates. *)
Theorem process_keeps_ledger_duplicate_free :
  forall (w : World) (actions : list Process.Action),
    duplicate_free w -> duplicate_free (Process.run actions w).
Proof.
  intros w actions.
  apply (frame_run (fun w w' => duplicate_free w -> duplicate_free w'));
    try (intros; assumption); try (intros ? ? ? H; exact H).
  - intros w1 w2 w3 H12 H23 H. apply H23, H12, H.
  - intros line w0 H. exact H.
  - intros c p w0. apply markPostProcessed_keeps_duplicate_free.
Qed.

Lemma process_keeps_ledger_duplicate_free_witness :
  duplicate_free Sample.idle
  /\ duplicate_free (Process.run [Process.Tick Sample.env Sample.monitor;
                                  Process.MarkPostProcessed "c1" Sample.id_a] Sample.idle).
Proof.
  assert (Hidle : duplicate_free Sample.idle) by (intros c; apply NoDup_nil_2).
  split; [exact Hidle|].
  apply (process_keeps_ledger_duplicate_free Sample.idle _ Hidle).
Defined.

(** X5.  [markPostsProcessed] returns without an error; afterwards an id is
    processed for a channel exactly when it was before or it is one of the
    given ids and the channel is the given one.  (For a channel id that is
    no inherited property name: the dictionary is an object literal.) *)
Theorem markPostsProcessed_marks_exactly_the_given :
  forall (c : string) (ps : list string) (w : World),
    own_keys [c] = true ->
    let marked := StateManager.markPostsProcessed c ps w in
    fst marked = Normal tt
    /\ (forall c' p', StateManager.isPostProcessed c' p' (snd marked)
                      = StateManager.isPostProcessed c' p' w
                        || (bool_decide (c' = c) && arr_includes ps p'))
    /\ scheduler_fields (snd marked) = scheduler_fields w
    /\ requests (snd marked) = requests w
    /\ w_file (snd marked) = w_file w.
Proof.
  intros c ps w _. revert w. unfold StateManager.markPostsProcessed.
  induction ps as [|p ps IH]; intros w; simpl.
  - split; [reflexivity|]. split; [|repeat split].
    intros c' p'. unfold arr_includes.
    rewrite (bool_decide_eq_false_2 (p' ∈ [])) by apply not_elem_of_nil.
    rewrite andb_false_r, orb_false_r. reflexivity.
  - unfold bind.
    pose proof (markPostProcessed_unchanged scheduler_fields c p
                  scheduler_fields_write_posts w) as Hs.
    pose proof (markPostProcessed_unchanged requests c p requests_write_posts w) as Hr.
    pose proof (markPostProcessed_unchanged w_file c p file_write_posts w) as Hf.
    unfold unchanged in Hs, Hr, Hf.
    destruct (markPostProcessed_spec c p w) as (w1 & Heq & _).
    assert (Hone : forall c' p',
               StateManager.isPostProcessed c' p' w1
               = StateManager.isPostProcessed c' p' w || bool_decide (c' = c /\ p' = p)).
    { intros c' p'. pose proof (isPostProcessed_after_mark c p c' p' w) as H.
      rewrite Heq in H. exact H. }
    rewrite Heq in *. simpl in *.
    destruct (IH w1) as (Hn & Hp & Hs' & Hr' & Hf').
    split; [exact Hn|]. split; [|rewrite Hs', Hr', Hf', Hs, Hr, Hf; repeat split].
    intros c' p'. rewrite Hp, Hone, <- orb_assoc. f_equal.
    unfold arr_includes.
    destruct (decide (c' = c)) as [->|Hne].
    + rewrite (bool_decide_eq_true_2 (c = c)) by reflexivity. simpl.
      destruct (decide (p' = p)) as [->|Hp'].
      * rewrite (bool_decide_eq_true_2 (c = c /\ p = p)) by tauto.
        rewrite (bool_decide_eq_true_2 (p ∈ p :: ps)) by apply list_elem_of_here.
        reflexivity.
      * rewrite (bool_decide_eq_false_2 (c = c /\ p' = p)) by tauto. simpl.
        apply bool_decide_ext. rewrite elem_of_cons. tauto.
    + rewrite (bool_decide_eq_false_2 (c' = c /\ p' = p)) by tauto.
      rewrite (bool_decide_eq_false_2 (c' = c)) by exact Hne. reflexivity.
Qed.

Lemma markPostsProcessed_marks_exactly_the_given_witness :
  let marked := StateManager.markPostsProcessed "c1" [Sample.id_a; Sample.id_b; Sample.id_a]
                  Sample.idle in
  fst marked = Normal tt
  /\ (forall c' p', StateManager.isPostProcessed c' p' (snd marked)
                    = StateManager.isPostProcessed c' p' Sample.idle
                      || (bool_decide (c' = "c1")
                          && arr_includes [Sample.id_a; Sample.id_b; Sample.id_a] p'))
  /\ scheduler_fields (snd marked) = scheduler_fields Sample.idle
  /\ requests (snd marked) = requests Sample.idle
  /\ w_file (snd marked) = w_file Sample.idle.
Proof.
  apply (markPostsProcessed_marks_exactly_the_given "c1"
           [Sample.id_a; Sample.id_b; Sample.id_a] Sample.idle).
  vm_compute. reflexivity.
Defined.

Lemma saveState_run_on_working_fs (env : Env) (path : string) (w : World) :
  (forall n, fs_mkdirSync env n = Normal tt) ->
  (forall n, fs_writeFileSync env n = Normal tt) ->
  exists saved,
    w_file (snd (StateManager.saveState env path w))
    = Serialized saved (StateManager.posts_of w)
    /\ lastRun (w_state (snd (StateManager.saveState env path w))) = saved.
Proof.
  intros Hmkdir Hwrite.
  destruct w as [calls cons dlast dposts st file fetches posted task sch running runs].
  unfold StateManager.saveState, StateManager.writeFileSync,
    try_catch, bind, external, modify, console_error, ret.
  simpl. destruct (fs_dir_exists env calls); simpl; rewrite ?Hmkdir; simpl;
    rewrite Hwrite; simpl; eexists; split; try reflexivity;
    destruct st as [lr [|m]]; reflexivity.
Qed.

(** X6.  [saveState] never throws and never changes the processed dictionary.
    When the directory is there (or can be made) and the write succeeds,
    the file holds the dictionary with the time of the save, and [lastRun]
    is that time.  When making the directory throws, the file is as it was.
    When the write throws, the file is whatever the interrupted write left
    of it (the write is made in place, so this need not be the old
    content), and [lastRun] has moved on all the same.  Either failure is
    on the console. *)
Theorem saveState_file_after_each_outcome :
  forall (env : Env) (path : string) (w : World),
    let n := w_calls w in
    let dir_ok := fs_dir_exists env n || is_normal (fs_mkdirSync env (S n)) in
    let k := if fs_dir_exists env n then S n else S (S n) in
    let written := dir_ok && is_normal (fs_writeFileSync env (S k)) in
    let w' := snd (StateManager.saveState env path w) in
    fst (StateManager.saveState env path w) = Normal tt
    /\ StateManager.posts_of w' = StateManager.posts_of w
    /\ w_file w' = (if dir_ok
                    then match fs_writeFileSync env (S k) with
                         | Normal _ =>
                             Serialized (clock_toISOString env k) (StateManager.posts_of w)
                         | Throw _ => fs_interrupted env (S k) (w_file w)
                         end
                    else w_file w)
    /\ lastRun (w_state w') = (if dir_ok then clock_toISOString env k else lastRun (w_state w))
    /\ (if written then w_console w' = w_console w
        else exists error,
               w_console w' = w_console w ++ ["Error saving state to " +:+ path +:+ ": " +:+ error])
    /\ scheduler_fields w' = scheduler_fields w
    /\ requests w' = requests w.
Proof.
  intros env path w.
  destruct w as [calls cons dlast dposts st file fetches posted task sch running runs].
  unfold StateManager.saveState, StateManager.writeFileSync,
    try_catch, bind, external, modify, console_error, ret.
  simpl. destruct (fs_dir_exists env calls); simpl.
  - destruct (fs_writeFileSync env (S (S calls))) as [[]|e]; simpl;
      repeat split; try (destruct st as [lr [|m]]; reflexivity); eexists; reflexivity.
  - destruct (fs_mkdirSync env (S calls)) as [[]|e]; simpl.
    + destruct (fs_writeFileSync env (S (S (S calls)))) as [[]|e]; simpl;
        repeat split; try (destruct st as [lr [|m]]; reflexivity); eexists; reflexivity.
    + repeat split. eexists; reflexivity.
Qed.

(** A save that fails on a full disk, of a ledger that was on disk: the
    record is gone, and a process started on what is left begins with an
    empty ledger. *)
Remark interrupted_save_loses_the_record :
  let ledger : PostsMap := {[ "c1" := [Sample.id_a] ]} in
  let before := set_state (mkMonitorState "2025-12-31T00:00:00.000Z" (Own ledger))
                  (set_file (Serialized "2025-12-31T00:00:00.000Z" ledger) Sample.idle) in
  let after := snd (StateManager.saveState Cases.filling_up "./monitor-state.json" before) in
  w_file after = Unparsable "{"
  /\ StateManager.isPostProcessed "c1" Sample.id_a after = true
  /\ StateManager.isPostProcessed "c1" Sample.id_a
       (restart Sample.env "./monitor-state.json" after) = false.
Proof. vm_compute. repeat split; reflexivity. Qed.

Lemma restart_reads_the_file (env : Env) (path : string) (w : World)
    (saved : string) (m : PostsMap) :
  w_file w = Serialized saved m ->
  StateManager.posts_of (restart env path w) = m
  /\ lastRun (w_state (restart env path w)) = saved
  /\ w_console (restart env path w) = [].
Proof. unfold restart. intros ->. repeat split. Qed.

(** X7.  Save then load: after a save on a file system that works, a process
    started again on the file has the processed ids of every channel in
    the same order, answers [isPostProcessed] as before, took [lastRun]
    from the file, and reports nothing on the console. *)
Theorem saved_ledger_survives_a_restart :
  forall (env env' : Env) (path path' : string) (w : World),
    (forall n, fs_mkdirSync env n = Normal tt) ->
    (forall n, fs_writeFileSync env n = Normal tt) ->
    let again := restart env' path' (snd (StateManager.saveState env path w)) in
    (forall c, StateManager.getProcessedPostIds c again = StateManager.getProcessedPostIds c w)
    /\ (forall c p, StateManager.isPostProcessed c p again = StateManager.isPostProcessed c p w)
    /\ lastRun (w_state again) = lastRun (w_state (snd (StateManager.saveState env path w)))
    /\ w_console again = [].
Proof.
  intros env env' path path' w Hmkdir Hwrite again.
  destruct (saveState_run_on_working_fs env path w Hmkdir Hwrite) as (saved & Hfile & Hlast).
  destruct (restart_reads_the_file env' path' _ saved (StateManager.posts_of w) Hfile)
    as (Hposts & Hsaved & Hcons).
  fold again in Hposts, Hsaved, Hcons.
  assert (Hids : forall c, StateManager.getProcessedPostIds c again
                           = StateManager.getProcessedPostIds c w).
  { intros c. unfold StateManager.getProcessedPostIds. rewrite Hposts. reflexivity. }
  split; [exact Hids|]. split.
  - intros c p. rewrite !isPostProcessed_ids, Hids. reflexivity.
  - split; [rewrite Hsaved, Hlast; reflexivity | exact Hcons].
Qed.

Lemma saved_ledger_survives_a_restart_witness :
  let marked := snd (StateManager.markPostProcessed "c1" Sample.id_a Sample.idle) in
  StateManager.isPostProcessed "c1" Sample.id_a
    (restart Sample.env "./monitor-state.json"
       (snd (StateManager.saveState Sample.env "./monitor-state.json" marked))) = true.
Proof.
  intros marked.
  destruct (saved_ledger_survives_a_restart Sample.env Sample.env "./monitor-state.json"
              "./monitor-state.json" marked (fun _ => eq_refl) (fun _ => eq_refl))
    as (_ & Hp & _).
  rewrite Hp. vm_compute. reflexivity.
Defined.

(** ** The scan for message ids *)

Lemma prefix_refl_ascii (c : ascii) (a b : string) :
  String.prefix a b = true -> String.prefix (String c a) (String c b) = true.
Proof. intros H. simpl. destruct (ascii_dec c c) as [_|Hne]; [exact H | contradiction]. Qed.

Lemma prefix_substring_0 (m : nat) (s : string) :
  String.prefix (String.substring 0 m s) s = true.
Proof.
  revert m. induction s as [|c s IH]; intros m; [destruct m; reflexivity|].
  destruct m as [|m]; [reflexivity|].
  change (String.substring 0 (S m) (String c s)) with (String c (String.substring 0 m s)).
  apply prefix_refl_ascii, IH.
Qed.

Lemma prefix_app_substring (n m : nat) (s : string) :
  String.prefix (String.substring 0 n s +:+ String.substring n m s) s = true.
Proof.
  revert n. induction s as [|c s IH]; intros n.
  - destruct n, m; reflexivity.
  - destruct n as [|n].
    + replace (String.substring 0 0 (String c s)) with EmptyString by reflexivity.
      change (EmptyString +:+ String.substring 0 m (String c s))
        with (String.substring 0 m (String c s)).
      apply prefix_substring_0.
    + change (String.substring 0 (S n) (String c s)) with (String c (String.substring 0 n s)).
      change (String.substring (S n) m (String c s)) with (String.substring n m s).
      change (String c (String.substring 0 n s) +:+ String.substring n m s)
        with (String c (String.substring 0 n s +:+ String.substring n m s)).
      apply prefix_refl_ascii, IH.
Qed.

Lemma prefix_length (a b : string) :
  String.prefix a b = true -> (String.length a <= String.length b)%nat.
Proof.
  revert b. induction a as [|c a IH]; intros b H; simpl; [lia|].
  destruct b as [|d b]; [discriminate|]. simpl in H.
  destruct (ascii_dec c d); [|discriminate]. specialize (IH b H). simpl. lia.
Qed.

Lemma length_app_string (a b : string) :
  String.length (a +:+ b) = (String.length a + String.length b)%nat.
Proof.
  induction a as [|c a IH]; [reflexivity|].
  change (String c a +:+ b) with (String c (a +:+ b)). simpl. rewrite IH. reflexivity.
Qed.

Lemma all_id_chars_spec (s : string) :
  all_id_chars_of s <-> MessageAnalyzer.all_id_chars s = true.
Proof.
  unfold all_id_chars_of. induction s as [|c s IH]; simpl.
  - split; [reflexivity | intros _; constructor].
  - rewrite andb_true_iff, <- IH, Forall_cons. tauto.
Qed.

(** A match of the pattern at the start of [s]: the captured id has 26
    characters, all of them lower-case letters or digits, and [s] starts
    with the id between two double quotes. *)
Lemma match_id_at_sound (s i : string) :
  MessageAnalyzer.match_id_at s = Some i ->
  String.length i = 26
  /\ MessageAnalyzer.all_id_chars i = true
  /\ String.prefix (dquote +:+ i +:+ dquote) s = true.
Proof.
  unfold MessageAnalyzer.match_id_at. destruct s as [|q rest]; [discriminate|].
  destruct (Ascii.eqb q (ascii_of_nat 34)) eqn:Hq; simpl; [|discriminate].
  destruct (String.length (String.substring 0 26 rest) =? 26)%nat eqn:Hlen; simpl;
    [|discriminate].
  destruct (MessageAnalyzer.all_id_chars (String.substring 0 26 rest)) eqn:Hchars; simpl;
    [|discriminate].
  destruct (String.eqb (String.substring 26 1 rest) dquote) eqn:Hend; [|discriminate].
  intros Heq. injection Heq as <-.
  apply Ascii.eqb_eq in Hq as ->. apply Nat.eqb_eq in Hlen. apply String.eqb_eq in Hend.
  split; [exact Hlen|]. split; [exact Hchars|].
  rewrite <- Hend.
  change (dquote +:+ String.substring 0 26 rest +:+ String.substring 26 1 rest)
    with (String (ascii_of_nat 34)
            (String.substring 0 26 rest +:+ String.substring 26 1 rest)).
  apply prefix_refl_ascii, prefix_app_substring.
Qed.

Lemma includes_here (hay needle : string) :
  String.prefix needle hay = true -> includes hay needle = true.
Proof.
  intros H. destruct hay as [|c h].
  - change (includes EmptyString needle) with (String.prefix needle EmptyString || false).
    rewrite H. reflexivity.
  - change (includes (String c h) needle)
      with (String.prefix needle (String c h) || includes h needle).
    rewrite H. reflexivity.
Qed.

Lemma includes_later (c : ascii) (hay needle : string) :
  includes hay needle = true -> includes (String c hay) needle = true.
Proof.
  intros H.
  change (includes (String c hay) needle)
    with (String.prefix needle (String c hay) || includes hay needle).
  rewrite H. apply orb_true_r.
Qed.

Lemma scan_ids_at (c : ascii) (s : string) :
  MessageAnalyzer.scan_ids 0 (String c s)
  = match MessageAnalyzer.match_id_at (String c s) with
    | Some i => i :: MessageAnalyzer.scan_ids 27 s
    | None => MessageAnalyzer.scan_ids 0 s
    end.
Proof. reflexivity. Qed.

Lemma scan_ids_skip (k : nat) (c : ascii) (s : string) :
  MessageAnalyzer.scan_ids (S k) (String c s) = MessageAnalyzer.scan_ids k s.
Proof. reflexivity. Qed.

Lemma scan_ids_sound (s : string) :
  forall skip i, i ∈ MessageAnalyzer.scan_ids skip s ->
    String.length i = 26
    /\ MessageAnalyzer.all_id_chars i = true
    /\ includes s (dquote +:+ i +:+ dquote) = true.
Proof.
  induction s as [|c s IH]; intros skip i Hin.
  - destruct skip; apply elem_of_nil in Hin; contradiction.
  - destruct skip as [|k].
    + rewrite scan_ids_at in Hin.
      destruct (MessageAnalyzer.match_id_at (String c s)) as [j|] eqn:Hm.
      * apply elem_of_cons in Hin as [->|Hin].
        -- destruct (match_id_at_sound _ _ Hm) as (Hl & Hc & Hp).
           split; [exact Hl|]. split; [exact Hc|]. apply includes_here, Hp.
        -- destruct (IH _ _ Hin) as (Hl & Hc & Hi).
           split; [exact Hl|]. split; [exact Hc|]. apply includes_later, Hi.
      * destruct (IH _ _ Hin) as (Hl & Hc & Hi).
        split; [exact Hl|]. split; [exact Hc|]. apply includes_later, Hi.
    + rewrite scan_ids_skip in Hin. destruct (IH _ _ Hin) as (Hl & Hc & Hi).
      split; [exact Hl|]. split; [exact Hc|]. apply includes_later, Hi.
Qed.

Lemma match_id_at_length (s i : string) :
  MessageAnalyzer.match_id_at s = Some i -> (28 <= String.length s)%nat.
Proof.
  intros Hm. destruct (match_id_at_sound s i Hm) as (Hl & _ & Hp).
  apply prefix_length in Hp. rewrite !length_app_string, Hl in Hp.
  change (String.length dquote) with 1%nat in Hp. lia.
Qed.

Lemma scan_ids_length (s : string) :
  forall skip,
    (28 * length (MessageAnalyzer.scan_ids skip s) <= String.length s - skip)%nat.
Proof.
  induction s as [|c s IH]; intros skip.
  - destruct skip; simpl; lia.
  - destruct skip as [|k].
    + rewrite scan_ids_at.
      destruct (MessageAnalyzer.match_id_at (String c s)) as [j|] eqn:Hm.
      * apply match_id_at_length in Hm. specialize (IH 27%nat).
        simpl length. simpl String.length in *. lia.
      * specialize (IH 0%nat). simpl String.length. lia.
    + specialize (IH k). rewrite scan_ids_skip. simpl String.length. lia.
Qed.

(** X8.  Every id that the scan finds in a text has 26 characters, each a
    lower-case letter or a digit, and stands in the text between double
    quotes; the matches do not overlap, so a text of [n] characters holds
    at most [n / 28] of them.  A text shorter than 28 characters holds
    none. *)
Theorem matchAll_ids_finds_quoted_ids_only :
  forall (text : string),
    (forall id, id ∈ MessageAnalyzer.matchAll_ids text ->
       String.length id = 26
       /\ all_id_chars_of id
       /\ includes text (dquote +:+ id +:+ dquote) = true)
    /\ (28 * length (MessageAnalyzer.matchAll_ids text) <= String.length text)%nat.
Proof.
  intros text. split.
  - intros id Hin. destruct (scan_ids_sound text 0 id Hin) as (Hl & Hc & Hi).
    split; [exact Hl|]. split; [apply all_id_chars_spec, Hc | exact Hi].
  - unfold MessageAnalyzer.matchAll_ids.
    pose proof (scan_ids_length text 0) as H. lia.
Qed.

(** ** The fallback classification *)

Lemma first_topic_in_Some (message : string) (topics : list string) (t : string) :
  MessageAnalyzer.first_topic_in message topics = Some t ->
  t ∈ topics /\ mentions message t = true.
Proof.
  unfold MessageAnalyzer.first_topic_in. intros H. apply List.find_some in H as [Hin Hm].
  split; [apply list_elem_of_In, Hin | exact Hm].
Qed.

Lemma first_topic_in_is_Some (message : string) (topics : list string) :
  is_Some (MessageAnalyzer.first_topic_in message topics)
  <-> existsb (mentions message) topics = true.
Proof.
  unfold MessageAnalyzer.first_topic_in, mentions.
  induction topics as [|t topics IH]; simpl.
  - split; [intros [x Hx]; discriminate | discriminate].
  - destruct (includes (toLowerCase message) (toLowerCase t)); simpl; [|exact IH].
    split; [reflexivity | intros _; eexists; reflexivity].
Qed.

Lemma set_add_NoDup (s : list string) (x : string) :
  NoDup s -> NoDup (Obj.set_add s x).
Proof.
  intros Hnd. unfold Obj.set_add. destruct (arr_includes s x) eqn:Hin; [exact Hnd|].
  apply NoDup_app. split; [exact Hnd|]. split; [|apply NoDup_singleton].
  intros y Hy Hyx. apply list_elem_of_singleton in Hyx as ->.
  apply arr_includes_elem in Hy. congruence.
Qed.

Lemma fallback_fold (topics : list string) (posts : list Post) :
  forall (acc : list Post * list string),
    let r := fold_left (MessageAnalyzer.fallback_step topics) posts acc in
    fst r = fst acc ++ filter (fun post => mentions_some topics post = true) posts
    /\ (forall t, t ∈ snd r
                  <-> t ∈ snd acc
                      \/ exists post, post ∈ posts
                           /\ MessageAnalyzer.first_topic_in (post_message post) topics = Some t)
    /\ (NoDup (snd acc) -> NoDup (snd r)).
Proof.
  induction posts as [|post posts IH]; intros acc; simpl.
  - rewrite filter_nil, app_nil_r. split; [reflexivity|]. split; [|tauto].
    intros t. split; [tauto|]. intros [H|(p & Hin & _)]; [exact H|].
    apply elem_of_nil in Hin. contradiction.
  - destruct (IH (MessageAnalyzer.fallback_step topics acc post)) as (Hposts & Htopics & Hnd).
    rewrite filter_cons.
    pose proof (first_topic_in_is_Some (post_message post) topics) as Hsome.
    fold (mentions_some topics post) in Hsome.
    destruct (MessageAnalyzer.first_topic_in (post_message post) topics) as [t0|] eqn:Hfirst.
    + assert (Hstep : MessageAnalyzer.fallback_step topics acc post
                      = (fst acc ++ [post], Obj.set_add (snd acc) t0))
        by (unfold MessageAnalyzer.fallback_step; rewrite Hfirst; reflexivity).
      rewrite Hstep in *.
      assert (Hm : mentions_some topics post = true)
        by (apply Hsome; eexists; reflexivity).
      destruct (decide (mentions_some topics post = true)) as [_|Hne]; [|contradiction].
      simpl in *. split; [rewrite Hposts, <- app_assoc; reflexivity|]. split.
      * intros t. rewrite Htopics, set_add_elem. split.
        -- intros [[H| ->]|(p & Hin & Hp)]; [tauto| |].
           ++ right. exists post. split; [apply list_elem_of_here | exact Hfirst].
           ++ right. exists p. split; [apply list_elem_of_further, Hin | exact Hp].
        -- intros [H|(p & Hin & Hp)]; [tauto|].
           apply elem_of_cons in Hin as [->|Hin].
           ++ left. right. congruence.
           ++ right. exists p. tauto.
      * intros H. apply Hnd, set_add_NoDup, H.
    + assert (Hstep : MessageAnalyzer.fallback_step topics acc post = acc)
        by (unfold MessageAnalyzer.fallback_step; rewrite Hfirst; reflexivity).
      rewrite Hstep in *.
      destruct (decide (mentions_some topics post = true)) as [Habs|_].
      { destruct Hsome as [_ Hs]. destruct (Hs Habs) as [x Hx]. discriminate. }
      split; [exact Hposts|]. split; [|exact Hnd].
      intros t. rewrite Htopics. split.
      * intros [H|(p & Hin & Hp)]; [tauto|].
        right. exists p. split; [apply list_elem_of_further, Hin | exact Hp].
      * intros [H|(p & Hin & Hp)]; [tauto|].
        apply elem_of_cons in Hin as [->|Hin]; [congruence|].
        right. exists p. tauto.
Qed.

Lemma mentions_empty_label (message : string) : mentions message EmptyString = true.
Proof.
  unfold mentions. apply includes_here.
  change (toLowerCase EmptyString) with EmptyString.
  destruct (toLowerCase message); reflexivity.
Qed.

(** X9.  [fallbackAnalysis], on messages and topic labels of ASCII
    characters: the relevant posts are the posts whose text holds the label
    of some topic, the case of the letters A-Z aside, in the order given
    and each once; the relevant topics are, without repeats, the first such
    topic of each relevant post, so they are configured topics, and there
    is one exactly when there is a relevant post.  Without topics nothing
    is relevant; a topic with the empty label makes every post relevant. *)
Theorem fallbackAnalysis_keeps_the_posts_that_mention_a_topic :
  forall (posts : list Post) (topics : list string),
    ascii_texts (map post_message posts) = true ->
    ascii_texts topics = true ->
    let r := MessageAnalyzer.fallbackAnalysis posts topics in
    relevantPosts r = filter (fun post => mentions_some topics post = true) posts
    /\ (forall t, t ∈ llm_relevantTopics r
                  <-> exists post, post ∈ posts
                        /\ MessageAnalyzer.first_topic_in (post_message post) topics = Some t)
    /\ NoDup (llm_relevantTopics r)
    /\ (forall t, t ∈ llm_relevantTopics r -> t ∈ topics)
    /\ (relevantPosts r = [] <-> llm_relevantTopics r = [])
    /\ (topics = [] -> relevantPosts r = [])
    /\ (EmptyString ∈ topics -> relevantPosts r = posts).
Proof.
  intros posts topics _ _ r. subst r. unfold MessageAnalyzer.fallbackAnalysis.
  destruct (fallback_fold topics posts ([], [])) as (Hposts & Htopics & Hnd).
  destruct (fold_left (MessageAnalyzer.fallback_step topics) posts ([], []))
    as [relevant found]. simpl in *.
  assert (Hfound : forall t, t ∈ found
            <-> exists post, post ∈ posts
                  /\ MessageAnalyzer.first_topic_in (post_message post) topics = Some t).
  { intros t. rewrite Htopics, elem_of_nil. tauto. }
  split; [exact Hposts|]. split; [exact Hfound|]. split; [apply Hnd, NoDup_nil_2|].
  split.
  { intros t Ht. apply Hfound in Ht as (post & _ & Hf).
    apply first_topic_in_Some in Hf. tauto. }
  split.
  { split.
    - intros Hnil. apply elem_of_nil_inv. intros t Ht.
      apply Hfound in Ht as (post & Hin & Hf).
      assert (Hmem : post ∈ relevant).
      { rewrite Hposts. apply list_elem_of_filter. split; [|exact Hin].
        unfold mentions_some. apply first_topic_in_is_Some. eexists; exact Hf. }
      rewrite Hnil in Hmem. apply elem_of_nil in Hmem. exact Hmem.
    - intros Hnil. apply elem_of_nil_inv. intros post Hin.
      rewrite Hposts in Hin. apply list_elem_of_filter in Hin as [Hm Hin].
      apply first_topic_in_is_Some in Hm as [t Ht].
      assert (Hmem : t ∈ found) by (apply Hfound; exists post; tauto).
      rewrite Hnil in Hmem. apply elem_of_nil in Hmem. exact Hmem. }
  split.
  { intros ->. rewrite Hposts. apply filter_none. intros post _. simpl. discriminate. }
  intros Hempty. rewrite Hposts.
  rewrite (filter_ext_elem _ (fun _ => True)).
  - clear. induction posts as [|p posts IH]; [reflexivity|].
    rewrite filter_cons. destruct (decide True) as [_|Hn]; [|tauto]. rewrite IH. reflexivity.
  - intros post _. split; [tauto|]. intros _. unfold mentions_some.
    apply existsb_exists. exists EmptyString.
    split; [apply list_elem_of_In, Hempty | apply mentions_empty_label].
Qed.

Lemma fallbackAnalysis_keeps_the_posts_that_mention_a_topic_witness :
  let posts := [Sample.butterfly; Sample.lunch; Sample.numbered 1] in
  let topics := ["Table Tennis"; "LUNCH"; "chess"] in
  let r := MessageAnalyzer.fallbackAnalysis posts topics in
  relevantPosts r = [Sample.lunch; Sample.numbered 1]
  /\ llm_relevantTopics r = ["LUNCH"; "Table Tennis"]
  /\ (forall t, t ∈ llm_relevantTopics r -> t ∈ topics)
  /\ (relevantPosts r = [] <-> llm_relevantTopics r = []).
Proof.
  intros posts topics r.
  destruct (fallbackAnalysis_keeps_the_posts_that_mention_a_topic posts topics
              eq_refl eq_refl) as (Hposts & _ & _ & Hin & Hnone & _).
  split; [transitivity (filter (fun post => mentions_some topics post = true) posts);
          [exact Hposts | vm_compute; reflexivity]|].
  split; [vm_compute; reflexivity|].
  split; [exact Hin | exact Hnone].
Defined.

(** ** The primary classification: reading the reply *)

Lemma elem_assign_inv (o : Obj.t) (k : string) (v : list string) (kv : string * list string) :
  kv ∈ Obj.assign o k v -> kv ∈ o \/ kv = (k, v).
Proof.
  induction o as [|[k' v'] o IH]; simpl.
  - rewrite list_elem_of_singleton. tauto.
  - destruct (String.eqb k' k) eqn:Hk.
    + apply String.eqb_eq in Hk as ->. rewrite !elem_of_cons. tauto.
    + rewrite !elem_of_cons. tauto.
Qed.

Lemma elem_assign_new (o : Obj.t) (k : string) (v : list string) :
  (k, v) ∈ Obj.assign o k v.
Proof.
  induction o as [|[k' v'] o IH]; simpl.
  - apply list_elem_of_here.
  - destruct (String.eqb k' k) eqn:Hk.
    + apply String.eqb_eq in Hk as ->. apply list_elem_of_here.
    + apply list_elem_of_further, IH.
Qed.

Lemma elem_assign_other (o : Obj.t) (k : string) (v : list string) (t : string)
    (l : list string) :
  (t, l) ∈ o -> t <> k -> (t, l) ∈ Obj.assign o k v.
Proof.
  induction o as [|[k' v'] o IH]; simpl; intros Hin Hne.
  - apply elem_of_nil in Hin. contradiction.
  - destruct (String.eqb k' k) eqn:Hk.
    + apply String.eqb_eq in Hk as ->.
      apply elem_of_cons in Hin as [Heq|Hin]; [congruence|].
      apply list_elem_of_further, Hin.
    + apply elem_of_cons in Hin as [Heq|Hin].
      * rewrite Heq. apply list_elem_of_here.
      * apply list_elem_of_further, IH; assumption.
Qed.

(** One round of the loop over the topics, when it does not throw. *)
Lemma topic_step_Normal (env : Env) (content : string) (o o' : Obj.t) (t : string) :
  MessageAnalyzer.topic_step env content (Normal o) t = Normal o' ->
  o' = match ids_listed_for env content t with
       | [] => o
       | _ :: _ => Obj.assign o t (ids_listed_for env content t)
       end.
Proof.
  unfold MessageAnalyzer.topic_step, ids_listed_for.
  destruct (regexp_topic_capture env t content) as [[capture|]|e]; [| |discriminate].
  - destruct (String.eqb capture EmptyString) eqn:Hempty.
    + apply String.eqb_eq in Hempty as ->. intros H. injection H as <-. reflexivity.
    + destruct (MessageAnalyzer.matchAll_ids capture) as [|i ids]; simpl;
        intros H; injection H as <-; reflexivity.
  - intros H. injection H as <-. reflexivity.
Qed.

Lemma topic_pass_Throw (env : Env) (content : string) (topics : list string) (e : string) :
  fold_left (MessageAnalyzer.topic_step env content) topics (Throw e) = Throw e.
Proof. induction topics as [|t topics IH]; [reflexivity | exact IH]. Qed.

Lemma topic_pass_entries (env : Env) (content : string) (topics : list string) :
  forall o0 o,
    fold_left (MessageAnalyzer.topic_step env content) topics (Normal o0) = Normal o ->
    (forall t l, (t, l) ∈ o0 -> l = ids_listed_for env content t /\ l <> []) ->
    forall t l, (t, l) ∈ o
                <-> (t, l) ∈ o0
                    \/ (t ∈ topics /\ l = ids_listed_for env content t /\ l <> []).
Proof.
  induction topics as [|k topics IH]; intros o0 o Hfold Hinv t l; cbn [fold_left] in Hfold.
  - injection Hfold as <-. rewrite elem_of_nil. tauto.
  - destruct (MessageAnalyzer.topic_step env content (Normal o0) k) as [o1|e] eqn:Hstep;
      [|rewrite topic_pass_Throw in Hfold; discriminate].
    apply topic_step_Normal in Hstep.
    destruct (ids_listed_for env content k) as [|i ids] eqn:Hk.
    + subst o1. rewrite (IH o0 o Hfold Hinv), elem_of_cons. split; [tauto|].
      intros [H|([->|Hin] & Hl & Hne)]; [tauto | congruence | tauto].
    + assert (Hinv1 : forall t l, (t, l) ∈ o1 -> l = ids_listed_for env content t /\ l <> []).
      { intros t' l' Hin. subst o1. apply elem_assign_inv in Hin as [Hin|Heq].
        - apply Hinv, Hin.
        - injection Heq as -> ->. rewrite Hk. split; [reflexivity | discriminate]. }
      rewrite (IH o1 o Hfold Hinv1), elem_of_cons. subst o1. split.
      * intros [Hin|Hrest]; [|tauto].
        apply elem_assign_inv in Hin as [Hin|Heq]; [tauto|].
        injection Heq as -> ->. right. rewrite Hk. split; [tauto|]. split; [reflexivity|discriminate].
      * intros [Hin|([->|Hin] & Hl & Hne)]; [|left|tauto].
        -- left. destruct (decide (t = k)) as [->|Htk].
           ++ destruct (Hinv k l Hin) as [-> _]. rewrite Hk. apply elem_assign_new.
           ++ apply elem_assign_other; assumption.
        -- rewrite Hl, Hk. apply elem_assign_new.
Qed.

(** After the loop over the topics an id is listed under a topic exactly
    when the topic is configured and the id is in the bracket captured for
    it. *)
Lemma topic_pass_listed (env : Env) (content : string) (topics : list string) (o : Obj.t) :
  MessageAnalyzer.topic_pass env content topics = Normal o ->
  forall t id, listed o t id <-> t ∈ topics /\ id ∈ ids_listed_for env content t.
Proof.
  intros Hpass t id. unfold listed.
  pose proof (topic_pass_entries env content topics [] o Hpass) as Hentries.
  assert (Hnil : forall t l, (t, l) ∈ ([] : Obj.t) ->
                             l = ids_listed_for env content t /\ l <> [])
    by (intros t' l' Hin; apply elem_of_nil in Hin; contradiction).
  split.
  - intros (l & Hin & Hid). apply (Hentries Hnil) in Hin as [Hin|(Ht & -> & _)].
    + apply elem_of_nil in Hin. contradiction.
    + tauto.
  - intros [Ht Hid]. exists (ids_listed_for env content t). split; [|exact Hid].
    apply (Hentries Hnil). right. split; [exact Ht|]. split; [reflexivity|].
    intros Hnone. rewrite Hnone in Hid. apply elem_of_nil in Hid. exact Hid.
Qed.

(** The result built from [result.topics]: its topics are those with a
    listed id, its posts those whose id is listed under some topic. *)
Lemma finish_reply_listed (ids : list string) (specific : Obj.t) (posts : list Post)
    (topics : list string) :
  let o := if Obj.is_empty specific && (0 <? length ids)%nat
           then MessageAnalyzer.all_topics_pass ids posts topics specific
           else specific in
  let r := MessageAnalyzer.finish_reply ids specific posts topics in
  (forall t, t ∈ llm_relevantTopics r <-> exists id, listed o t id)
  /\ (forall post, post ∈ relevantPosts r
                   <-> post ∈ posts /\ exists t, listed o t (post_id post)).
Proof.
  intros o r. subst r. unfold MessageAnalyzer.finish_reply. fold o.
  destruct (collect_elem o) as [Hids Htopics].
  destruct (MessageAnalyzer.collect o) as [relevantPostIds relevantTopics].
  simpl in *. split; [exact Htopics|].
  intros post. rewrite list_elem_of_filter, arr_includes_elem, Hids. tauto.
Qed.

(** X10.  A reply that lists ids under at least one configured topic is read
    topic by topic: the topics answered are the configured ones with a
    non-empty bracket, and the posts answered are the posts given whose id
    stands in the bracket of some configured topic.  Ids that the reply
    quotes outside the brackets play no part.  (For topics that are no
    inherited property names: [result.topics] is an object literal.) *)
Theorem reply_with_brackets_is_read_per_topic :
  forall (env : Env) (content : string) (posts : list Post) (topics : list string)
         (result : LlmAnalysisResult),
    own_keys topics = true ->
    MessageAnalyzer.read_reply env content posts topics = Normal result ->
    (exists t, t ∈ topics /\ ids_listed_for env content t <> []) ->
    (forall t, t ∈ llm_relevantTopics result
               <-> t ∈ topics /\ ids_listed_for env content t <> [])
    /\ relevantPosts result
       = filter (fun post =>
                   existsb (fun t => arr_includes (ids_listed_for env content t) (post_id post))
                           topics = true) posts.
Proof.
  intros env content posts topics result _ Hread (t0 & Ht0 & Hne0).
  unfold MessageAnalyzer.read_reply in Hread.
  destruct (MessageAnalyzer.topic_pass env content topics) as [o|e] eqn:Hpass; [|discriminate].
  injection Hread as <-.
  pose proof (topic_pass_listed env content topics o Hpass) as Hlisted.
  assert (Hfull : Obj.is_empty o = false).
  { destruct o as [|kv o]; [|reflexivity]. exfalso.
    destruct (ids_listed_for env content t0) as [|i ids] eqn:Hids; [congruence|].
    assert (Hl : listed [] t0 i) by (apply Hlisted; rewrite Hids; split;
                                      [exact Ht0 | apply list_elem_of_here]).
    apply listed_nil in Hl. exact Hl. }
  destruct (finish_reply_listed (MessageAnalyzer.matchAll_ids content) o posts topics)
    as [Htopics Hposts].
  rewrite Hfull in Htopics, Hposts. simpl in Htopics, Hposts. split.
  - intros t. rewrite Htopics. split.
    + intros (id & Hid). apply Hlisted in Hid as [Ht Hid]. split; [exact Ht|].
      intros Hnil. rewrite Hnil in Hid. apply elem_of_nil in Hid. exact Hid.
    + intros [Ht Hne]. destruct (ids_listed_for env content t) as [|i ids] eqn:Hids;
        [congruence|].
      exists i. apply Hlisted. rewrite Hids. split; [exact Ht | apply list_elem_of_here].
  - unfold MessageAnalyzer.finish_reply. rewrite Hfull. simpl.
    destruct (collect_elem o) as [Hcollect _].
    destruct (MessageAnalyzer.collect o) as [relevantPostIds relevantTopics]. simpl in *.
    apply filter_ext_elem. intros post _.
    rewrite arr_includes_elem, Hcollect, existsb_exists. split.
    + intros (t & Hl). apply Hlisted in Hl as [Ht Hid]. exists t.
      split; [apply list_elem_of_In, Ht | apply arr_includes_elem, Hid].
    + intros (t & Ht & Hid). exists t. apply Hlisted.
      split; [apply list_elem_of_In, Ht | apply arr_includes_elem, Hid].
Qed.

Lemma reply_with_brackets_is_read_per_topic_witness :
  let posts := [Sample.butterfly; Sample.lunch] in
  let topics := ["table tennis"; "chess"] in
  let result := mkLlmAnalysisResult [Sample.butterfly] ["table tennis"] in
  MessageAnalyzer.matchAll_ids Cases.reply_per_topic = [Sample.id_a; Sample.id_b]
  /\ ids_listed_for Cases.capturing Cases.reply_per_topic "table tennis" = [Sample.id_a]
  /\ ids_listed_for Cases.capturing Cases.reply_per_topic "chess" = []
  /\ fst (MessageAnalyzer.analyzePostsWithLLM Cases.capturing Sample.llm_analyzer
             posts topics "town-square" Sample.idle) = Normal result
  /\ (forall t, t ∈ llm_relevantTopics result
                <-> t ∈ topics
                    /\ ids_listed_for Cases.capturing Cases.reply_per_topic t <> [])
  /\ relevantPosts result
     = filter (fun post =>
                 existsb (fun t => arr_includes
                                     (ids_listed_for Cases.capturing Cases.reply_per_topic t)
                                     (post_id post))
                         topics = true)
              posts.
Proof.
  intros posts topics result.
  split; [vm_compute; reflexivity|]. split; [vm_compute; reflexivity|].
  split; [vm_compute; reflexivity|]. split; [vm_compute; reflexivity|].
  apply (reply_with_brackets_is_read_per_topic Cases.capturing Cases.reply_per_topic
           posts topics result).
  - vm_compute. reflexivity.
  - vm_compute. reflexivity.
  - exists "table tennis". split; [apply list_elem_of_here|]. vm_compute. discriminate.
Defined.

(** ** The classification as a whole *)

Lemma ledger_console (line : string) : steps (unchanged ledger) (console_error line).
Proof. intros w. reflexivity. Qed.

Lemma unchanged_trans {X : Type} (f : World -> X) (w1 w2 w3 : World) :
  unchanged f w1 w2 -> unchanged f w2 w3 -> unchanged f w1 w3.
Proof. unfold unchanged. congruence. Qed.

Lemma collect_fold_NoDup (es : list (string * list string)) :
  forall acc, NoDup (snd acc) -> NoDup (snd (fold_left MessageAnalyzer.collect_step es acc)).
Proof.
  induction es as [|[k l] es IH]; intros acc Hnd; [exact Hnd|].
  cbn [fold_left]. apply IH. unfold MessageAnalyzer.collect_step.
  destruct (0 <? length l)%nat; [|exact Hnd]. simpl. apply set_add_NoDup, Hnd.
Qed.

Lemma fallbackAnalysis_within (posts : list Post) (topics : list string) :
  within posts topics (MessageAnalyzer.fallbackAnalysis posts topics).
Proof.
  unfold within, MessageAnalyzer.fallbackAnalysis.
  destruct (fallback_fold topics posts ([], [])) as (Hposts & Htopics & Hnd).
  destruct (fold_left (MessageAnalyzer.fallback_step topics) posts ([], []))
    as [relevant found]. simpl in *. subst relevant.
  split; [apply sublist_filter|]. split.
  { intros t Ht. apply Htopics in Ht as [Ht|(post & _ & Hf)].
    - apply elem_of_nil in Ht. contradiction.
    - apply first_topic_in_Some in Hf. tauto. }
  split; [apply Hnd, NoDup_nil_2|].
  intros Hne Hnil. apply Hne, elem_of_nil_inv. intros post Hin.
  apply list_elem_of_filter in Hin as [Hm Hin].
  apply first_topic_in_is_Some in Hm as [t Ht].
  assert (Hmem : t ∈ found) by (apply Htopics; right; exists post; tauto).
  rewrite Hnil in Hmem. apply elem_of_nil in Hmem. exact Hmem.
Qed.

Lemma finish_reply_within (env : Env) (content : string) (ids : list string) (o : Obj.t)
    (posts : list Post) (topics : list string) :
  MessageAnalyzer.topic_pass env content topics = Normal o ->
  within posts topics (MessageAnalyzer.finish_reply ids o posts topics).
Proof.
  intros Hpass. pose proof (topic_pass_listed env content topics o Hpass) as Hlisted.
  destruct (finish_reply_listed ids o posts topics) as [Htopics Hposts].
  unfold within. split.
  { unfold MessageAnalyzer.finish_reply.
    destruct (MessageAnalyzer.collect _) as [relevantPostIds relevantTopics].
    apply sublist_filter. }
  split.
  { intros t Ht. apply Htopics in Ht as [id Hid].
    destruct (Obj.is_empty o && (0 <? length ids)%nat).
    - apply listed_all_topics_pass in Hid as [Hid|[Ht _]]; [|exact Ht].
      apply Hlisted in Hid. tauto.
    - apply Hlisted in Hid. tauto. }
  split.
  { unfold MessageAnalyzer.finish_reply, MessageAnalyzer.collect.
    match goal with
    | |- context [fold_left MessageAnalyzer.collect_step ?es ([], [])] =>
        pose proof (collect_fold_NoDup es ([], []) (NoDup_nil_2 : NoDup (snd ([], [])))) as Hnd;
        destruct (fold_left MessageAnalyzer.collect_step es ([], []))
          as [relevantPostIds relevantTopics]
    end.
    exact Hnd. }
  intros Hne Hnil. apply Hne, elem_of_nil_inv. intros post Hin.
  apply Hposts in Hin as [_ [t Ht]].
  assert (Hmem : t ∈ llm_relevantTopics (MessageAnalyzer.finish_reply ids o posts topics))
    by (apply Htopics; exists (post_id post); exact Ht).
  rewrite Hnil in Hmem. apply elem_of_nil in Hmem. exact Hmem.
Qed.

(** The two ways [analyzePostsWithLLM] answers. *)
Lemma analyzePostsWithLLM_answer (env : Env) (self : MessageAnalyzer.t) (posts : list Post)
    (topics : list string) (name : string) (w : World) :
  exists r,
    fst (MessageAnalyzer.analyzePostsWithLLM env self posts topics name w) = Normal r
    /\ (r = MessageAnalyzer.fallbackAnalysis posts topics
        \/ exists content o,
             MessageAnalyzer.topic_pass env content topics = Normal o
             /\ r = MessageAnalyzer.finish_reply (MessageAnalyzer.matchAll_ids content)
                      o posts topics).
Proof.
  unfold MessageAnalyzer.analyzePostsWithLLM, MessageAnalyzer.call_fallbackAnalysis.
  destruct (MessageAnalyzer.llmConfig self) as [cfg|];
    [|eexists; split; [reflexivity | left; reflexivity]].
  destruct (length posts =? 0)%nat; [eexists; split; [reflexivity | left; reflexivity]|].
  unfold try_catch, bind, console_error, modify, external, lift, ret. simpl.
  destruct (llm_messages_create env (w_calls w) cfg name topics posts) as [content|e]; simpl;
    [|eexists; split; [reflexivity | left; reflexivity]].
  destruct (MessageAnalyzer.topic_pass env content topics) as [o|e] eqn:Hpass; simpl;
    [|eexists; split; [reflexivity | left; reflexivity]].
  eexists. split; [reflexivity|]. right. exists content, o. split; [exact Hpass | reflexivity].
Qed.

Lemma analyzePostsWithLLM_within (env : Env) (self : MessageAnalyzer.t) (posts : list Post)
    (topics : list string) (name : string) (w : World) :
  exists r,
    fst (MessageAnalyzer.analyzePostsWithLLM env self posts topics name w) = Normal r
    /\ within posts topics r.
Proof.
  destruct (analyzePostsWithLLM_answer env self posts topics name w)
    as (r & Hr & [->|(content & o & Hpass & ->)]).
  - eexists. split; [exact Hr | apply fallbackAnalysis_within].
  - eexists. split; [exact Hr | apply (finish_reply_within env content), Hpass].
Qed.

(** X11.  Whatever the backend replies, and whether or not it replies at all,
    [analyzePostsWithLLM] answers a result that stays within its inputs: the
    posts answered are posts it was given, in their order; the topics
    answered are configured topics, each once; and a post is never answered
    without a topic.  The classification itself marks nothing, saves
    nothing, fetches nothing and posts nothing. *)
Theorem analyzePostsWithLLM_answers_within_its_inputs :
  forall (env : Env) (self : MessageAnalyzer.t) (posts : list Post) (topics : list string)
         (name : string) (w : World),
    exists r,
      fst (MessageAnalyzer.analyzePostsWithLLM env self posts topics name w) = Normal r
      /\ relevantPosts r `sublist_of` posts
      /\ (forall t, t ∈ llm_relevantTopics r -> t ∈ topics)
      /\ NoDup (llm_relevantTopics r)
      /\ (relevantPosts r <> [] -> llm_relevantTopics r <> [])
      /\ unchanged ledger w
           (snd (MessageAnalyzer.analyzePostsWithLLM env self posts topics name w))
      /\ unchanged requests w
           (snd (MessageAnalyzer.analyzePostsWithLLM env self posts topics name w)).
Proof.
  intros env self posts topics name w.
  destruct (analyzePostsWithLLM_within env self posts topics name w)
    as (r & Hr & Hsub & Htopics & Hnd & Hsome).
  exists r. repeat (split; [assumption|]). split.
  - apply (frame_analyzePostsWithLLM (unchanged ledger) (fun w => eq_refl)
             (unchanged_trans ledger) (fun line w => eq_refl) (fun w => eq_refl)).
  - apply (frame_analyzePostsWithLLM (unchanged requests) (fun w => eq_refl)
             (unchanged_trans requests) (fun line w => eq_refl) (fun w => eq_refl)).
Qed.

(** ** The enrichment with author profiles *)

Lemma bare_with_user_info (post : Post) (profile : UserProfile) :
  bare (MessageAnalyzer.with_user_info post profile) = bare post.
Proof. reflexivity. Qed.

Lemma enrich_loop_bare (env : Env) (posts : list Post) :
  forall cache w,
    exists enriched w',
      MessageAnalyzer.enrich_loop env cache posts w = (Normal enriched, w')
      /\ map bare enriched = map bare posts
      /\ (w_calls w <= w_calls w' <= w_calls w + length posts)%nat.
Proof.
  induction posts as [|post rest IH]; intros cache w.
  - exists [], w. simpl. split; [reflexivity|]. split; [reflexivity | lia].
  - cbn [MessageAnalyzer.enrich_loop].
    unfold bind, try_catch, ret, external, console_error, modify.
    destruct (cache !! post_user_id post) as [profile|] eqn:Hcache.
    + edestruct (IH (<[post_user_id post := profile]> cache))
        as (enriched & w1 & Heq & Hbare & Hcalls).
      rewrite Heq. exists (MessageAnalyzer.with_user_info post profile :: enriched), w1.
      simpl. rewrite Hbare. split; [reflexivity|]. split; [reflexivity | lia].
    + destruct (api_getUserProfile env (w_calls w) (post_user_id post)) as [profile|e].
      * edestruct (IH (<[post_user_id post := profile]> cache))
          as (enriched & w1 & Heq & Hbare & Hcalls).
        rewrite Heq. exists (MessageAnalyzer.with_user_info post profile :: enriched), w1.
        simpl in *. rewrite Hbare. split; [reflexivity|]. split; [reflexivity | lia].
      * edestruct (IH cache) as (enriched & w1 & Heq & Hbare & Hcalls).
        rewrite Heq. exists (post :: enriched), w1.
        simpl in *. rewrite Hbare. split; [reflexivity|]. split; [reflexivity | lia].
Qed.

Lemma enrichment_bare (env : Env) (posts : list Post) (w : World) :
  exists enriched w',
    MessageAnalyzer.enrichPostsWithUserInfo env posts w = (Normal enriched, w')
    /\ map bare enriched = map bare posts.
Proof.
  destruct (enrich_loop_bare env posts ∅ w) as (enriched & w' & Heq & Hbare & _).
  exists enriched, w'. split; [exact Heq | exact Hbare].
Qed.

(** X12.  The enrichment always answers, and answers the posts it was given, in
    their order, with nothing but the author information changed; it asks
    for at most one profile per post. *)
Theorem enrichment_only_adds_user_info :
  forall (env : Env) (posts : list Post) (w : World),
    exists enriched w',
      MessageAnalyzer.enrichPostsWithUserInfo env posts w = (Normal enriched, w')
      /\ map bare enriched = map bare posts
      /\ (w_calls w <= w_calls w' <= w_calls w + length posts)%nat.
Proof. intros env posts w. apply enrich_loop_bare. Qed.

Lemma size_author_cached (u : string) (S D : gset string) :
  u ∈ D -> size (S ∖ ({[u]} ∪ D)) = size (({[u]} ∪ S) ∖ D).
Proof.
  intros Hu. f_equal. apply set_eq. intros x.
  rewrite !elem_of_difference, !elem_of_union, elem_of_singleton.
  split; [tauto|]. intros [[->|Hx] Hnot]; [destruct (Hnot Hu)|].
  split; [exact Hx|]. intros [->|Hd]; [exact (Hnot Hu) | exact (Hnot Hd)].
Qed.

Lemma size_author_new (u : string) (S D : gset string) :
  u ∉ D -> size (({[u]} ∪ S) ∖ D) = (1 + size (S ∖ ({[u]} ∪ D)))%nat.
Proof.
  intros Hu.
  assert (Hsplit : ({[u]} ∪ S) ∖ D = {[u]} ∪ (S ∖ ({[u]} ∪ D))).
  { apply set_eq. intros x.
    rewrite !elem_of_difference, !elem_of_union, !elem_of_difference,
      !elem_of_union, elem_of_singleton.
    destruct (decide (x = u)) as [->|Hx]; tauto. }
  rewrite Hsplit, size_union.
  - rewrite size_singleton. lia.
  - apply elem_of_disjoint. intros x Hx Hrest. apply elem_of_singleton in Hx as ->.
    apply elem_of_difference in Hrest as [_ Hnot]. apply Hnot, elem_of_union_l.
    apply elem_of_singleton. reflexivity.
Qed.

(** When every profile request is answered, the cache makes the enrichment
    ask once per author that is not yet cached. *)
Lemma enrich_loop_once_per_author (env : Env) (posts : list Post) :
  (forall n user, is_normal (api_getUserProfile env n user) = true) ->
  forall cache w,
    exists enriched w',
      MessageAnalyzer.enrich_loop env cache posts w = (Normal enriched, w')
      /\ w_calls w' = (w_calls w
                       + size ((list_to_set (map post_user_id posts) : gset string)
                               ∖ dom cache))%nat
      /\ w_console w' = w_console w
      /\ Forall (fun post => is_Some (post_user_info post)) enriched.
Proof.
  intros Hok. induction posts as [|post rest IH]; intros cache w.
  - exists [], w. split; [reflexivity|]. split; [|split; [reflexivity | constructor]].
    change (list_to_set (map post_user_id [])) with (∅ : gset string).
    rewrite (subseteq_empty_difference_L ∅ (dom cache)) by apply empty_subseteq.
    rewrite size_empty. lia.
  - cbn [MessageAnalyzer.enrich_loop].
    unfold bind, try_catch, ret, external, console_error, modify.
    change (list_to_set (map post_user_id (post :: rest)))
      with ({[post_user_id post]} ∪ list_to_set (map post_user_id rest) : gset string).
    destruct (cache !! post_user_id post) as [profile|] eqn:Hcache.
    + edestruct (IH (<[post_user_id post := profile]> cache))
        as (enriched & w1 & Heq & Hcalls & Hconsole & Hinfo).
      rewrite Heq. exists (MessageAnalyzer.with_user_info post profile :: enriched), w1.
      split; [reflexivity|]. split; [|split; [exact Hconsole|]].
      * rewrite Hcalls, dom_insert_L. f_equal. apply size_author_cached.
        apply (elem_of_dom_2 (D := gset string)) in Hcache. exact Hcache.
      * constructor; [eexists; reflexivity | exact Hinfo].
    + pose proof (Hok (w_calls w) (post_user_id post)) as Hnormal.
      destruct (api_getUserProfile env (w_calls w) (post_user_id post)) as [profile|e];
        [|discriminate].
      edestruct (IH (<[post_user_id post := profile]> cache))
        as (enriched & w1 & Heq & Hcalls & Hconsole & Hinfo).
      rewrite Heq. exists (MessageAnalyzer.with_user_info post profile :: enriched), w1.
      split; [reflexivity|]. split; [|split; [exact Hconsole|]].
      * rewrite Hcalls, dom_insert_L, size_author_new
          by (apply (not_elem_of_dom (D := gset string)); exact Hcache).
        cbn [w_calls set_calls]. lia.
      * constructor; [eexists; reflexivity | exact Hinfo].
Qed.

(** X13.  With a workspace that answers every profile request, the enrichment
    asks once per distinct author, writes nothing to the console, and every
    post it answers carries the author information.  (For user ids that are
    no inherited property names: the cache is an object literal.) *)
Theorem enrichment_asks_once_per_author :
  forall (env : Env) (posts : list Post) (w : World),
    own_keys (map post_user_id posts) = true ->
    (forall n user, is_normal (api_getUserProfile env n user) = true) ->
    exists enriched w',
      MessageAnalyzer.enrichPostsWithUserInfo env posts w = (Normal enriched, w')
      /\ w_calls w' = (w_calls w
                       + size (list_to_set (map post_user_id posts) : gset string))%nat
      /\ w_console w' = w_console w
      /\ Forall (fun post => is_Some (post_user_info post)) enriched.
Proof.
  intros env posts w _ Hok.
  destruct (enrich_loop_once_per_author env posts Hok ∅ w)
    as (enriched & w' & Heq & Hcalls & Hrest).
  exists enriched, w'. split; [exact Heq|]. split; [|exact Hrest].
  rewrite Hcalls, dom_empty_L, difference_empty_L. reflexivity.
Qed.

Lemma enrichment_asks_once_per_author_witness :
  exists enriched w',
    MessageAnalyzer.enrichPostsWithUserInfo Sample.env
      [Sample.butterfly; Sample.lunch; Sample.butterfly] Sample.idle = (Normal enriched, w')
    /\ w_calls w'
       = (w_calls Sample.idle
          + size (list_to_set (map post_user_id
                                   [Sample.butterfly; Sample.lunch; Sample.butterfly])
                  : gset string))%nat
    /\ w_console w' = w_console Sample.idle
    /\ Forall (fun post => is_Some (post_user_info post)) enriched.
Proof.
  apply (enrichment_asks_once_per_author Sample.env
           [Sample.butterfly; Sample.lunch; Sample.butterfly] Sample.idle).
  - vm_compute. reflexivity.
  - intros n user. reflexivity.
Defined.

(** ** One channel: from the candidates to the answer *)

Lemma select_candidates_result (env : Env) (self : MessageAnalyzer.t) (name : string)
    (firstRun : bool) (firstRunLimit : option Z) (w : World) :
  let run := MessageAnalyzer.select_candidates env self name firstRun firstRunLimit w in
  (w_calls (snd run) <= w_calls w + 2)%nat
  /\ forall channel cands,
       fst run = Normal (Some (channel, cands)) ->
       channel_name channel = name /\ cands <> [].
Proof.
  unfold MessageAnalyzer.select_candidates, MessageAnalyzer.getPostsForChannel,
    bind, external, get, modify, console_error, ret.
  simpl.
  destruct (api_getChannels env (w_calls w)) as [response|e]; simpl;
    [|split; [lia | discriminate]].
  destruct (length (MessageAnalyzer.channels_of response) =? 0)%nat; simpl;
    [split; [lia | discriminate]|].
  destruct (List.find _ (MessageAnalyzer.channels_of response)) as [ch|] eqn:Hfind; simpl;
    [|split; [lia | discriminate]].
  apply find_some in Hfind as [_ Hname]. apply String.eqb_eq in Hname.
  destruct (api_getPostsForChannel env (S (w_calls w)) (channel_id ch) _) as [fetched|e];
    simpl; [|split; [lia | discriminate]].
  destruct (MessageAnalyzer.unprocessed _ fetched) as [|post cands] eqn:Hun; simpl;
    (split; [lia|]); [discriminate|].
  intros channel cands' Heq. injection Heq as <- <-. split; [exact Hname | discriminate].
Qed.

(** X14.  A channel that yields no candidates (it cannot be listed or found, its
    posts cannot be fetched, or all of them are processed already) is
    answered with [null] after at most two requests: no profile is asked
    for, nothing is classified, and neither the ledger nor the state file
    nor the time of the last save changes. *)
Theorem channel_without_candidates_costs_nothing :
  forall (env : Env) (self : MessageAnalyzer.t) (name : string) (firstRun : bool)
         (firstRunLimit : option Z) (w : World),
    candidates env self name firstRun firstRunLimit w = None ->
    exists w',
      MessageAnalyzer.analyzeChannel env self name firstRun firstRunLimit w = (Normal None, w')
      /\ unchanged ledger w w'
      /\ (w_calls w' <= w_calls w + 2)%nat.
Proof.
  intros env self name firstRun firstRunLimit w Hnone. unfold candidates in Hnone.
  unfold MessageAnalyzer.analyzeChannel, try_catch, bind at 1.
  set (w0 := snd (console_error ("Analyzing channel: " +:+ name) w)) in *.
  change (console_error ("Analyzing channel: " +:+ name) w) with (Normal tt, w0).
  cbn beta iota. unfold bind at 1.
  pose proof (frame_select_candidates (unchanged ledger) (fun w => eq_refl)
                (unchanged_trans ledger) ledger_console (fun w => eq_refl)
                (fun w c l => eq_refl) env self name firstRun firstRunLimit w0) as Hledger.
  destruct (select_candidates_result env self name firstRun firstRunLimit w0) as [Hcalls _].
  destruct (MessageAnalyzer.select_candidates env self name firstRun firstRunLimit w0)
    as [[selected|e] w1]; simpl in Hledger, Hcalls.
  - subst selected. eexists. split; [reflexivity|]. split; [exact Hledger | exact Hcalls].
  - eexists. split; [reflexivity|]. split; [exact Hledger | exact Hcalls].
Qed.

Lemma channel_without_candidates_costs_nothing_witness :
  exists w',
    MessageAnalyzer.analyzeChannel Sample.env (TopicMonitor.analyzer Sample.monitor)
      "off-topic" false None Sample.idle = (Normal None, w')
    /\ unchanged ledger Sample.idle w'
    /\ (w_calls w' <= w_calls Sample.idle + 2)%nat.
Proof.
  apply (channel_without_candidates_costs_nothing Sample.env
           (TopicMonitor.analyzer Sample.monitor) "off-topic" false None Sample.idle).
  vm_compute. reflexivity.
Defined.

Lemma for_of_mark_normal (c : string) (cands : list Post) (w : World) :
  exists w',
    for_of cands (fun post => StateManager.markPostProcessed c (post_id post)) w
    = (Normal tt, w').
Proof.
  destruct (mark_loop_marks_all c cands w) as [Hnormal _].
  destruct (for_of cands _ w) as [[[]|e] w']; simpl in Hnormal; [|discriminate].
  exists w'. reflexivity.
Qed.

Lemma process_candidates_answer (env : Env) (self : MessageAnalyzer.t) (name : string)
    (channel : Channel) (cands : list Post) (w : World) :
  exists answer w',
    MessageAnalyzer.process_candidates env self name channel cands w = (Normal answer, w')
    /\ forall a, answer = Some a ->
         channelId a = channel_id channel
         /\ channelName a = channel_name channel
         /\ posts a <> []
         /\ map bare (posts a) `sublist_of` map bare cands
         /\ within (posts a) (MessageAnalyzer.an_topics self)
              (mkLlmAnalysisResult (posts a) (relevantTopics a)).
Proof.
  unfold MessageAnalyzer.process_candidates. unfold bind at 1.
  destruct (enrichment_bare env cands w) as (enriched & w1 & -> & Hbare).
  unfold bind at 1.
  destruct (analyzePostsWithLLM_within env self enriched (MessageAnalyzer.an_topics self)
              name w1) as (r & Hr & Hsub & Htopics & Hnd & Hsome).
  destruct (MessageAnalyzer.analyzePostsWithLLM env self enriched _ name w1)
    as [[r'|e] w2]; simpl in Hr; [|discriminate]. injection Hr as ->.
  unfold bind at 1.
  destruct (for_of_mark_normal (channel_id channel) cands w2) as (w3 & ->).
  unfold bind at 1.
  pose proof (saveState_never_throws env (MessageAnalyzer.stateManager_path self) w3) as Hsave.
  destruct (StateManager.saveState env _ w3) as [[[]|e] w4]; simpl in Hsave; [|discriminate].
  destruct (relevantPosts r) as [|post rest] eqn:Hposts; simpl.
  - eexists _, _. split; [reflexivity|]. intros a Ha. discriminate.
  - eexists _, _. split; [reflexivity|]. intros a Ha. injection Ha as <-. simpl.
    split; [reflexivity|]. split; [reflexivity|]. split; [discriminate|]. split.
    + rewrite <- Hbare.
      change ((bare <$> (post :: rest)) `sublist_of` (bare <$> enriched)).
      apply (fmap_sublist bare _ _ Hsub).
    + split; [reflexivity|]. split; [exact Htopics|]. split; [exact Hnd|].
      intros _. apply Hsome. discriminate.
Qed.

(** X15.  A channel with candidates is always answered, and an alert-worthy
    answer comes from the candidates: it names the channel asked for, its
    posts are candidates in their order (author information aside) and there
    is at least one, and its topics are configured topics, each once, and
    there is at least one. *)
Theorem analyzeChannel_answer_comes_from_the_candidates :
  forall (env : Env) (self : MessageAnalyzer.t) (name : string) (firstRun : bool)
         (firstRunLimit : option Z) (w : World) (channel : Channel) (cands : list Post),
    candidates env self name firstRun firstRunLimit w = Some (channel, cands) ->
    exists answer w',
      MessageAnalyzer.analyzeChannel env self name firstRun firstRunLimit w
      = (Normal answer, w')
      /\ forall a, answer = Some a ->
           channelId a = channel_id channel
           /\ channelName a = name
           /\ posts a <> []
           /\ map bare (posts a) `sublist_of` map bare cands
           /\ relevantTopics a <> []
           /\ NoDup (relevantTopics a)
           /\ (forall t, t ∈ relevantTopics a -> t ∈ MessageAnalyzer.an_topics self).
Proof.
  intros env self name firstRun firstRunLimit w channel cands Hsome.
  unfold candidates in Hsome.
  unfold MessageAnalyzer.analyzeChannel, try_catch, bind at 1.
  set (w0 := snd (console_error ("Analyzing channel: " +:+ name) w)) in *.
  change (console_error ("Analyzing channel: " +:+ name) w) with (Normal tt, w0).
  cbn beta iota. unfold bind at 1.
  destruct (select_candidates_result env self name firstRun firstRunLimit w0) as [_ Hsel].
  destruct (MessageAnalyzer.select_candidates env self name firstRun firstRunLimit w0)
    as [[selected|e] w1]; [|discriminate].
  subst selected. destruct (Hsel channel cands eq_refl) as [Hname _].
  destruct (process_candidates_answer env self name channel cands w1)
    as (answer & w2 & -> & Hanswer).
  exists answer, w2. split; [reflexivity|].
  intros a Ha. destruct (Hanswer a Ha) as (Hid & Hcn & Hne & Hsub & _ & Htopics & Hnd & Hsome').
  simpl in *. rewrite Hcn, Hname. auto 10.
Qed.

Lemma analyzeChannel_answer_comes_from_the_candidates_witness :
  let analyzer := MessageAnalyzer.mk "./monitor-state.json" ["chess"; "Butterfly"] 50 None in
  exists a w',
    MessageAnalyzer.analyzeChannel Sample.env analyzer "town-square" false None Sample.idle
    = (Normal (Some a), w')
    /\ channelId a = channel_id Sample.town_square
    /\ channelName a = "town-square"
    /\ posts a <> []
    /\ map bare (posts a) `sublist_of` map bare [Sample.butterfly; Sample.lunch]
    /\ relevantTopics a <> []
    /\ NoDup (relevantTopics a)
    /\ (forall t, t ∈ relevantTopics a -> t ∈ MessageAnalyzer.an_topics analyzer).
Proof.
  intros analyzer.
  destruct (analyzeChannel_answer_comes_from_the_candidates Sample.env analyzer
              "town-square" false None Sample.idle Sample.town_square
              [Sample.butterfly; Sample.lunch]) as (answer & w' & Heq & Hanswer).
  - vm_compute. reflexivity.
  - destruct answer as [a|].
    + exists a, w'. split; [exact Heq|]. apply Hanswer. reflexivity.
    + exfalso. apply (f_equal fst) in Heq. vm_compute in Heq. discriminate.
Defined.

(** ** The keyword classifier and the channel loop of the earlier revision *)

Lemma fold_set_add_NoDup (l : list string) :
  forall s, NoDup s -> NoDup (fold_left Obj.set_add l s).
Proof.
  induction l as [|x l IH]; intros s Hnd; [exact Hnd|].
  apply IH, set_add_NoDup, Hnd.
Qed.

Lemma topic_matches_own (lowerMessage topic t : string) :
  t ∈ KeywordAnalyzer.topic_matches lowerMessage topic -> t = topic.
Proof.
  unfold KeywordAnalyzer.topic_matches.
  repeat match goal with
         | |- context [if ?b then _ else _] => destruct b
         end;
    rewrite ?elem_of_app, ?elem_of_cons, ?elem_of_nil; tauto.
Qed.

Lemma topic_matches_direct (lowerMessage topic : string) :
  includes lowerMessage (toLowerCase topic) = true ->
  KeywordAnalyzer.topic_matches lowerMessage topic = [topic].
Proof. unfold KeywordAnalyzer.topic_matches. intros ->. reflexivity. Qed.

Lemma topic_matches_foreign (lowerMessage topic : string) :
  toLowerCase topic <> "table tennis" ->
  includes lowerMessage (toLowerCase topic) = false ->
  KeywordAnalyzer.topic_matches lowerMessage topic = [].
Proof.
  unfold KeywordAnalyzer.topic_matches, KeywordAnalyzer.topicDictionary.
  intros Hne ->. apply String.eqb_neq in Hne. rewrite Hne. reflexivity.
Qed.

(** X16.  The keyword classifier, on a message and topic labels of ASCII
    characters, answers configured topics only, each once; a topic whose
    label occurs in the message (the case of the letters A-Z aside) is
    always answered; and for every topic but "table tennis" the occurrence
    of the label is the only way to be answered: the dictionary of related
    terms and the co-occurrence checks serve that one topic.  (For topics
    whose lower-cased label is no inherited property name: the dictionary
    is an object literal.) *)
Theorem keyword_classifier_answers_configured_topics :
  forall (message : string) (topics : list string),
    ascii_texts (message :: topics) = true ->
    own_keys (map toLowerCase topics) = true ->
    let answer := KeywordAnalyzer.analyzeWithLLM message topics in
    NoDup answer
    /\ (forall t, t ∈ answer -> t ∈ topics)
    /\ (forall t, t ∈ topics -> mentions message t = true -> t ∈ answer)
    /\ (forall t, toLowerCase t <> "table tennis" ->
                  (t ∈ answer <-> t ∈ topics /\ mentions message t = true)).
Proof.
  intros message topics _ _ answer. subst answer.
  unfold KeywordAnalyzer.analyzeWithLLM, KeywordAnalyzer.unique.
  assert (Hmem : forall t,
             t ∈ fold_left Obj.set_add
                   (flat_map (KeywordAnalyzer.topic_matches (toLowerCase message)) topics) []
             <-> exists topic, topic ∈ topics
                   /\ t ∈ KeywordAnalyzer.topic_matches (toLowerCase message) topic).
  { intros t. rewrite fold_set_add_elem, elem_of_nil, list_elem_of_In, in_flat_map.
    split.
    - intros [[]|(topic & Hin & Ht)]. exists topic. rewrite !list_elem_of_In. tauto.
    - intros (topic & Hin & Ht). right. exists topic. rewrite <- !list_elem_of_In. tauto. }
  split; [apply fold_set_add_NoDup, NoDup_nil_2|]. split.
  { intros t Ht. apply Hmem in Ht as (topic & Hin & Ht).
    apply topic_matches_own in Ht as ->. exact Hin. }
  split.
  { intros t Hin Hm. apply Hmem. exists t. split; [exact Hin|].
    unfold mentions in Hm. rewrite (topic_matches_direct _ _ Hm). apply list_elem_of_here. }
  intros t Hne. rewrite Hmem. unfold mentions. split.
  - intros (topic & Hin & Ht). pose proof (topic_matches_own _ _ _ Ht) as ->.
    split; [exact Hin|].
    destruct (includes (toLowerCase message) (toLowerCase topic)) eqn:Hinc; [reflexivity|].
    rewrite (topic_matches_foreign _ _ Hne Hinc) in Ht. apply elem_of_nil in Ht. contradiction.
  - intros [Hin Hm]. exists t. split; [exact Hin|].
    rewrite (topic_matches_direct _ _ Hm). apply list_elem_of_here.
Qed.

Lemma keyword_classifier_answers_configured_topics_witness :
  let answer := KeywordAnalyzer.analyzeWithLLM "Stiga or Butterfly for chess?"
                  ["Table Tennis"; "chess"; "go"] in
  NoDup answer
  /\ (forall t, t ∈ answer -> t ∈ ["Table Tennis"; "chess"; "go"])
  /\ (forall t, t ∈ ["Table Tennis"; "chess"; "go"]
                -> mentions "Stiga or Butterfly for chess?" t = true -> t ∈ answer)
  /\ (forall t, toLowerCase t <> "table tennis" ->
                (t ∈ answer <-> t ∈ ["Table Tennis"; "chess"; "go"]
                                /\ mentions "Stiga or Butterfly for chess?" t = true)).
Proof.
  apply (keyword_classifier_answers_configured_topics "Stiga or Butterfly for chess?"
           ["Table Tennis"; "chess"; "go"]).
  - vm_compute. reflexivity.
  - vm_compute. reflexivity.
Defined.

Lemma posts_of_saveState (env : Env) (path : string) (w : World) :
  StateManager.posts_of (snd (StateManager.saveState env path w)) = StateManager.posts_of w.
Proof.
  apply (frame_saveState (unchanged StateManager.posts_of) (fun w => eq_refl)
           (unchanged_trans StateManager.posts_of) (fun line w => eq_refl)
           (fun w => eq_refl)).
  - intros w0 now. unfold unchanged, StateManager.posts_of. simpl.
    destruct (processedPosts (w_state w0)); reflexivity.
  - intros w0. reflexivity.
Qed.

(** The loop "Analyze posts for relevant topics" of the earlier revision. *)
Lemma analyze_posts_spec (topics : list string) (c : string) (posts : list Post) :
  forall acc w,
    exists found w',
      KeywordChannel.analyze_posts topics c acc posts w = (Normal found, w')
      /\ fst found
         = fst acc ++ filter (fun post =>
                                KeywordAnalyzer.findRelevantTopics topics (post_message post)
                                <> []) posts
      /\ (forall t, t ∈ snd found
                    <-> t ∈ snd acc
                        \/ exists post, post ∈ posts
                             /\ t ∈ KeywordAnalyzer.findRelevantTopics topics
                                      (post_message post))
      /\ (forall c' id, processed c' id w'
                        <-> processed c' id w
                            \/ (c' = c /\ exists post, post ∈ posts /\ id = post_id post)).
Proof.
  induction posts as [|post rest IH]; intros acc w.
  - exists acc, w. simpl. rewrite filter_nil, app_nil_r.
    split; [reflexivity|]. split; [reflexivity|]. split.
    + intros t. split; [tauto|]. intros [H|(p & Hin & _)]; [exact H|].
      apply elem_of_nil in Hin. contradiction.
    + intros c' id. split; [tauto|]. intros [H|(_ & p & Hin & _)]; [exact H|].
      apply elem_of_nil in Hin. contradiction.
  - cbn [KeywordChannel.analyze_posts]. unfold bind at 1, KeywordChannel.analyze_post.
    unfold bind at 1.
    pose proof (fun c' id => isPostProcessed_after_mark c (post_id post) c' id w) as Hmark.
    destruct (markPostProcessed_spec c (post_id post) w) as (w1 & Heq & _).
    rewrite Heq in Hmark |- *. simpl in Hmark. unfold ret at 1.
    set (matched := KeywordAnalyzer.findRelevantTopics topics (post_message post)).
    destruct (IH (if (0 <? length matched)%nat
                  then (fst acc ++ [post], fold_left Obj.set_add matched (snd acc))
                  else acc) w1) as (found & w2 & Hrun & Hposts & Htopics & Hprocessed).
    exists found, w2. split; [exact Hrun|].
    rewrite filter_cons. fold matched.
    split; [|split].
    + rewrite Hposts. destruct (decide (matched <> [])) as [Hne|He].
      * destruct matched as [|t matched0]; [congruence|]. simpl.
        rewrite <- app_assoc. reflexivity.
      * destruct matched as [|t matched0]; [reflexivity|]. exfalso. apply He. discriminate.
    + intros t. rewrite Htopics. setoid_rewrite elem_of_cons.
      destruct matched as [|t0 matched0] eqn:Hm; simpl.
      * split.
        -- intros [H|(p & Hin & Ht)]; [tauto|]. right. exists p. tauto.
        -- intros [H|(p & [->|Hin] & Ht)]; [tauto| |right; exists p; tauto].
           fold matched in Ht. rewrite Hm in Ht. apply elem_of_nil in Ht. contradiction.
      * change (fold_left Obj.set_add matched0 (Obj.set_add (snd acc) t0))
          with (fold_left Obj.set_add (t0 :: matched0) (snd acc)).
        rewrite fold_set_add_elem. split.
        -- intros [[H|H]|(p & Hin & Ht)]; [tauto| |right; exists p; tauto].
           right. exists post. split; [tauto|]. fold matched. rewrite Hm. exact H.
        -- intros [H|(p & [->|Hin] & Ht)]; [tauto| |right; exists p; tauto].
           left. right. fold matched in Ht. rewrite Hm in Ht. exact Ht.
    + intros c' id. rewrite Hprocessed. unfold processed at 1. rewrite Hmark.
      rewrite orb_true_iff, bool_decide_eq_true. setoid_rewrite elem_of_cons.
      unfold processed. split.
      * intros [[H|[-> ->]]|(-> & p & Hin & ->)]; [tauto| |].
        -- right. split; [reflexivity|]. exists post. tauto.
        -- right. split; [reflexivity|]. exists p. tauto.
      * intros [H|(-> & p & [->|Hin] & ->)]; [tauto|tauto|].
        right. split; [reflexivity|]. exists p. tauto.
Qed.

(** X17.  The channel loop of the earlier revision, on a channel with
    candidates: it always answers; afterwards every candidate is processed,
    matching or not; the posts of the answer are exactly the candidates for
    which the keyword classifier finds a topic, in their order, and its
    topics exactly the topics found for some candidate; without such a
    candidate the answer is [null].  (For messages and topic labels of
    ASCII characters, the classifier folding the letters A-Z; and for a
    channel id and for lower-cased topic labels that are no inherited
    property names: the dictionaries read are object literals.) *)
Theorem keyword_channel_loop_classifies_and_marks_every_candidate :
  forall (env : Env) (self : MessageAnalyzer.t) (name : string) (firstRun : bool)
         (firstRunLimit : option Z) (w : World) (channel : Channel) (cands : list Post),
    own_keys (channel_id channel :: map toLowerCase (MessageAnalyzer.an_topics self))
    = true ->
    candidates env self name firstRun firstRunLimit w = Some (channel, cands) ->
    ascii_texts (map post_message cands ++ MessageAnalyzer.an_topics self) = true ->
    let topics := MessageAnalyzer.an_topics self in
    let hits := filter (fun post =>
                          KeywordAnalyzer.findRelevantTopics topics (post_message post) <> [])
                       cands in
    exists answer w',
      KeywordChannel.analyzeChannel env self name firstRun firstRunLimit w
      = (Normal answer, w')
      /\ (forall post, post ∈ cands -> processed (channel_id channel) (post_id post) w')
      /\ (hits = [] -> answer = None)
      /\ (hits <> [] ->
          exists found,
            answer = Some (mkAnalysisResult (channel_id channel) (channel_name channel)
                             hits found)
            /\ forall t, t ∈ found
                         <-> exists post, post ∈ cands
                               /\ t ∈ KeywordAnalyzer.findRelevantTopics topics
                                        (post_message post)).
Proof.
  intros env self name firstRun firstRunLimit w channel cands _ Hsome _ topics hits.
  unfold candidates in Hsome.
  unfold KeywordChannel.analyzeChannel, try_catch, bind at 1.
  set (w0 := snd (console_error ("Analyzing channel: " +:+ name) w)) in *.
  change (console_error ("Analyzing channel: " +:+ name) w) with (Normal tt, w0).
  cbn beta iota. unfold bind at 1.
  destruct (MessageAnalyzer.select_candidates env self name firstRun firstRunLimit w0)
    as [[selected|e] w1]; [|discriminate].
  subst selected. unfold bind at 1.
  destruct (analyze_posts_spec topics (channel_id channel) cands ([], []) w1)
    as (found & w2 & Hrun & Hposts & Htopics & Hprocessed).
  fold topics. rewrite Hrun. unfold bind at 1.
  pose proof (saveState_never_throws env (MessageAnalyzer.stateManager_path self) w2) as Hsave.
  pose proof (posts_of_saveState env (MessageAnalyzer.stateManager_path self) w2) as Hkept.
  destruct (StateManager.saveState env _ w2) as [[[]|e] w3]; simpl in Hsave, Hkept;
    [|discriminate].
  simpl in Hposts. fold hits in Hposts.
  assert (Hall : forall post, post ∈ cands ->
                   processed (channel_id channel) (post_id post) w3).
  { intros post Hin. unfold processed, StateManager.isPostProcessed. rewrite Hkept.
    apply (Hprocessed (channel_id channel) (post_id post)). right.
    split; [reflexivity|]. exists post. tauto. }
  destruct found as [relevant relevantTopics]. simpl in Hposts, Htopics. subst relevant.
  destruct hits as [|hit hits'] eqn:Hhits; simpl.
  - eexists _, _. split; [reflexivity|]. split; [exact Hall|].
    split; [reflexivity | congruence].
  - eexists _, _. split; [reflexivity|]. split; [exact Hall|].
    split; [discriminate|]. intros _. exists relevantTopics. split; [reflexivity|].
    intros t. rewrite Htopics, elem_of_nil. split; [intros [[]|H]; exact H | tauto].
Qed.

Lemma keyword_channel_loop_classifies_and_marks_every_candidate_witness :
  let topics := MessageAnalyzer.an_topics (TopicMonitor.analyzer Sample.monitor) in
  let hits := filter (fun post =>
                        KeywordAnalyzer.findRelevantTopics topics (post_message post) <> [])
                     [Sample.butterfly; Sample.lunch] in
  exists answer w',
    KeywordChannel.analyzeChannel Sample.env (TopicMonitor.analyzer Sample.monitor)
      "town-square" false None Sample.idle = (Normal answer, w')
    /\ (forall post, post ∈ [Sample.butterfly; Sample.lunch]
                     -> processed (channel_id Sample.town_square) (post_id post) w')
    /\ (hits = [] -> answer = None)
    /\ (hits <> [] ->
        exists found,
          answer = Some (mkAnalysisResult (channel_id Sample.town_square)
                           (channel_name Sample.town_square) hits found)
          /\ forall t, t ∈ found
                       <-> exists post, post ∈ [Sample.butterfly; Sample.lunch]
                             /\ t ∈ KeywordAnalyzer.findRelevantTopics topics
                                      (post_message post)).
Proof.
  apply (keyword_channel_loop_classifies_and_marks_every_candidate Sample.env
           (TopicMonitor.analyzer Sample.monitor) "town-square" false None Sample.idle).
  - vm_compute. reflexivity.
  - vm_compute. reflexivity.
  - vm_compute. reflexivity.
Defined.

(** ** The monitor: alerts and cycles *)

Lemma compose_run (env : Env) (user : string) (result : AnalysisResult) (w : World) :
  exists message w1,
    TopicMonitor.compose env user result w = (Normal message, w1)
    /\ w_posted w1 = w_posted w.
Proof.
  unfold TopicMonitor.compose.
  unfold bind at 1, try_catch, bind at 1, external, console_error, modify, ret. simpl.
  destruct (api_getUserProfile env (w_calls w) user) as [profile|e]; simpl;
    unfold bind; rewrite render_posts_lines; simpl;
    eexists _, _; (split; [reflexivity|]); reflexivity.
Qed.

Lemma sendNotification_run (env : Env) (self : TopicMonitor.t) (result : AnalysisResult)
    (w : World) :
  exists w',
    TopicMonitor.sendNotification env self result w = (Normal tt, w')
    /\ (TopicMonitor.is_set (TopicMonitor.dmChannelId self)
        && TopicMonitor.is_set (TopicMonitor.sysadminUserId self) = true ->
        exists dm message,
          TopicMonitor.dmChannelId self = Some dm
          /\ w_posted w' = (dm, message) :: w_posted w)
    /\ (TopicMonitor.is_set (TopicMonitor.dmChannelId self)
        && TopicMonitor.is_set (TopicMonitor.sysadminUserId self) = false ->
        w_posted w' = w_posted w /\ w_calls w' = w_calls w).
Proof.
  unfold TopicMonitor.sendNotification.
  destruct (TopicMonitor.is_set (TopicMonitor.dmChannelId self)) eqn:Hdm; simpl.
  - destruct (TopicMonitor.is_set (TopicMonitor.sysadminUserId self)) eqn:Huser; simpl.
    + unfold try_catch, bind at 1.
      destruct (compose_run env (default EmptyString (TopicMonitor.sysadminUserId self))
                  result w) as (message & w1 & -> & Hposted).
      destruct (TopicMonitor.dmChannelId self) as [dm|] eqn:Hsome; [|discriminate].
      unfold TopicMonitor.createPost, bind, modify, external, console_error, modify.
      simpl. destruct (api_createPost env (w_calls w1) dm message) as [[]|e]; simpl;
        (eexists; split; [reflexivity|]; split; [|discriminate]);
        intros _; exists dm, message; rewrite Hposted; split; reflexivity.
    + eexists. split; [reflexivity|]. split; [discriminate|]. intros _. split; reflexivity.
  - eexists. split; [reflexivity|]. split; [discriminate|]. intros _. split; reflexivity.
Qed.

(** X18.  An alert is sent into the delivery channel that the start-up resolved,
    or not at all: with both the channel and the recipient resolved
    [sendNotification] makes exactly one post request, to that channel, and
    returns even when the request fails; with one of them unresolved it
    makes no request of any kind. *)
Theorem alert_goes_to_the_delivery_channel_or_nowhere :
  forall (env : Env) (self : TopicMonitor.t) (result : AnalysisResult) (w : World),
    exists w',
      TopicMonitor.sendNotification env self result w = (Normal tt, w')
      /\ (TopicMonitor.is_set (TopicMonitor.dmChannelId self)
          && TopicMonitor.is_set (TopicMonitor.sysadminUserId self) = true ->
          exists dm message,
            TopicMonitor.dmChannelId self = Some dm
            /\ w_posted w' = (dm, message) :: w_posted w)
      /\ (TopicMonitor.is_set (TopicMonitor.dmChannelId self)
          && TopicMonitor.is_set (TopicMonitor.sysadminUserId self) = false ->
          w_posted w' = w_posted w /\ w_calls w' = w_calls w)
      /\ unchanged ledger w w'
      /\ unchanged scheduler_fields w w'.
Proof.
  intros env self result w.
  destruct (sendNotification_run env self result w) as (w' & Heq & Hset & Hunset).
  exists w'. split; [exact Heq|]. split; [exact Hset|]. split; [exact Hunset|].
  replace w' with (snd (TopicMonitor.sendNotification env self result w))
    by (rewrite Heq; reflexivity).
  split.
  - apply (frame_sendNotification (unchanged ledger) (fun w => eq_refl)
             (unchanged_trans ledger) (fun line w => eq_refl) (fun w => eq_refl)
             (fun w c m => eq_refl)).
  - apply (frame_sendNotification (unchanged scheduler_fields) (fun w => eq_refl)
             (unchanged_trans scheduler_fields) (fun line w => eq_refl) (fun w => eq_refl)
             (fun w c m => eq_refl)).
Qed.

(** What a relation of the form [unchanged f] needs to be kept by an
    operation, when [f] reads none of the fields the operation writes. *)
Ltac unchanged_frame :=
  first [ exact (unchanged_trans _)
        | intros ? ?; apply markPostProcessed_unchanged;
          intros ? ?; unfold StateManager.write_posts;
          match goal with
          | |- context [processedPosts (w_state ?v)] =>
              destruct (processedPosts (w_state v)); reflexivity
          end
        | intros ? ?; reflexivity
        | intros; reflexivity ].

Lemma analyzeChannel_named (env : Env) (self : MessageAnalyzer.t) (name : string)
    (firstRun : bool) (firstRunLimit : option Z) (w : World) :
  exists answer w',
    MessageAnalyzer.analyzeChannel env self name firstRun firstRunLimit w = (Normal answer, w')
    /\ forall a, answer = Some a -> channelName a = name.
Proof.
  unfold MessageAnalyzer.analyzeChannel, try_catch, bind at 1.
  set (w0 := snd (console_error ("Analyzing channel: " +:+ name) w)).
  change (console_error ("Analyzing channel: " +:+ name) w) with (Normal tt, w0).
  cbn beta iota. unfold bind at 1.
  destruct (select_candidates_result env self name firstRun firstRunLimit w0) as [_ Hsel].
  destruct (MessageAnalyzer.select_candidates env self name firstRun firstRunLimit w0)
    as [[[[channel cands]|]|e] w1].
  - destruct (Hsel channel cands eq_refl) as [Hname _].
    destruct (process_candidates_answer env self name channel cands w1)
      as (answer & w2 & -> & Hanswer).
    exists answer, w2. split; [reflexivity|]. intros a Ha.
    destruct (Hanswer a Ha) as (_ & Hcn & _). congruence.
  - eexists _, _. split; [reflexivity | discriminate].
  - eexists _, _. split; [reflexivity | discriminate].
Qed.

Lemma analyze_channels_run (env : Env) (self : TopicMonitor.t) (firstRun : bool)
    (names : list string) :
  forall results w,
    exists new w',
      TopicMonitor.analyze_channels env self firstRun names results w
      = (Normal (results ++ new), w')
      /\ map channelName new `sublist_of` names.
Proof.
  induction names as [|name rest IH]; intros results w.
  - exists [], w. simpl. rewrite app_nil_r. split; [reflexivity | constructor].
  - cbn [TopicMonitor.analyze_channels]. unfold bind at 1.
    destruct (analyzeChannel_named env (TopicMonitor.analyzer self) name firstRun
                (Some (firstRunLimit (TopicMonitor.config self))) w)
      as (answer & w1 & -> & Hname).
    destruct answer as [a|].
    + destruct (IH (results ++ [a]) w1) as (new & w2 & -> & Hsub).
      exists (a :: new), w2. rewrite <- app_assoc. split; [reflexivity|].
      simpl. rewrite (Hname a eq_refl). constructor. exact Hsub.
    + destruct (IH results w1) as (new & w2 & -> & Hsub).
      exists new, w2. split; [reflexivity|]. constructor. exact Hsub.
Qed.

Lemma notify_all_run (env : Env) (self : TopicMonitor.t) (results : list AnalysisResult) :
  forall w,
    exists alerts w',
      for_of results (TopicMonitor.sendNotification env self) w = (Normal tt, w')
      /\ w_posted w' = alerts ++ w_posted w
      /\ (length alerts <= length results)%nat
      /\ Forall (fun alert => TopicMonitor.dmChannelId self = Some (fst alert)) alerts.
Proof.
  induction results as [|result rest IH]; intros w.
  - exists [], w. simpl. split; [reflexivity|]. split; [reflexivity|].
    split; [lia | constructor].
  - cbn [for_of]. unfold bind at 1.
    destruct (sendNotification_run env self result w) as (w1 & -> & Hset & Hunset).
    destruct (IH w1) as (alerts & w2 & -> & Hposted & Hlen & Hall).
    destruct (TopicMonitor.is_set (TopicMonitor.dmChannelId self)
              && TopicMonitor.is_set (TopicMonitor.sysadminUserId self)).
    + destruct (Hset eq_refl) as (dm & message & Hdm & Hone).
      exists (alerts ++ [(dm, message)]), w2. split; [reflexivity|].
      rewrite Hposted, Hone, <- app_assoc. split; [reflexivity|].
      rewrite length_app. simpl. split; [lia|].
      apply Forall_app. split; [exact Hall|]. constructor; [exact Hdm | constructor].
    + destruct (Hunset eq_refl) as [Hsame _].
      exists alerts, w2. split; [reflexivity|]. rewrite Hposted, Hsame.
      split; [reflexivity|]. simpl. split; [lia | exact Hall].
Qed.

(** X19.  A monitoring cycle always returns.  It sends at most one alert per
    configured channel, every one of them into the delivery channel that the
    start-up resolved, and it leaves the scheduler as it was: the task, the
    schedule, the busy flag and the count of callback runs. *)
Theorem cycle_sends_at_most_one_alert_per_channel :
  forall (env : Env) (self : TopicMonitor.t) (w : World),
    exists alerts w',
      TopicMonitor.runMonitoring env self w = (Normal tt, w')
      /\ w_posted w' = alerts ++ w_posted w
      /\ (length alerts <= length (channels (TopicMonitor.config self)))%nat
      /\ Forall (fun alert => TopicMonitor.dmChannelId self = Some (fst alert)) alerts
      /\ unchanged scheduler_fields w w'.
Proof.
  intros env self w.
  pose proof (frame_runMonitoring (unchanged scheduler_fields)) as Hframe.
  assert (Hsched : unchanged scheduler_fields w (snd (TopicMonitor.runMonitoring env self w))).
  { apply Hframe; unchanged_frame. }
  clear Hframe.
  pose proof (frame_analyze_channels (unchanged w_posted)) as Hframe.
  assert (Hposted : forall firstRun,
            unchanged w_posted w
              (snd (TopicMonitor.analyze_channels env self firstRun
                      (channels (TopicMonitor.config self)) [] w))).
  { intros firstRun. apply Hframe; unchanged_frame. }
  clear Hframe. specialize (Hposted (TopicMonitor.isFirstRun env w)).
  destruct (analyze_channels_run env self (TopicMonitor.isFirstRun env w)
              (channels (TopicMonitor.config self)) [] w) as (new & w1 & Heq & Hsub).
  rewrite Heq in Hposted. simpl in Hposted. unfold unchanged in Hposted.
  destruct (notify_all_run env self new w1) as (alerts & w2 & Hnotify & Halerts & Hlen & Hall).
  assert (Hrun : TopicMonitor.runMonitoring env self w = (Normal tt, w2)).
  { unfold TopicMonitor.runMonitoring, try_catch, bind at 1, get. cbn beta iota.
    unfold bind at 1. rewrite Heq. simpl. rewrite Hnotify. reflexivity. }
  rewrite Hrun in Hsched. exists alerts, w2. split; [exact Hrun|].
  rewrite Halerts, Hposted. split; [reflexivity|]. split; [|split; [exact Hall | exact Hsched]].
  apply sublist_length in Hsub. rewrite length_map in Hsub. lia.
Qed.

Lemma console_extends_refl (w : World) : console_extends w w.
Proof. unfold console_extends. reflexivity. Qed.

Lemma console_extends_trans (w1 w2 w3 : World) :
  console_extends w1 w2 -> console_extends w2 w3 -> console_extends w1 w3.
Proof. unfold console_extends. intros H12 H23. etrans; eassumption. Qed.

Lemma console_extends_unchanged (w w' : World) :
  w_console w' = w_console w -> console_extends w w'.
Proof. unfold console_extends. intros ->. reflexivity. Qed.

(** What [console_extends] needs to be kept by an operation. *)
Ltac console_frame :=
  first [ exact console_extends_refl
        | exact console_extends_trans
        | intros ? ?; unfold console_extends; simpl; apply prefix_app_r; reflexivity
        | intros ? ? ?; apply console_extends_unchanged;
          apply (markPostProcessed_unchanged w_console), console_write_posts
        | intros; apply console_extends_unchanged; reflexivity ].

Lemma logged_later (line : string) (w w1 w' : World) :
  console_extends w w1 -> logged line w1 w' -> logged line w w'.
Proof.
  intros [k Hk] (before & after & Hlog). exists (k ++ before), after.
  rewrite Hlog, Hk, <- !app_assoc. reflexivity.
Qed.

Lemma logged_earlier (line : string) (w w1 w' : World) :
  logged line w w1 -> console_extends w1 w' -> logged line w w'.
Proof.
  intros (before & after & Hlog) [k Hk]. exists before, (after ++ k).
  rewrite Hk, Hlog, <- !app_assoc. reflexivity.
Qed.

Lemma analyzeChannel_logged (env : Env) (self : MessageAnalyzer.t) (name : string)
    (firstRun : bool) (firstRunLimit : option Z) (w : World) :
  logged ("Analyzing channel: " +:+ name) w
    (snd (MessageAnalyzer.analyzeChannel env self name firstRun firstRunLimit w)).
Proof.
  unfold MessageAnalyzer.analyzeChannel, try_catch, bind at 1.
  set (w0 := snd (console_error ("Analyzing channel: " +:+ name) w)).
  change (console_error ("Analyzing channel: " +:+ name) w) with (Normal tt, w0).
  cbn beta iota.
  assert (Hfirst : logged ("Analyzing channel: " +:+ name) w w0)
    by (exists [], []; reflexivity).
  apply (logged_earlier _ w w0); [exact Hfirst|].
  set (rest := bind (MessageAnalyzer.select_candidates env self name firstRun firstRunLimit) _).
  assert (Hrest : steps console_extends rest).
  { subst rest. apply (steps_bind console_extends console_extends_trans).
    - apply (frame_select_candidates console_extends); console_frame.
    - intros [[channel cands]|].
      + apply (frame_process_candidates console_extends); console_frame.
      + apply (steps_ret console_extends console_extends_refl). }
  specialize (Hrest w0). destruct (rest w0) as [[answer|e] w1]; simpl in *; [exact Hrest|].
  eapply console_extends_trans; [exact Hrest|].
  unfold bind, console_error, modify, ret, console_extends. simpl.
  apply prefix_app_r. reflexivity.
Qed.

Lemma analyze_channels_logged (env : Env) (self : TopicMonitor.t) (firstRun : bool)
    (names : list string) :
  forall results w name,
    name ∈ names ->
    logged ("Analyzing channel: " +:+ name) w
      (snd (TopicMonitor.analyze_channels env self firstRun names results w)).
Proof.
  induction names as [|first rest IH]; intros results w name Hin.
  - apply elem_of_nil in Hin. contradiction.
  - cbn [TopicMonitor.analyze_channels]. unfold bind at 1.
    pose proof (analyzeChannel_logged env (TopicMonitor.analyzer self) first firstRun
                  (Some (firstRunLimit (TopicMonitor.config self))) w) as Hfirst.
    pose proof (frame_analyzeChannel console_extends) as Hone.
    assert (Hext : console_extends w
                     (snd (MessageAnalyzer.analyzeChannel env (TopicMonitor.analyzer self)
                             first firstRun
                             (Some (firstRunLimit (TopicMonitor.config self))) w)))
      by (apply Hone; console_frame).
    clear Hone.
    destruct (analyzeChannel_named env (TopicMonitor.analyzer self) first firstRun
                (Some (firstRunLimit (TopicMonitor.config self))) w)
      as (answer & w1 & Heq & _).
    rewrite Heq in Hfirst, Hext |- *. simpl in Hfirst, Hext.
    pose proof (frame_analyze_channels console_extends) as Hloop.
    apply elem_of_cons in Hin as [->|Hin].
    + apply (logged_earlier _ w w1); [exact Hfirst|]. apply Hloop; console_frame.
    + apply (logged_later _ w w1); [exact Hext|]. apply IH, Hin.
Qed.

(** X20.  In every cycle every configured channel is analysed: whatever the
    workspace answers for the channels before it, and whether or not their
    analysis fails, the console gets the line that opens the analysis of
    each configured channel. *)
Theorem cycle_analyses_every_configured_channel :
  forall (env : Env) (self : TopicMonitor.t) (w : World) (name : string),
    name ∈ channels (TopicMonitor.config self) ->
    logged ("Analyzing channel: " +:+ name) w (snd (TopicMonitor.runMonitoring env self w)).
Proof.
  intros env self w name Hin.
  unfold TopicMonitor.runMonitoring, try_catch, bind at 1, get. cbn beta iota.
  unfold bind at 1.
  pose proof (analyze_channels_logged env self (TopicMonitor.isFirstRun env w)
                (channels (TopicMonitor.config self)) [] w name Hin) as Hlogged.
  destruct (analyze_channels_run env self (TopicMonitor.isFirstRun env w)
              (channels (TopicMonitor.config self)) [] w) as (new & w1 & Heq & _).
  rewrite Heq in Hlogged |- *. simpl in Hlogged. simpl.
  destruct (notify_all_run env self new w1) as (alerts & w2 & Hnotify & _).
  pose proof (steps_for_of console_extends console_extends_refl console_extends_trans
                new (TopicMonitor.sendNotification env self)) as Hloop.
  assert (Hext : console_extends w1
                   (snd (for_of new (TopicMonitor.sendNotification env self) w1))).
  { apply Hloop. intros result.
    apply (frame_sendNotification console_extends); console_frame. }
  rewrite Hnotify in Hext |- *. simpl in *.
  apply (logged_earlier _ w w1); assumption.
Qed.

Lemma cycle_analyses_every_configured_channel_witness :
  let after := snd (TopicMonitor.runMonitoring Cases.flaky Cases.monitor_of_both Sample.idle) in
  w_console after
  = [ "Analyzing channel: broken";
      "Error analyzing channel broken: 500 Internal Server Error";
      "Analyzing channel: town-square";
      "No LLM config provided or no posts to analyze, using fallback analysis";
      "Using fallback analysis with simple keyword matching";
      "Sent notification for channel: town-square" ]
  /\ logged "Analyzing channel: broken" Sample.idle after
  /\ logged "Analyzing channel: town-square" Sample.idle after.
Proof.
  intros after. split; [vm_compute; reflexivity|]. split.
  - apply (cycle_analyses_every_configured_channel Cases.flaky Cases.monitor_of_both
             Sample.idle "broken").
    apply list_elem_of_here.
  - apply (cycle_analyses_every_configured_channel Cases.flaky Cases.monitor_of_both
             Sample.idle "town-square").
    apply list_elem_of_further, list_elem_of_here.
Defined.

(** ** The start-up: recipient, delivery channel, scheduler *)

Lemma find_none_elem {A} (f : A -> bool) (l : list A) (x : A) :
  List.find f l = None -> x ∈ l -> f x = false.
Proof. intros Hnone Hin. apply (find_none f l Hnone), list_elem_of_In, Hin. Qed.

Lemma find_some_elem {A} (f : A -> bool) (l : list A) (x : A) :
  List.find f l = Some x -> x ∈ l /\ f x = true.
Proof. intros Hsome. apply find_some in Hsome as [Hin Hf]. rewrite list_elem_of_In. tauto. Qed.

Lemma is_regular_not_bot (u : Startup.User) :
  Startup.is_regular u = true -> Startup.user_is_bot u = false.
Proof.
  unfold Startup.is_regular.
  destruct (Startup.user_roles u) as [|s|l]; [discriminate| |];
    destruct (Startup.user_is_bot u); rewrite ?andb_false_r; simpl;
    first [discriminate | reflexivity].
Qed.

Lemma find_first_with {A} (f : A -> bool) (l : list A) (x : A) :
  List.find f l = Some x -> first_with f l x.
Proof.
  induction l as [|y l IH]; simpl; [discriminate|].
  destruct (f y) eqn:Hy.
  - intros Heq. injection Heq as ->. exists [], l. split; [reflexivity|].
    split; [exact Hy | constructor].
  - intros Hfind. destruct (IH Hfind) as (before & after & -> & Hx & Hbefore).
    exists (y :: before), after. split; [reflexivity|].
    split; [exact Hx | constructor; assumption].
Qed.

Lemma find_none_with {A} (f : A -> bool) (l : list A) :
  List.find f l = None -> none_with f l.
Proof.
  intros Hnone. apply Forall_forall. intros y Hy.
  apply (find_none_elem f l y Hnone Hy).
Qed.

Lemma pick_user_spec (users : list Startup.User) :
  users <> [] ->
  exists u,
    Startup.pick_user users = Some u
    /\ u ∈ users
    /\ picked_in_order users u
    /\ (forall a, a ∈ users -> Startup.is_admin a = true -> Startup.is_admin u = true)
    /\ (Startup.is_admin u = false ->
        forall r, r ∈ users -> Startup.is_regular r = true -> Startup.is_regular u = true)
    /\ (Startup.is_admin u = false -> Startup.user_is_bot u = true ->
        forall v, v ∈ users -> Startup.user_is_bot v = true).
Proof.
  intros Hne. unfold Startup.pick_user, Startup.or_else, picked_in_order.
  destruct (List.find Startup.is_admin users) as [a|] eqn:Hadmin.
  { pose proof (find_first_with _ _ _ Hadmin) as Hfirst.
    apply find_some_elem in Hadmin as [Hin Ha]. exists a.
    split; [reflexivity|]. split; [exact Hin|]. split; [left; exact Hfirst|].
    split; [intros; exact Ha|].
    split; intros; congruence. }
  pose proof (find_none_with _ _ Hadmin) as Hno_admin.
  destruct (List.find Startup.is_regular users) as [r|] eqn:Hregular.
  { pose proof (find_first_with _ _ _ Hregular) as Hfirst.
    apply find_some_elem in Hregular as [Hin Hr]. exists r.
    split; [reflexivity|]. split; [exact Hin|].
    split; [right; left; split; assumption|]. split.
    - intros a Ha Hisadmin. rewrite (find_none_elem _ _ a Hadmin Ha) in Hisadmin. discriminate.
    - split; [intros; exact Hr|]. intros _ Hbot.
      rewrite (is_regular_not_bot r Hr) in Hbot. discriminate. }
  pose proof (find_none_with _ _ Hregular) as Hno_regular.
  destruct (List.find (fun u => negb (Startup.user_is_bot u)) users) as [h|] eqn:Hhuman.
  { pose proof (find_first_with _ _ _ Hhuman) as Hfirst.
    apply find_some_elem in Hhuman as [Hin Hh]. exists h.
    split; [reflexivity|]. split; [exact Hin|].
    split; [right; right; left; repeat split; assumption|]. split.
    - intros a Ha Hisadmin. rewrite (find_none_elem _ _ a Hadmin Ha) in Hisadmin. discriminate.
    - split.
      + intros _ r Hr Hisregular. rewrite (find_none_elem _ _ r Hregular Hr) in Hisregular.
        discriminate.
      + intros _ Hbot. rewrite Hbot in Hh. discriminate. }
  pose proof (find_none_with _ _ Hhuman) as Hno_human.
  destruct users as [|first rest]; [congruence|]. exists first.
  split; [reflexivity|]. split; [apply list_elem_of_here|].
  split; [right; right; right; repeat split; assumption|]. split.
  - intros a Ha Hisadmin. rewrite (find_none_elem _ _ a Hadmin Ha) in Hisadmin. discriminate.
  - split.
    + intros _ r Hr Hisregular. rewrite (find_none_elem _ _ r Hregular Hr) in Hisregular.
      discriminate.
    + intros _ _ v Hv. apply (find_none_elem _ _ v Hhuman) in Hv.
      apply negb_false_iff in Hv. exact Hv.
Qed.

(** X21.  The recipient of the alerts, when the workspace lists its users: with
    no user the search throws; otherwise it answers a listed user (the
    error for "no suitable user" is never thrown), found by four searches
    in this order: the first listed administrator, a bot with that role
    included; without an administrator, the first listed user who is no bot
    and has the role [system_user]; without one, the first listed user who
    is no bot; and the first listed user when every listed user is a bot.
    So a bot without the administrator role is answered only when every
    listed user is a bot, while a bot with it is preferred to every
    member. *)
Theorem recipient_is_an_admin_before_a_member_before_a_bot :
  forall (api : Startup.Api) (w : World) (response : Startup.UsersResponse),
    Startup.api_getUsers api (w_calls w) = Normal response ->
    let users := Startup.users_of response in
    let answer := fst (Startup.findSysadminUser api w) in
    (users = [] -> answer = Throw "No users found in Mattermost")
    /\ (users <> [] ->
        exists u,
          answer = Normal (Startup.user_id u)
          /\ u ∈ users
          /\ picked_in_order users u
          /\ (forall a, a ∈ users -> Startup.is_admin a = true -> Startup.is_admin u = true)
          /\ (Startup.is_admin u = false ->
              forall r, r ∈ users -> Startup.is_regular r = true
                        -> Startup.is_regular u = true)
          /\ (Startup.is_admin u = false -> Startup.user_is_bot u = true ->
              forall v, v ∈ users -> Startup.user_is_bot v = true)).
Proof.
  intros api w response Hresponse users answer. subst answer users.
  unfold Startup.findSysadminUser, try_catch, bind, external, console_error, modify,
    throw, ret.
  cbn beta. rewrite Hresponse. cbn beta iota.
  generalize (Startup.users_of response). intros users. split.
  - intros Hempty. rewrite Hempty. reflexivity.
  - intros Hne. destruct (pick_user_spec users Hne) as (u & Hpick & Hspec).
    exists u. split; [|exact Hspec].
    destruct users as [|first rest]; [congruence|]. cbn [length Nat.eqb].
    rewrite Hpick. reflexivity.
Qed.

Lemma recipient_is_an_admin_before_a_member_before_a_bot_witness :
  let users := [Cases.member; Cases.admin_bot] in
  let answer := fst (Startup.findSysadminUser Cases.api_admin_bot Sample.idle) in
  answer = Normal "b1"
  /\ Startup.user_is_bot Cases.admin_bot = true
  /\ exists u,
       answer = Normal (Startup.user_id u)
       /\ u ∈ users
       /\ picked_in_order users u
       /\ (forall a, a ∈ users -> Startup.is_admin a = true -> Startup.is_admin u = true)
       /\ (Startup.is_admin u = false ->
           forall r, r ∈ users -> Startup.is_regular r = true
                     -> Startup.is_regular u = true)
       /\ (Startup.is_admin u = false -> Startup.user_is_bot u = true ->
           forall v, v ∈ users -> Startup.user_is_bot v = true).
Proof.
  intros users answer.
  split; [vm_compute; reflexivity|]. split; [reflexivity|].
  destruct (recipient_is_an_admin_before_a_member_before_a_bot Cases.api_admin_bot
              Sample.idle (Startup.UsersArray [Cases.member; Cases.admin_bot]) eq_refl)
    as [_ Hsome].
  apply Hsome. discriminate.
Defined.

Lemma pick_fallback_spec (channels : list Channel) :
  channels <> [] ->
  exists c,
    Startup.pick_fallback channels = Some c
    /\ c ∈ channels
    /\ fallback_in_order channels c
    /\ (forall t, t ∈ channels -> channel_name t = "town-square"
                  -> channel_name c = "town-square")
    /\ (channel_name c <> "town-square" ->
        forall p, p ∈ channels -> channel_type p = "O" -> channel_type c = "O").
Proof.
  intros Hne. unfold Startup.pick_fallback, Startup.or_else, fallback_in_order.
  destruct (List.find (fun c => String.eqb (channel_name c) "town-square") channels)
    as [t|] eqn:Htown.
  { pose proof (find_first_with _ _ _ Htown) as Hfirst.
    apply find_some_elem in Htown as [Hin Ht]. apply String.eqb_eq in Ht. exists t.
    split; [reflexivity|]. split; [exact Hin|]. split; [left; exact Hfirst|].
    split; [intros; exact Ht | congruence]. }
  pose proof (find_none_with _ _ Htown) as Hno_town.
  assert (Hnone : forall t, t ∈ channels -> channel_name t = "town-square" -> False).
  { intros t Hin Ht. apply (find_none_elem _ _ t Htown) in Hin.
    apply String.eqb_neq in Hin. contradiction. }
  destruct (List.find (fun c => String.eqb (channel_type c) "O") channels)
    as [p|] eqn:Hpublic.
  { pose proof (find_first_with _ _ _ Hpublic) as Hfirst.
    apply find_some_elem in Hpublic as [Hin Hp]. apply String.eqb_eq in Hp. exists p.
    split; [reflexivity|]. split; [exact Hin|].
    split; [right; left; split; assumption|].
    split; [intros t Ht Hname; destruct (Hnone t Ht Hname) | intros; exact Hp]. }
  pose proof (find_none_with _ _ Hpublic) as Hno_public.
  destruct channels as [|first rest]; [congruence|]. exists first.
  split; [reflexivity|]. split; [apply list_elem_of_here|].
  split; [right; right; repeat split; assumption|]. split.
  - intros t Ht Hname. destruct (Hnone t Ht Hname).
  - intros _ p Hp Htype. apply (find_none_elem _ _ p Hpublic) in Hp.
    apply String.eqb_neq in Hp. contradiction.
Qed.

(** X22.  The delivery channel, when the workspace answers who the server runs
    as and which channels there are: an existing direct channel between the
    server and the recipient is reused, and then no channel is created;
    otherwise a direct channel is created; and when the creation fails the
    alerts fall back to a listed channel, found by three searches in this
    order: the first listed channel named "town-square"; without one, the
    first listed public channel; without one, the first listed channel.
    Only with no channel listed at all does the resolution throw. *)
Theorem delivery_channel_is_reused_created_or_a_fallback :
  forall (env : Env) (api : Startup.Api) (user : string) (w : World) (me : Startup.Me)
         (response : ChannelsResponse),
    TopicMonitor.is_set (Some user) = true ->
    Startup.api_getMe api (w_calls w) = Normal me ->
    api_getChannels env (S (w_calls w)) = Normal response ->
    let listed := MessageAnalyzer.channels_of response in
    let existing := List.find (Startup.is_dm_between user (Startup.me_id me)) listed in
    let creation := Startup.api_createDirectChannel api (S (S (w_calls w)))
                      (Startup.me_id me) user in
    let run := Startup.createDmChannel env api (Some user) w in
    (forall dm, existing = Some dm ->
       fst run = Normal (channel_id dm) /\ w_calls (snd run) = S (S (w_calls w)))
    /\ (existing = None -> forall created, creation = Normal created ->
          fst run = Normal (channel_id created))
    /\ (existing = None -> forall error, creation = Throw error ->
          (listed = [] -> fst run = Throw "No suitable channel found for notifications")
          /\ (listed <> [] ->
              exists c,
                fst run = Normal (channel_id c)
                /\ c ∈ listed
                /\ fallback_in_order listed c
                /\ (forall t, t ∈ listed -> channel_name t = "town-square"
                              -> channel_name c = "town-square")
                /\ (channel_name c <> "town-square" ->
                    forall p, p ∈ listed -> channel_type p = "O" -> channel_type c = "O"))).
Proof.
  intros env api user w me response Hset Hme Hchannels listed existing creation run.
  subst run creation existing listed.
  unfold Startup.createDmChannel. rewrite Hset.
  change (default EmptyString (Some user)) with user. cbn [negb].
  unfold try_catch, bind, external, console_error, modify, throw, ret.
  cbn beta. rewrite Hme. cbn beta iota. cbn [w_calls set_calls set_console].
  rewrite Hchannels. cbn beta iota.
  generalize (MessageAnalyzer.channels_of response). intros listed.
  destruct (List.find (Startup.is_dm_between user (Startup.me_id me)) listed) as [dm|].
  - split; [|split; discriminate]. intros dm' Heq. injection Heq as <-.
    split; reflexivity.
  - split; [discriminate|]. cbn beta iota. cbn [w_calls set_calls set_console]. split.
    + intros _ created Hcreated. rewrite Hcreated. reflexivity.
    + intros _ error Herror. rewrite Herror. cbn beta iota. split.
      * intros ->. reflexivity.
      * intros Hne. destruct (pick_fallback_spec listed Hne) as (c & Hpick & Hspec).
        exists c. split; [|exact Hspec]. rewrite Hpick. reflexivity.
Qed.

Lemma delivery_channel_is_reused_created_or_a_fallback_witness :
  let with_town_square := [Cases.private_team; Cases.off_topic; Sample.town_square] in
  let without := [Cases.private_team; Cases.off_topic] in
  let run listed := Startup.createDmChannel (Cases.listing listed) Cases.api (Some "u2")
                      Sample.idle in
  fst (run with_town_square) = Normal "c1"
  /\ fst (run without) = Normal "c8"
  /\ (exists c, fst (run with_town_square) = Normal (channel_id c)
                /\ fallback_in_order with_town_square c)
  /\ (exists c, fst (run without) = Normal (channel_id c)
                /\ fallback_in_order without c).
Proof.
  intros with_town_square without run.
  split; [vm_compute; reflexivity|]. split; [vm_compute; reflexivity|]. split.
  - destruct (delivery_channel_is_reused_created_or_a_fallback
                (Cases.listing with_town_square) Cases.api "u2" Sample.idle
                (Startup.mkMe "u0" "monitor-bot") (ChannelsArray with_town_square)
                eq_refl eq_refl eq_refl) as (_ & _ & Hfallback).
    destruct (Hfallback eq_refl "403 Forbidden" eq_refl) as [_ Hsome].
    destruct Hsome as (c & Hrun & _ & Horder & _); [discriminate|].
    exists c. split; [exact Hrun | exact Horder].
  - destruct (delivery_channel_is_reused_created_or_a_fallback
                (Cases.listing without) Cases.api "u2" Sample.idle
                (Startup.mkMe "u0" "monitor-bot") (ChannelsArray without)
                eq_refl eq_refl eq_refl) as (_ & _ & Hfallback).
    destruct (Hfallback eq_refl "403 Forbidden" eq_refl) as [_ Hsome].
    destruct Hsome as (c & Hrun & _ & Horder & _); [discriminate|].
    exists c. split; [exact Hrun | exact Horder].
Defined.

Lemma scheduler_start_run (env : Env) (w : World) :
  exists started w',
    MonitoringScheduler.start env w = (Normal started, w')
    /\ (started = true -> w_task w = false /\ w_task w' = true)
    /\ (started = false -> scheduler_fields w' = scheduler_fields w).
Proof.
  unfold MonitoringScheduler.start, bind, get, try_catch, external, modify, console_error, ret.
  unfold scheduler_fields. simpl. destruct (w_task w) eqn:Htask; simpl.
  - eexists _, _. split; [reflexivity|]. split; [discriminate|]. intros _. simpl.
    rewrite Htask. reflexivity.
  - destruct (cron_validate env (w_schedule w)); simpl.
    + destruct (cron_schedule env (w_calls w)) as [[]|e]; simpl;
        eexists _, _; (split; [reflexivity|]); simpl.
      * split; [intros _; split; reflexivity | discriminate].
      * split; [discriminate|]. intros _. rewrite Htask. reflexivity.
    + eexists _, _. split; [reflexivity|]. split; [discriminate|]. intros _. simpl.
      rewrite Htask. reflexivity.
Qed.

Lemma createDmChannel_needs_user (env : Env) (api : Startup.Api) (user : option string)
    (w : World) (dm : string) :
  fst (Startup.createDmChannel env api user w) = Normal dm ->
  TopicMonitor.is_set user = true.
Proof.
  unfold Startup.createDmChannel.
  destruct (TopicMonitor.is_set user); [reflexivity | discriminate].
Qed.

Lemma startup_run (env : Env) (api : Startup.Api) (self : TopicMonitor.t) (w : World) :
  exists started self' w',
    Startup.start env api self w = (Normal (started, self'), w')
    /\ TopicMonitor.config self' = TopicMonitor.config self
    /\ TopicMonitor.analyzer self' = TopicMonitor.analyzer self
    /\ (started = true ->
        TopicMonitor.is_set (TopicMonitor.sysadminUserId self') = true
        /\ is_Some (TopicMonitor.dmChannelId self')
        /\ w_task w = false /\ w_task w' = true)
    /\ (started = false -> unchanged scheduler_fields w w').
Proof.
  assert (Hfind : unchanged scheduler_fields w (snd (Startup.findSysadminUser api w)))
    by (apply (frame_findSysadminUser (unchanged scheduler_fields)); unchanged_frame).
  unfold Startup.start, bind at 1, Startup.attempt.
  destruct (Startup.findSysadminUser api w) as [[user|e] w1]; simpl in Hfind.
  - assert (Hdm : unchanged scheduler_fields w1
                    (snd (Startup.createDmChannel env api (Some user) w1)))
      by (apply (frame_createDmChannel (unchanged scheduler_fields)); unchanged_frame).
    pose proof (createDmChannel_needs_user env api (Some user) w1) as Hneeds.
    unfold bind at 1.
    destruct (Startup.createDmChannel env api (Some user) w1) as [[dm|e] w2];
      simpl in Hdm, Hneeds.
    + unfold bind at 1.
      destruct (scheduler_start_run env w2) as (started & w3 & -> & Htrue & Hfalse).
      eexists _, _, _. split; [reflexivity|]. simpl.
      split; [reflexivity|]. split; [reflexivity|]. split.
      * intros Hstarted. destruct (Htrue Hstarted) as [Hbefore Hafter].
        split; [apply (Hneeds dm eq_refl)|]. split; [eexists; reflexivity|].
        split; [|exact Hafter].
        unfold unchanged, scheduler_fields in Hfind, Hdm. congruence.
      * intros Hstarted. unfold unchanged in *. rewrite (Hfalse Hstarted). congruence.
    + eexists _, _, _. split; [reflexivity|]. simpl.
      split; [reflexivity|]. split; [reflexivity|]. split; [discriminate|].
      intros _. unfold unchanged in *.
      change (scheduler_fields w2 = scheduler_fields w). congruence.
  - eexists _, _, _. split; [reflexivity|]. simpl.
    split; [reflexivity|]. split; [reflexivity|]. split; [discriminate|].
    intros _. unfold unchanged in *. exact Hfind.
Qed.

(** X23.  The start of the monitor never throws.  It answers [true] only with a
    recipient and a delivery channel resolved and stored and with the
    scheduler armed by this call; when it answers [false] (no recipient, no
    delivery channel, a task armed already, an invalid expression) the
    scheduler is as it was, so no cycle is scheduled.  Either way it marks
    nothing, saves nothing, fetches no post and sends no alert. *)
Theorem monitor_starts_only_with_recipient_and_channel :
  forall (env : Env) (api : Startup.Api) (self : TopicMonitor.t) (w : World),
    exists started self' w',
      Startup.start env api self w = (Normal (started, self'), w')
      /\ TopicMonitor.config self' = TopicMonitor.config self
      /\ TopicMonitor.analyzer self' = TopicMonitor.analyzer self
      /\ (started = true ->
          TopicMonitor.is_set (TopicMonitor.sysadminUserId self') = true
          /\ is_Some (TopicMonitor.dmChannelId self')
          /\ w_task w = false /\ w_task w' = true)
      /\ (started = false -> unchanged scheduler_fields w w')
      /\ unchanged ledger w w'
      /\ unchanged requests w w'.
Proof.
  intros env api self w.
  assert (Hledger : unchanged ledger w (snd (Startup.start env api self w)))
    by (apply (frame_startup (unchanged ledger)); unchanged_frame).
  assert (Hrequests : unchanged requests w (snd (Startup.start env api self w)))
    by (apply (frame_startup (unchanged requests)); unchanged_frame).
  destruct (startup_run env api self w)
    as (started & self' & w' & Hrun & Hconfig & Hanalyzer & Htrue & Hfalse).
  rewrite Hrun in Hledger, Hrequests. exists started, self', w'. auto 10.
Qed.

(** ** The configuration *)

Lemma validateConfig_cases (config : Config.t) :
  (complete config = true /\ Config.validateConfig config = Normal tt)
  \/ (complete config = false /\ exists error, Config.validateConfig config = Throw error).
Proof.
  unfold complete, Config.validateConfig.
  destruct (Config.lacks (Config.mattermostUrl config));
    [right; split; [reflexivity | eexists; reflexivity]|].
  destruct (Config.lacks (Config.token config));
    [right; split; [reflexivity | eexists; reflexivity]|].
  destruct (Config.lacks (Config.teamId config));
    [right; split; [reflexivity | eexists; reflexivity]|].
  left. split; reflexivity.
Qed.

(** X24.  [loadConfig] reads one file only: [config.local.json] when it exists,
    [config.json] otherwise.  It answers the configuration of that file, and
    only when the file parses and has a non-empty [mattermostUrl], [token]
    and [teamId]; then it writes nothing.  In every other case (the file is
    missing, unreadable, no JSON, or lacks a field) it logs one line and
    throws the one fixed message; in particular a local file that is there
    but unusable is not made up for by a usable [config.json]. *)
Theorem loadConfig_answers_a_complete_file_or_the_fixed_error :
  forall (localConfig config : Config.File) (w : World),
    let chosen := if Config.existsSync localConfig then localConfig else config in
    let run := Config.loadConfig localConfig config w in
    (forall loaded, chosen = Config.Parsed loaded -> complete loaded = true ->
       run = (Normal loaded, w))
    /\ ((forall loaded, chosen = Config.Parsed loaded -> complete loaded = false) ->
        fst run = Throw load_failure
        /\ exists line, w_console (snd run) = w_console w ++ [line])
    /\ (forall loaded, fst run = Normal loaded ->
          chosen = Config.Parsed loaded /\ complete loaded = true).
Proof.
  intros localConfig config w chosen run. subst run.
  unfold Config.loadConfig. fold chosen.
  assert (Hbody : (if Config.existsSync localConfig
                   then (loaded <- lift (Config.read_and_parse localConfig);;
                         lift (Config.validateConfig loaded);;; ret loaded)
                   else (loaded <- lift (Config.read_and_parse config);;
                         lift (Config.validateConfig loaded);;; ret loaded))
                  = (loaded <- lift (Config.read_and_parse chosen);;
                     lift (Config.validateConfig loaded);;; ret loaded))
    by (subst chosen; destruct (Config.existsSync localConfig); reflexivity).
  rewrite Hbody. clear Hbody. generalize chosen. clear chosen. intros chosen.
  unfold try_catch, bind, lift, ret, throw, console_error, modify.
  destruct chosen as [| | |loaded]; cbn [Config.read_and_parse].
  1-3: (split; [discriminate|]; split; [|discriminate]; intros _;
        split; [reflexivity | eexists; reflexivity]).
  destruct (validateConfig_cases loaded) as [[Hc ->]|[Hc [error ->]]]; cbn [fst snd].
  - split; [intros l Heq _; injection Heq as <-; reflexivity|].
    split; [intros Hall; rewrite (Hall loaded eq_refl) in Hc; discriminate|].
    intros l Heq. injection Heq as <-. split; [reflexivity | exact Hc].
  - split; [intros l Heq Hl; injection Heq as <-; congruence|].
    split; [intros _; split; [reflexivity | eexists; reflexivity] | discriminate].
Qed.

(** ** The server: tool calls and the set-up of the monitor *)

(** X25.  The handler of tool calls never throws, whatever the tool does: a
    request without arguments is answered with the error "No arguments
    provided" and the tool is not run; otherwise the tool runs once, its
    answer is passed on, and its error becomes an error result. *)
Theorem tool_call_always_answers :
  forall (Args : Type) (execute : string -> Args -> M Tools.ToolResult) (name : string)
         (arguments : option Args) (w : World),
    let w0 := snd (console_error ("Received CallToolRequest for tool: " +:+ name) w) in
    exists result w',
      Server.callTool execute name arguments w = (Normal result, w')
      /\ (arguments = None ->
          result = Tools.mkToolResult (Tools.ErrorPayload "No arguments provided") (Some true)
          /\ w_calls w' = w_calls w)
      /\ (forall args, arguments = Some args ->
            match execute name args w0 with
            | (Normal answer, w1) => result = answer /\ w' = w1
            | (Throw error, _) =>
                result = Tools.mkToolResult (Tools.ErrorPayload error) (Some true)
            end).
Proof.
  intros Args execute name arguments w w0.
  unfold Server.callTool, bind at 1. fold w0.
  change (console_error ("Received CallToolRequest for tool: " +:+ name) w)
    with (Normal tt, w0).
  cbn beta iota. unfold try_catch. destruct arguments as [args|].
  - destruct (execute name args w0) as [[answer|error] w1] eqn:Hexecute.
    + exists answer, w1. split; [reflexivity|]. split; [discriminate|].
      intros args' Heq. injection Heq as <-. rewrite Hexecute. split; reflexivity.
    + eexists _, _. split; [reflexivity|]. split; [discriminate|].
      intros args' Heq. injection Heq as <-. rewrite Hexecute. reflexivity.
  - eexists _, _. split; [reflexivity|]. split; [|discriminate].
    intros _. split; reflexivity.
Qed.

Lemma StateManager_new_run (path : string) (w : World) :
  exists w', StateManager.new path w = (Normal tt, w').
Proof.
  unfold StateManager.new, StateManager.loadState, bind, try_catch, get, lift, ret,
    console_error, modify.
  destruct (StateManager.existsSync (w_file w)); [|eexists; reflexivity].
  destruct (StateManager.readFileSync (w_file w)) as [data|e]; [|eexists; reflexivity].
  destruct (StateManager.JSON_parse data) as [st|e]; eexists; reflexivity.
Qed.

Lemma TopicMonitor_new_run (config : MonitoringConfig) (w : World) :
  exists monitor w',
    TopicMonitor.new config w = (Normal monitor, w')
    /\ TopicMonitor.config monitor = config.
Proof.
  unfold TopicMonitor.new, bind at 1.
  destruct (StateManager_new_run (stateFilePath config) w) as (w1 & ->).
  eexists _, _. split; reflexivity.
Qed.

(** X26.  The set-up of the monitor in [main] never throws.  With monitoring
    enabled the instance is set to a monitor of the given configuration and
    the last line logged is "Topic monitor started successfully", whatever
    [start] answered: also when no recipient or no delivery channel was
    found and nothing is scheduled.  With monitoring disabled or absent no
    instance is set and no request is made. *)
Theorem monitor_instance_is_set_whenever_enabled :
  forall (env : Env) (api : Startup.Api) (config : Config.t) (w : World),
    exists instance w',
      Server.init_monitor env api config w = (Normal instance, w')
      /\ (monitoring_enabled config = true ->
          exists monitor,
            instance = Some monitor
            /\ Some (TopicMonitor.config monitor) = Config.monitoring config
            /\ last (w_console w') = Some "Topic monitor started successfully")
      /\ (monitoring_enabled config = false ->
          instance = None /\ w_calls w' = w_calls w
          /\ unchanged scheduler_fields w w' /\ unchanged ledger w w').
Proof.
  intros env api config w. unfold Server.init_monitor, monitoring_enabled.
  destruct (Config.monitoring config) as [monitoring|].
  - destruct (enabled monitoring).
    + unfold try_catch, bind at 1.
      change (console_error "Initializing topic monitor..." w)
        with (Normal tt, snd (console_error "Initializing topic monitor..." w)).
      cbn beta iota. unfold bind at 1.
      destruct (TopicMonitor_new_run monitoring
                  (snd (console_error "Initializing topic monitor..." w)))
        as (monitor & w1 & -> & Hconfig).
      unfold bind at 1.
      destruct (startup_run env api monitor w1)
        as (started & monitor' & w2 & -> & Hconfig' & _).
      eexists _, _. split; [reflexivity|]. split; [|discriminate].
      intros _. eexists. split; [reflexivity|]. simpl.
      split; [congruence|]. apply last_snoc.
    + eexists _, _. split; [reflexivity|]. split; [discriminate|].
      intros _. repeat split.
  - eexists _, _. split; [reflexivity|]. split; [discriminate|].
    intros _. repeat split.
Qed.

Lemma runNow_keeps_flag (callback : M unit) :
  steps (unchanged w_isRunning) (MonitoringScheduler.runNow callback).
Proof.
  intros w. unfold unchanged. destruct (w_isRunning w) eqn:Hflag.
  - rewrite (runNow_in_flight callback w Hflag). exact Hflag.
  - apply runNow_clears_flag, Hflag.
Qed.

Lemma scheduled_tick_keeps_flag (env : Env) (callback : M unit) :
  steps (unchanged w_isRunning) (MonitoringScheduler.scheduled_tick env callback).
Proof.
  intros w. unfold unchanged. destruct (w_isRunning w) eqn:Hflag.
  - rewrite (scheduled_tick_in_flight env callback w Hflag). exact Hflag.
  - apply scheduled_tick_clears_flag, Hflag.
Qed.

Lemma perform_keeps_flag (a : Process.Action) :
  steps (unchanged w_isRunning) (Process.perform a).
Proof.
  pose proof (unchanged_trans w_isRunning) as Htrans.
  assert (Hrefl : forall w, unchanged w_isRunning w w) by reflexivity.
  destruct a; cbn [Process.perform];
    try (apply (steps_bind _ Htrans); [|intros ?; apply (steps_ret _ Hrefl)]).
  - apply scheduled_tick_keeps_flag.
  - apply runNow_keeps_flag.
  - unfold Tools.handleRunMonitoring. destruct instance as [monitor|];
      [|apply (steps_ret _ Hrefl)].
    apply (steps_try_catch _ Htrans); [|intros ?; apply (steps_ret _ Hrefl)].
    apply (steps_bind _ Htrans); [apply runNow_keeps_flag|].
    intros ?. apply (steps_ret _ Hrefl).
  - unfold Tools.handleGetMonitoringStatus.
    apply (steps_bind _ Htrans); [apply (steps_get _ Hrefl)|].
    intros ?. apply (steps_ret _ Hrefl).
  - apply (frame_start (unchanged w_isRunning)); unchanged_frame.
  - apply (frame_stop (unchanged w_isRunning)); unchanged_frame.
  - apply (frame_updateSchedule (unchanged w_isRunning)); unchanged_frame.
  - apply (frame_analyzeChannel (unchanged w_isRunning)); unchanged_frame.
  - apply (markPostProcessed_unchanged w_isRunning). intros m w.
    unfold StateManager.write_posts. destruct (processedPosts (w_state w)); reflexivity.
  - apply (frame_markPostsProcessed (unchanged w_isRunning)); unchanged_frame.
  - apply (frame_saveState (unchanged w_isRunning)); unchanged_frame.
Qed.

(** X27.  The status tool answers [running] from the busy flag of the scheduler,
    not from whether a task is armed, and every operation of the process
    that has finished leaves that flag as it found it.  So after any
    sequence of finished operations (starts, stops, reschedules, ticks,
    manual runs, tool calls, marks, saves) the status is the one before
    them: asked in an idle process the tool answers [running: false], also
    when the scheduler is armed. *)
Theorem status_reports_a_cycle_in_flight :
  forall (actions : list Process.Action) (instance : option TopicMonitor.t) (w : World),
    Tools.handleGetMonitoringStatus instance (Process.run actions w)
    = (Normal (Tools.mkToolResult
                 (Tools.StatusPayload (bool_decide (is_Some instance))
                    (bool_decide (is_Some instance) && w_isRunning w))
                 None),
       Process.run actions w).
Proof.
  intros actions instance w.
  assert (Hflag : w_isRunning (Process.run actions w) = w_isRunning w).
  { unfold Process.run. revert w. induction actions as [|a actions IH]; intros w.
    - reflexivity.
    - cbn [fold_left]. rewrite IH. apply perform_keeps_flag. }
  unfold Tools.handleGetMonitoringStatus, bind, get, ret, TopicMonitor.isRunning,
    MonitoringScheduler.isTaskRunning.
  rewrite Hflag. destruct instance as [monitor|]; reflexivity.
Qed.

(** ** The process: how [main] ends *)

Lemma bind_normal {A B} (m : M A) (k : A -> M B) (w w1 : World) (a : A) :
  m w = (Normal a, w1) -> bind m k w = k a w1.
Proof. intros H. unfold bind. rewrite H. reflexivity. Qed.

Lemma bind_throw {A B} (m : M A) (k : A -> M B) (w w1 : World) (e : string) :
  m w = (Throw e, w1) -> bind m k w = (Throw e, w1).
Proof. intros H. unfold bind. rewrite H. reflexivity. Qed.

Lemma loadConfig_run (localConfig configFile : Config.File) (w : World) :
  match loaded localConfig configFile with
  | Some config => Config.loadConfig localConfig configFile w = (Normal config, w)
  | None => exists w', Config.loadConfig localConfig configFile w = (Throw load_failure, w')
                       /\ w_calls w' = w_calls w
  end.
Proof.
  unfold loaded, Config.loadConfig.
  destruct (Config.existsSync localConfig);
    match goal with
    | |- context [Config.read_and_parse ?f] => destruct f as [| | |config]
    end;
    unfold try_catch, bind, lift, ret, throw, console_error, modify;
    cbn [Config.read_and_parse];
    try (eexists; split; reflexivity);
    destruct (validateConfig_cases config) as [[Hc ->]|[Hc [error ->]]]; rewrite Hc;
    first [reflexivity | eexists; split; reflexivity].
Qed.

Lemma init_monitor_run (env : Env) (api : Startup.Api) (config : Config.t) (w : World) :
  exists instance w',
    Server.init_monitor env api config w = (Normal instance, w')
    /\ (monitoring_enabled config = true -> is_Some instance)
    /\ (monitoring_enabled config = false -> instance = None).
Proof.
  unfold Server.init_monitor, monitoring_enabled.
  destruct (Config.monitoring config) as [monitoring|];
    [|eexists _, _; split; [reflexivity|]; split; [discriminate | reflexivity]].
  destruct (enabled monitoring);
    [|eexists _, _; split; [reflexivity|]; split; [discriminate | reflexivity]].
  unfold try_catch.
  erewrite bind_normal by reflexivity.
  destruct (TopicMonitor_new_run monitoring
              (snd (console_error "Initializing topic monitor..." w)))
    as (monitor & w1 & Hnew & _).
  simpl in Hnew. erewrite bind_normal by exact Hnew.
  destruct (startup_run env api monitor w1) as (started & monitor' & w2 & Hstart & _).
  erewrite bind_normal by exact Hstart.
  eexists _, _. split; [reflexivity|]. split; [intros _; eexists; reflexivity | discriminate].
Qed.

Lemma run_immediately_run (env : Env) (run exit : bool) (topicMonitor : option TopicMonitor.t)
    (w : World) :
  exists w',
    Server.run_immediately env run exit topicMonitor w
    = (Normal (if run && exit && bool_decide (is_Some topicMonitor)
               then Server.Exited 0 else Server.Serving), w').
Proof.
  unfold Server.run_immediately. destruct topicMonitor as [monitor|].
  - rewrite (bool_decide_eq_true_2 (is_Some (Some monitor))) by (eexists; reflexivity).
    rewrite andb_true_r. destruct run; [|eexists; reflexivity].
    erewrite bind_normal by reflexivity. unfold try_catch.
    pose proof (runNow_never_throws (TopicMonitor.runMonitoring env monitor)
                  (snd (console_error "Running monitoring immediately as requested..." w)))
      as Hnow.
    unfold TopicMonitor.runNow.
    destruct (MonitoringScheduler.runNow (TopicMonitor.runMonitoring env monitor) _)
      as [[[]|e] w1] eqn:Hrun; simpl in Hnow; [|discriminate].
    simpl in Hrun. erewrite bind_normal by exact Hrun.
    destruct exit; eexists; reflexivity.
  - rewrite (bool_decide_eq_false_2 (is_Some None)) by (intros [x Hx]; discriminate).
    rewrite andb_false_r. eexists. reflexivity.
Qed.

(** X28.  [main] always ends in one of three ways, and never with an escaping
    error.  It exits with code 1 without a single request when no complete
    configuration can be loaded.  It exits with code 0 only when both
    [--run-monitoring] and [--exit-after-monitoring] are given and
    monitoring is enabled in the loaded configuration.  And when the client
    can be built and the server connected, that is all: with a complete
    configuration it exits with code 0 in exactly that case and keeps
    serving otherwise, so [--exit-after-monitoring] with monitoring
    disabled leaves the server running, and the immediate run never makes
    the process exit with code 1. *)
Theorem main_exits_only_as_asked_or_on_a_failed_start :
  forall (env : Env) (api : Startup.Api) (client_new server_connect : nat -> Completion unit)
         (run exit : bool) (localConfig configFile : Config.File) (w : World),
    exists outcome w',
      Server.main env api client_new server_connect run exit localConfig configFile w
      = (Normal outcome, w')
      /\ (loaded localConfig configFile = None ->
          outcome = Server.Exited 1 /\ w_calls w' = w_calls w)
      /\ (outcome = Server.Exited 0 ->
          run = true /\ exit = true
          /\ exists config, loaded localConfig configFile = Some config
                            /\ monitoring_enabled config = true)
      /\ ((forall n, client_new n = Normal tt) ->
          (forall n, server_connect n = Normal tt) ->
          forall config, loaded localConfig configFile = Some config ->
            outcome = if run && exit && monitoring_enabled config
                      then Server.Exited 0 else Server.Serving).
Proof.
  intros env api client_new server_connect run exit localConfig configFile w.
  unfold Server.main, try_catch at 1.
  erewrite bind_normal by reflexivity.
  set (w0 := set_console (w_console w ++ ["Starting Mattermost MCP Server..."]) w).
  pose proof (loadConfig_run localConfig configFile w0) as Hload.
  destruct (loaded localConfig configFile) as [config|].
  2: { destruct Hload as (w1 & Hload & Hcalls).
       erewrite bind_throw by exact Hload.
       eexists _, _. split; [reflexivity|]. split; [|split; [discriminate|]].
       - intros _. split; [reflexivity | exact Hcalls].
       - intros _ _ config Hsome. discriminate. }
  erewrite bind_normal by exact Hload.
  destruct (client_new (w_calls w0)) as [[]|e] eqn:Hclient.
  2: { erewrite bind_normal
         by (unfold try_catch, bind, external, console_error, modify, ret;
             rewrite Hclient; reflexivity).
       eexists _, _. split; [reflexivity|]. split; [discriminate|]. split; [discriminate|].
       intros Hok. rewrite Hok in Hclient. discriminate. }
  erewrite bind_normal
    by (unfold try_catch, bind, external, console_error, modify, ret;
        rewrite Hclient; reflexivity).
  cbn iota.
  match goal with
  | |- context [bind (Server.init_monitor env api config) _ ?v] =>
      destruct (init_monitor_run env api config v) as (instance & w2 & Hinit & Hen & Hdis)
  end.
  erewrite bind_normal by exact Hinit.
  erewrite bind_normal by reflexivity.
  match goal with
  | |- context [bind (external server_connect) _ ?v] => set (w3 := v)
  end.
  destruct (server_connect (w_calls w3)) as [[]|e] eqn:Hconnect.
  2: { erewrite bind_throw by (unfold external; rewrite Hconnect; reflexivity).
       eexists _, _. split; [reflexivity|]. split; [discriminate|]. split; [discriminate|].
       intros _ Hok. rewrite Hok in Hconnect. discriminate. }
  erewrite bind_normal by (unfold external; rewrite Hconnect; reflexivity).
  erewrite bind_normal by reflexivity.
  match goal with
  | |- context [Server.run_immediately env run exit instance ?v] =>
      destruct (run_immediately_run env run exit instance v) as (w4 & Hrun)
  end.
  rewrite Hrun.
  assert (Hinstance : bool_decide (is_Some instance) = monitoring_enabled config).
  { destruct (monitoring_enabled config).
    - apply bool_decide_eq_true_2, Hen. reflexivity.
    - rewrite (Hdis eq_refl). apply bool_decide_eq_false_2. intros [x Hx]. discriminate. }
  rewrite Hinstance.
  eexists _, _. split; [reflexivity|]. split; [discriminate|]. split.
  - destruct (monitoring_enabled config) eqn:Henabled; destruct run, exit; simpl;
      try discriminate.
    intros _. split; [reflexivity|]. split; [reflexivity|]. exists config.
    split; [reflexivity | exact Henabled].
  - intros _ _ config' Hsome. injection Hsome as <-. reflexivity.
Qed.
